(** * maxon_epos_ethercat_sdk: the drive lifecycle controller of [Maxon.cpp]

    A shallow embedding of [src/maxon_epos_ethercat_sdk/Maxon.cpp]: the
    CiA 402 transition tables of the SDO and the PDO channel, command
    staging, the cyclic read and write and the PDO state machine.  The
    object is modelled as a record of its member variables; every method
    is a function on that record.  Calls into the bus master, the steady
    clock and the two output streams (MELO_ERROR_STREAM, std::cout) are
    recorded in the record as traces. *)

From Stdlib Require Import ZArith List Bool Lia Floats Uint63 Ascii.
Import ListNotations.
Local Open Scope Z_scope.

(** ** Enumerations *)

(** Modelled from the spec: the [DriveState] enumeration (its declaration is
    in a header that is not among the sources).  These are the six states
    that [Maxon.cpp] names in its case labels. *)
Inductive DriveState :=
| SwitchOnDisabled
| ReadyToSwitchOn
| SwitchedOn
| OperationEnabled
| QuickStopActive
| Fault.

Definition DriveState_eqb (a b : DriveState) : bool :=
  match a, b with
  | SwitchOnDisabled, SwitchOnDisabled
  | ReadyToSwitchOn, ReadyToSwitchOn
  | SwitchedOn, SwitchedOn
  | OperationEnabled, OperationEnabled
  | QuickStopActive, QuickStopActive
  | Fault, Fault => true
  | _, _ => false
  end.

(** The state transitions named in [stateTransitionViaSdo]. *)
Inductive StateTransition :=
| _2 | _3 | _4 | _5 | _6 | _7 | _8 | _9 | _10 | _11 | _12 | _15.

(** Modelled from the spec: [ModeOfOperationEnum] ("NA, CyclicSyncPosition,
    CyclicSyncVelocity, CyclicSyncTorque, ProfileVelocity, ...").  Only [NA]
    is named in [Maxon.cpp]. *)
Inductive ModeOfOperationEnum :=
| NA
| ProfiledPositionMode
| ProfiledVelocityMode
| HomingMode
| CyclicSynchronousPositionMode
| CyclicSynchronousVelocityMode
| CyclicSynchronousTorqueMode.

Definition ModeOfOperationEnum_eqb (a b : ModeOfOperationEnum) : bool :=
  match a, b with
  | NA, NA
  | ProfiledPositionMode, ProfiledPositionMode
  | ProfiledVelocityMode, ProfiledVelocityMode
  | HomingMode, HomingMode
  | CyclicSynchronousPositionMode, CyclicSynchronousPositionMode
  | CyclicSynchronousVelocityMode, CyclicSynchronousVelocityMode
  | CyclicSynchronousTorqueMode, CyclicSynchronousTorqueMode => true
  | _, _ => false
  end.

(** The frame variants of the two switches in [updateWrite] and
    [updateRead]; [RxPdoNA] and [TxPdoNA] stand for every value that falls
    into the [default] branch. *)
Inductive RxPdoTypeEnum :=
| RxPdoNA | RxPdoStandard | RxPdoCSP | RxPdoCST | RxPdoCSV | RxPdoCSTCSP | RxPdoPVM.

Inductive TxPdoTypeEnum :=
| TxPdoNA | TxPdoStandard | TxPdoCSP | TxPdoCST | TxPdoCSV | TxPdoCSTCSP | TxPdoPVM.

Definition isRxPdoStandard (t : RxPdoTypeEnum) : bool :=
  match t with RxPdoStandard => true | _ => false end.

Definition isTxPdoStandard (t : TxPdoTypeEnum) : bool :=
  match t with TxPdoStandard => true | _ => false end.

(** The error kinds that [Maxon.cpp] adds to the reading. *)
Inductive ErrorType :=
| ConfigurationError
| ModeOfOperationError
| RxPdoTypeError
| TxPdoTypeError
| SdoStateTransitionError
| PdoStateTransitionError.

(** ** Control word *)

(** Modelled from the spec: the [Controlword] class ("named state transition
    presets, each a specific bit pattern").  The class is not among the
    sources, so a control word is kept as the preset that was applied to
    it; [getRawControlword] is the 16-bit encoding of that preset and is
    not unfolded here. *)
Inductive Controlword :=
| AllFalse
| StateTransitionPreset (t : StateTransition).

Definition setAllFalse : Controlword := AllFalse.
Definition setStateTransition (t : StateTransition) : Controlword :=
  StateTransitionPreset t.

(** The transition carried by a control word, if any. *)
Definition transitionOf (c : Controlword) : option StateTransition :=
  match c with
  | AllFalse => None
  | StateTransitionPreset t => Some t
  end.

(** ** Configuration, command, reading *)

(** The fields of [Configuration] that [Maxon.cpp] reads.  Doubles are
    binary64 floats; the integer fields are kept in [Z] (their widths are
    declared in a header that is not among the sources). *)
Record Configuration := {
  rxPdoTypeEnum : RxPdoTypeEnum;
  txPdoTypeEnum : TxPdoTypeEnum;
  modeOfOperationEnum : ModeOfOperationEnum;
  useMultipleModeOfOperations : bool;
  useRawCommands : bool;
  positionEncoderResolution : Z;
  nominalCurrentA : float;
  motorConstant : float;
  gearRatio : float;
  maxCurrentA : float;
  configRunSdoVerifyTimeout : Z;
  driveStateChangeMinTimeout : Z;
  driveStateChangeMaxTimeout : Z;
  minNumberOfSuccessfulTargetStateReadings : Z
}.

(** The part of [Command] that [Maxon.cpp] touches: the mode, the values
    written by the setters of [stageCommand] and the raw values read by the
    getters of [updateWrite]. *)
Record Command := {
  cmdModeOfOperation : ModeOfOperationEnum;
  positionFactorRadToInteger : float;
  currentFactorAToInteger : float;
  torqueFactorNmToInteger : float;
  maxCurrent : float;
  maxTorque : float;
  cmdUseRawCommands : bool;
  targetPositionRaw : Z;
  positionOffsetRaw : Z;
  torqueOffsetRaw : Z;
  targetTorqueRaw : Z;
  targetVelocityRaw : Z;
  velocityOffsetRaw : Z;
  profileAccelRaw : Z;
  profileDeccelRaw : Z;
  motionProfileType : Z
}.

Definition getModeOfOperation (c : Command) : ModeOfOperationEnum :=
  cmdModeOfOperation c.

(** The setters that [stageCommand] calls, as one update. *)
Definition setScaling (pos cur trq maxC maxT : float) (raw : bool)
    (c : Command) : Command :=
  {| cmdModeOfOperation := cmdModeOfOperation c;
     positionFactorRadToInteger := pos;
     currentFactorAToInteger := cur;
     torqueFactorNmToInteger := trq;
     maxCurrent := maxC;
     maxTorque := maxT;
     cmdUseRawCommands := raw;
     targetPositionRaw := targetPositionRaw c;
     positionOffsetRaw := positionOffsetRaw c;
     torqueOffsetRaw := torqueOffsetRaw c;
     targetTorqueRaw := targetTorqueRaw c;
     targetVelocityRaw := targetVelocityRaw c;
     velocityOffsetRaw := velocityOffsetRaw c;
     profileAccelRaw := profileAccelRaw c;
     profileDeccelRaw := profileDeccelRaw c;
     motionProfileType := motionProfileType c |}.

(** The latest telemetry snapshot: the raw values stored by [updateRead],
    the configuration given to [configureReading] and the accumulated
    errors (oldest first). *)
Record Reading := {
  statusword : Z;
  actualCurrent : Z;
  actualVelocity : Z;
  actualPosition : Z;
  demandVelocity : Z;
  readingConfiguration : option Configuration;
  errors : list ErrorType
}.

Definition addError (e : ErrorType) (r : Reading) : Reading :=
  {| statusword := statusword r;
     actualCurrent := actualCurrent r;
     actualVelocity := actualVelocity r;
     actualPosition := actualPosition r;
     demandVelocity := demandVelocity r;
     readingConfiguration := readingConfiguration r;
     errors := errors r ++ [e] |}.

Definition configureReading (c : Configuration) (r : Reading) : Reading :=
  {| statusword := statusword r;
     actualCurrent := actualCurrent r;
     actualVelocity := actualVelocity r;
     actualPosition := actualPosition r;
     demandVelocity := demandVelocity r;
     readingConfiguration := Some c;
     errors := errors r |}.

(** ** Frames *)

(** A write-direction frame, one constructor per variant, with the fields
    that [updateWrite] assigns in that variant (in the order of the
    assignments).  The mode byte is kept as the enumeration value that is
    cast to [int8_t]. *)
Inductive RxPdo :=
| FrameStandard (modeOfOperation : ModeOfOperationEnum) (controlWord : Controlword)
| FrameCSP (targetPosition positionOffset torqueOffset : Z)
    (controlWord : Controlword) (modeOfOperation : ModeOfOperationEnum)
| FrameCST (targetTorque torqueOffset : Z)
    (controlWord : Controlword) (modeOfOperation : ModeOfOperationEnum)
| FrameCSV (targetVelocity velocityOffset : Z)
    (controlWord : Controlword) (modeOfOperation : ModeOfOperationEnum)
| FrameCSTCSP (controlWord : Controlword) (modeOfOperation : ModeOfOperationEnum)
| FramePVM (controlWord : Controlword)
    (targetVelocity profileAccel profileDeccel motionProfile : Z).

(** The control word written into a frame. *)
Definition frameControlWord (f : RxPdo) : Controlword :=
  match f with
  | FrameStandard _ c => c
  | FrameCSP _ _ _ c _ => c
  | FrameCST _ _ c _ => c
  | FrameCSV _ _ c _ => c
  | FrameCSTCSP c _ => c
  | FramePVM c _ _ _ _ => c
  end.

(** The mode of operation written into a frame, when the variant's case
    assigns one. *)
Definition frameModeOfOperation (f : RxPdo) : option ModeOfOperationEnum :=
  match f with
  | FrameStandard m _ => Some m
  | FrameCSP _ _ _ _ m => Some m
  | FrameCST _ _ _ m => Some m
  | FrameCSV _ _ _ m => Some m
  | FrameCSTCSP _ m => Some m
  | FramePVM _ _ _ _ _ => None
  end.

(** What the bus delivers to one [readTxPdo]: the union of the fields of the
    read-direction frames; each case of [updateRead] uses those of its own
    variant. *)
Record TxPdo := {
  statusword_ : Z;
  actualTorque_ : Z;
  actualVelocity_ : Z;
  actualPosition_ : Z;
  demandVelocity_ : Z
}.

(** ** The bus master, the clock and the output streams *)

(** The bus master as the core sees it: its replies to the service-channel
    requests, and the history of what was written to it (oldest first). *)
Record Bus := {
  sdoStatuswordReply : bool * Z;
  sdoWriteReply : Controlword -> bool;
  sdoWrites : list Controlword;
  rxPdoWrites : list RxPdo
}.

(** The lines written to MELO_ERROR_STREAM ([Err...]) and to std::cout
    ([Out...]). *)
Inductive LogEvent :=
| ErrModeOfOperationNotSet
| ErrUnsupportedRxPdo
| ErrUnsupportedTxPdo
| ErrDriveInFault
| ErrModeChangeNotAllowed
| ErrSdoTransitionNotImplemented
| ErrPdoAlreadyReached
| ErrPdoCannotBeReached
| OutEngaged
| OutConductStateChange (b : bool)
| OutCurrentDriveState (s : DriveState)
| OutTargetReached.

(** ** The device object *)

(** The member variables of [Maxon] that the methods of [Maxon.cpp] use,
    followed by the three collaborators: the bus master [bus_], the steady
    clock (in microseconds) and the output streams. *)
Record Maxon := {
  configuration_ : Configuration;
  reading_ : Reading;
  stagedCommand_ : Command;
  controlword_ : Controlword;
  modeOfOperation_ : ModeOfOperationEnum;
  allowModeChange_ : bool;
  conductStateChange_ : bool;
  hasRead_ : bool;
  stateChangeSuccessful_ : bool;
  targetDriveState_ : DriveState;
  numberOfSuccessfulTargetStateReadings_ : Z;
  driveStateChangeTimePoint_ : Z;
  bus_ : Bus;
  clock : Z;
  log : list LogEvent
}.

Definition set_configuration (v : Configuration) (m : Maxon) : Maxon :=
  Build_Maxon v (reading_ m) (stagedCommand_ m) (controlword_ m)
    (modeOfOperation_ m) (allowModeChange_ m) (conductStateChange_ m)
    (hasRead_ m) (stateChangeSuccessful_ m) (targetDriveState_ m)
    (numberOfSuccessfulTargetStateReadings_ m) (driveStateChangeTimePoint_ m)
    (bus_ m) (clock m) (log m).

Definition set_reading (v : Reading) (m : Maxon) : Maxon :=
  Build_Maxon (configuration_ m) v (stagedCommand_ m) (controlword_ m)
    (modeOfOperation_ m) (allowModeChange_ m) (conductStateChange_ m)
    (hasRead_ m) (stateChangeSuccessful_ m) (targetDriveState_ m)
    (numberOfSuccessfulTargetStateReadings_ m) (driveStateChangeTimePoint_ m)
    (bus_ m) (clock m) (log m).

Definition set_stagedCommand (v : Command) (m : Maxon) : Maxon :=
  Build_Maxon (configuration_ m) (reading_ m) v (controlword_ m)
    (modeOfOperation_ m) (allowModeChange_ m) (conductStateChange_ m)
    (hasRead_ m) (stateChangeSuccessful_ m) (targetDriveState_ m)
    (numberOfSuccessfulTargetStateReadings_ m) (driveStateChangeTimePoint_ m)
    (bus_ m) (clock m) (log m).

Definition set_controlword (v : Controlword) (m : Maxon) : Maxon :=
  Build_Maxon (configuration_ m) (reading_ m) (stagedCommand_ m) v
    (modeOfOperation_ m) (allowModeChange_ m) (conductStateChange_ m)
    (hasRead_ m) (stateChangeSuccessful_ m) (targetDriveState_ m)
    (numberOfSuccessfulTargetStateReadings_ m) (driveStateChangeTimePoint_ m)
    (bus_ m) (clock m) (log m).

Definition set_modeOfOperation (v : ModeOfOperationEnum) (m : Maxon) : Maxon :=
  Build_Maxon (configuration_ m) (reading_ m) (stagedCommand_ m) (controlword_ m)
    v (allowModeChange_ m) (conductStateChange_ m)
    (hasRead_ m) (stateChangeSuccessful_ m) (targetDriveState_ m)
    (numberOfSuccessfulTargetStateReadings_ m) (driveStateChangeTimePoint_ m)
    (bus_ m) (clock m) (log m).

Definition set_allowModeChange (v : bool) (m : Maxon) : Maxon :=
  Build_Maxon (configuration_ m) (reading_ m) (stagedCommand_ m) (controlword_ m)
    (modeOfOperation_ m) v (conductStateChange_ m)
    (hasRead_ m) (stateChangeSuccessful_ m) (targetDriveState_ m)
    (numberOfSuccessfulTargetStateReadings_ m) (driveStateChangeTimePoint_ m)
    (bus_ m) (clock m) (log m).

Definition set_conductStateChange (v : bool) (m : Maxon) : Maxon :=
  Build_Maxon (configuration_ m) (reading_ m) (stagedCommand_ m) (controlword_ m)
    (modeOfOperation_ m) (allowModeChange_ m) v
    (hasRead_ m) (stateChangeSuccessful_ m) (targetDriveState_ m)
    (numberOfSuccessfulTargetStateReadings_ m) (driveStateChangeTimePoint_ m)
    (bus_ m) (clock m) (log m).

Definition set_hasRead (v : bool) (m : Maxon) : Maxon :=
  Build_Maxon (configuration_ m) (reading_ m) (stagedCommand_ m) (controlword_ m)
    (modeOfOperation_ m) (allowModeChange_ m) (conductStateChange_ m)
    v (stateChangeSuccessful_ m) (targetDriveState_ m)
    (numberOfSuccessfulTargetStateReadings_ m) (driveStateChangeTimePoint_ m)
    (bus_ m) (clock m) (log m).

Definition set_stateChangeSuccessful (v : bool) (m : Maxon) : Maxon :=
  Build_Maxon (configuration_ m) (reading_ m) (stagedCommand_ m) (controlword_ m)
    (modeOfOperation_ m) (allowModeChange_ m) (conductStateChange_ m)
    (hasRead_ m) v (targetDriveState_ m)
    (numberOfSuccessfulTargetStateReadings_ m) (driveStateChangeTimePoint_ m)
    (bus_ m) (clock m) (log m).

Definition set_targetDriveState (v : DriveState) (m : Maxon) : Maxon :=
  Build_Maxon (configuration_ m) (reading_ m) (stagedCommand_ m) (controlword_ m)
    (modeOfOperation_ m) (allowModeChange_ m) (conductStateChange_ m)
    (hasRead_ m) (stateChangeSuccessful_ m) v
    (numberOfSuccessfulTargetStateReadings_ m) (driveStateChangeTimePoint_ m)
    (bus_ m) (clock m) (log m).

Definition set_numberOfSuccessfulTargetStateReadings (v : Z) (m : Maxon) : Maxon :=
  Build_Maxon (configuration_ m) (reading_ m) (stagedCommand_ m) (controlword_ m)
    (modeOfOperation_ m) (allowModeChange_ m) (conductStateChange_ m)
    (hasRead_ m) (stateChangeSuccessful_ m) (targetDriveState_ m)
    v (driveStateChangeTimePoint_ m)
    (bus_ m) (clock m) (log m).

Definition set_driveStateChangeTimePoint (v : Z) (m : Maxon) : Maxon :=
  Build_Maxon (configuration_ m) (reading_ m) (stagedCommand_ m) (controlword_ m)
    (modeOfOperation_ m) (allowModeChange_ m) (conductStateChange_ m)
    (hasRead_ m) (stateChangeSuccessful_ m) (targetDriveState_ m)
    (numberOfSuccessfulTargetStateReadings_ m) v
    (bus_ m) (clock m) (log m).

Definition set_bus (v : Bus) (m : Maxon) : Maxon :=
  Build_Maxon (configuration_ m) (reading_ m) (stagedCommand_ m) (controlword_ m)
    (modeOfOperation_ m) (allowModeChange_ m) (conductStateChange_ m)
    (hasRead_ m) (stateChangeSuccessful_ m) (targetDriveState_ m)
    (numberOfSuccessfulTargetStateReadings_ m) (driveStateChangeTimePoint_ m)
    v (clock m) (log m).

Definition set_clock (v : Z) (m : Maxon) : Maxon :=
  Build_Maxon (configuration_ m) (reading_ m) (stagedCommand_ m) (controlword_ m)
    (modeOfOperation_ m) (allowModeChange_ m) (conductStateChange_ m)
    (hasRead_ m) (stateChangeSuccessful_ m) (targetDriveState_ m)
    (numberOfSuccessfulTargetStateReadings_ m) (driveStateChangeTimePoint_ m)
    (bus_ m) v (log m).

Definition set_log (v : list LogEvent) (m : Maxon) : Maxon :=
  Build_Maxon (configuration_ m) (reading_ m) (stagedCommand_ m) (controlword_ m)
    (modeOfOperation_ m) (allowModeChange_ m) (conductStateChange_ m)
    (hasRead_ m) (stateChangeSuccessful_ m) (targetDriveState_ m)
    (numberOfSuccessfulTargetStateReadings_ m) (driveStateChangeTimePoint_ m)
    (bus_ m) (clock m) v.

(** One line on MELO_ERROR_STREAM or std::cout. *)
Definition emit (e : LogEvent) (m : Maxon) : Maxon :=
  set_log (log m ++ [e]) m.

(** [addErrorToReading] and [reading_.addError]: both append to the errors
    of the reading. *)
Definition addErrorToReading (e : ErrorType) (m : Maxon) : Maxon :=
  set_reading (addError e (reading_ m)) m.

(** [std::chrono::steady_clock::now()], in microseconds. *)
Definition now (m : Maxon) : Z := clock m.

(** [bus_->writeRxPdo(address_, rxPdo)]. *)
Definition writeRxPdo (f : RxPdo) (m : Maxon) : Maxon :=
  let b := bus_ m in
  set_bus {| sdoStatuswordReply := sdoStatuswordReply b;
             sdoWriteReply := sdoWriteReply b;
             sdoWrites := sdoWrites b;
             rxPdoWrites := rxPdoWrites b ++ [f] |} m.

(** ** A state monad for the methods that return a value *)

Definition M (A : Type) : Type := Maxon -> A * Maxon.

Definition ret {A : Type} (a : A) : M A := fun m => (a, m).

Definition bind {A B : Type} (c : M A) (k : A -> M B) : M B :=
  fun m => let (a, m') := c m in k a m'.

Definition lift (f : Maxon -> Maxon) : M unit := fun m => (tt, f m).

Notation "x <- c ;; k" := (bind c (fun x => k))
  (at level 61, c at next level, right associativity).
Notation "c ;;; k" := (bind c (fun _ => k))
  (at level 61, right associativity).

(** ** The SDO channel *)

(** [setControlwordViaSdo]: a blocking write of the control word; the bus
    answers whether it succeeded. *)
Definition setControlwordViaSdo (controlword : Controlword) : M bool :=
  fun m =>
    let b := bus_ m in
    (sdoWriteReply b controlword,
     set_bus {| sdoStatuswordReply := sdoStatuswordReply b;
                sdoWriteReply := sdoWriteReply b;
                sdoWrites := sdoWrites b ++ [controlword];
                rxPdoWrites := rxPdoWrites b |} m).

(** [stateTransitionViaSdo]: each of the twelve cases applies its preset to
    a fresh control word and writes it; the [default] branch is not
    reachable from a value of [StateTransition]. *)
Definition stateTransitionViaSdo (stateTransition : StateTransition) : M bool :=
  let controlword := setStateTransition stateTransition in
  setControlwordViaSdo controlword.

(** [getStatuswordViaSdo]: the raw status word and whether the read
    succeeded. *)
Definition getStatuswordViaSdo : M (bool * Z) :=
  fun m => let (success, statuswordValue) := sdoStatuswordReply (bus_ m) in
           ((success, statuswordValue), m).

(** The two nested switches of [setDriveStateViaSdo]: the transitions that
    the branch for (requested, current) issues, in order; [None] is a
    branch that reports "State Transition not implemented". *)
Definition sdoTransitions (driveState currentDriveState : DriveState)
    : option (list StateTransition) :=
  match driveState with
  | SwitchOnDisabled =>
      match currentDriveState with
      | SwitchOnDisabled => Some []
      | ReadyToSwitchOn => Some [_7]
      | SwitchedOn => Some [_10]
      | OperationEnabled => Some [_9]
      | QuickStopActive => Some [_12]
      | Fault => Some [_15]
      end
  | ReadyToSwitchOn =>
      match currentDriveState with
      | SwitchOnDisabled => Some [_2]
      | ReadyToSwitchOn => Some []
      | SwitchedOn => Some [_6]
      | OperationEnabled => Some [_8]
      | QuickStopActive => Some [_12; _2]
      | Fault => Some [_15; _2]
      end
  | SwitchedOn =>
      match currentDriveState with
      | SwitchOnDisabled => Some [_2; _3]
      | ReadyToSwitchOn => Some [_3]
      | SwitchedOn => Some []
      | OperationEnabled => Some [_5]
      | QuickStopActive => Some [_12; _2; _3]
      | Fault => Some [_15; _2; _3]
      end
  | OperationEnabled =>
      match currentDriveState with
      | SwitchOnDisabled => Some [_2; _3; _4]
      | ReadyToSwitchOn => Some [_3; _4]
      | SwitchedOn => Some [_4]
      | OperationEnabled => Some []
      | QuickStopActive => Some [_12; _2; _3; _4]
      | Fault => Some [_15; _2; _3; _4]
      end
  | QuickStopActive =>
      match currentDriveState with
      | SwitchOnDisabled => Some [_2; _3; _4; _11]
      | ReadyToSwitchOn => Some [_3; _4; _11]
      | SwitchedOn => Some [_4; _11]
      | OperationEnabled => Some [_11]
      | QuickStopActive => Some []
      | Fault => Some [_15; _2; _3; _4; _11]
      end
  | Fault => None
  end.

(** [success &= stateTransitionViaSdo(t)] for each transition of a branch:
    every write is issued, whether or not an earlier one failed. *)
Fixpoint issueViaSdo (ts : list StateTransition) (success : bool) : M bool :=
  match ts with
  | [] => ret success
  | t :: rest =>
      ok <- stateTransitionViaSdo t ;;
      issueViaSdo rest (success && ok)
  end.

(** The list of transitions that a branch of [sdoTransitions] issues, with
    the branches that issue none mapped to the empty list. *)
Definition sdoTransitionList (driveState currentDriveState : DriveState)
    : list StateTransition :=
  match sdoTransitions driveState currentDriveState with
  | Some ts => ts
  | None => []
  end.

(** ** The PDO channel: the next transition *)

(** The branch that the two nested switches of
    [getNextStateTransitionControlword] take for (requested, current). *)
Inductive PdoBranch :=
| PdoTransition (t : StateTransition)
| PdoAlreadyReached
| PdoCannotBeReached.

Definition pdoBranch (requestedDriveState currentDriveState : DriveState)
    : PdoBranch :=
  match requestedDriveState with
  | SwitchOnDisabled =>
      match currentDriveState with
      | SwitchOnDisabled => PdoAlreadyReached
      | ReadyToSwitchOn => PdoTransition _7
      | SwitchedOn => PdoTransition _10
      | OperationEnabled => PdoTransition _9
      | QuickStopActive => PdoTransition _12
      | Fault => PdoTransition _15
      end
  | ReadyToSwitchOn =>
      match currentDriveState with
      | SwitchOnDisabled => PdoTransition _2
      | ReadyToSwitchOn => PdoAlreadyReached
      | SwitchedOn => PdoTransition _6
      | OperationEnabled => PdoTransition _8
      | QuickStopActive => PdoTransition _12
      | Fault => PdoTransition _15
      end
  | SwitchedOn =>
      match currentDriveState with
      | SwitchOnDisabled => PdoTransition _2
      | ReadyToSwitchOn => PdoTransition _3
      | SwitchedOn => PdoAlreadyReached
      | OperationEnabled => PdoTransition _5
      | QuickStopActive => PdoTransition _12
      | Fault => PdoTransition _15
      end
  | OperationEnabled =>
      match currentDriveState with
      | SwitchOnDisabled => PdoTransition _2
      | ReadyToSwitchOn => PdoTransition _3
      | SwitchedOn => PdoTransition _4
      | OperationEnabled => PdoAlreadyReached
      | QuickStopActive => PdoTransition _12
      | Fault => PdoTransition _15
      end
  | QuickStopActive =>
      match currentDriveState with
      | SwitchOnDisabled => PdoTransition _2
      | ReadyToSwitchOn => PdoTransition _3
      | SwitchedOn => PdoTransition _4
      | OperationEnabled => PdoTransition _11
      | QuickStopActive => PdoAlreadyReached
      | Fault => PdoTransition _15
      end
  | Fault => PdoCannotBeReached
  end.

(** [getNextStateTransitionControlword]: the control word starts all false;
    a transition branch applies its preset, the two other branches write an
    error line and add [PdoStateTransitionError] to the reading. *)
Definition getNextStateTransitionControlword
    (requestedDriveState currentDriveState : DriveState) : M Controlword :=
  let controlword := setAllFalse in
  match pdoBranch requestedDriveState currentDriveState with
  | PdoTransition t => ret (setStateTransition t)
  | PdoAlreadyReached =>
      lift (emit ErrPdoAlreadyReached) ;;;
      lift (addErrorToReading PdoStateTransitionError) ;;;
      ret controlword
  | PdoCannotBeReached =>
      lift (emit ErrPdoCannotBeReached) ;;;
      lift (addErrorToReading PdoStateTransitionError) ;;;
      ret controlword
  end.

(** The transitions that one call of the PDO mapping yields: at most one. *)
Definition pdoTransitionList (requestedDriveState currentDriveState : DriveState)
    : list StateTransition :=
  match pdoBranch requestedDriveState currentDriveState with
  | PdoTransition t => [t]
  | _ => []
  end.

(** ** Doubles *)

(** [M_PI] of <cmath>. *)
Definition M_PI : float := 0x1.921fb54442d18p+1%float.

(** [static_cast<double>] of an integer. *)
Definition double_of_Z (z : Z) : float :=
  if z <? 0 then PrimFloat.opp (PrimFloat.of_uint63 (Uint63.of_Z (- z)))
  else PrimFloat.of_uint63 (Uint63.of_Z z).

(** What the threads other than a waiting caller do: the scheduler's
    [updateRead] (with the frame the bus delivers) and [updateWrite], a
    caller's [stageCommand], a non-waiting [setDriveStateViaPdo], and the
    passing of time (in microseconds). *)
Inductive Action :=
| ActTick (d : N)
| ActUpdateRead (frame : TxPdo)
| ActUpdateWrite
| ActStageCommand (command : Command)
| ActSetDriveStateViaPdo (driveState : DriveState).

Definition isUpdateRead (a : Action) : bool :=
  match a with ActUpdateRead _ => true | _ => false end.

Section Device.

(** [Statusword::getDriveState]: the decoding of the raw status word
    (defined in a file that is not among the sources). *)
Variable decodeDriveState : Z -> DriveState.

(** [Command::doUnitConversion]: fills the raw values of a command from its
    physical values and its scaling (defined in a file that is not among
    the sources). *)
Variable doUnitConversion : Command -> Command.

(** [reading_.getDriveState()]. *)
Definition getDriveState (r : Reading) : DriveState :=
  decodeDriveState (statusword r).

(** [setDriveStateViaSdo]: read the status word, decode the current state,
    then issue the transitions of the branch for (requested, current). *)
Definition setDriveStateViaSdo (driveState : DriveState) : M bool :=
  reply <- getStatuswordViaSdo ;;
  let success := fst reply in
  let currentDriveState := decodeDriveState (snd reply) in
  match sdoTransitions driveState currentDriveState with
  | Some ts => issueViaSdo ts success
  | None =>
      lift (emit ErrSdoTransitionNotImplemented) ;;;
      lift (addErrorToReading SdoStateTransitionError) ;;;
      ret false
  end.

(** [preShutdown]. *)
Definition preShutdown (m : Maxon) : Maxon :=
  snd (setDriveStateViaSdo SwitchOnDisabled
         (snd (setDriveStateViaSdo QuickStopActive m))).

(** [engagePdoStateMachine]. *)
Definition engagePdoStateMachine (m : Maxon) : Maxon :=
  let m := emit OutEngaged m in
  let m := emit (OutConductStateChange (conductStateChange_ m)) m in
  let microsecondsSinceChange := now m - driveStateChangeTimePoint_ m in
  let currentDriveState := getDriveState (reading_ m) in
  let m := emit (OutCurrentDriveState currentDriveState) m in
  if DriveState_eqb currentDriveState (targetDriveState_ m) then
    let m := emit OutTargetReached m in
    let m := set_numberOfSuccessfulTargetStateReadings
               (numberOfSuccessfulTargetStateReadings_ m + 1) m in
    if minNumberOfSuccessfulTargetStateReadings (configuration_ m)
         <=? numberOfSuccessfulTargetStateReadings_ m
    then
      let m := set_conductStateChange false m in
      let m := set_numberOfSuccessfulTargetStateReadings 0 m in
      set_stateChangeSuccessful true m
    else set_hasRead false m
  else if driveStateChangeMinTimeout (configuration_ m) <? microsecondsSinceChange
  then
    let (controlword, m) :=
      getNextStateTransitionControlword (targetDriveState_ m) currentDriveState m in
    let m := set_controlword controlword m in
    let m := set_driveStateChangeTimePoint (now m) m in
    set_hasRead false m
  else set_hasRead false m.

(** The frame that the switch of [updateWrite] builds for a variant;
    [None] in the [default] branch. *)
Definition buildRxPdo (m : Maxon) : option RxPdo :=
  let c := stagedCommand_ m in
  match rxPdoTypeEnum (configuration_ m) with
  | RxPdoStandard =>
      Some (FrameStandard (modeOfOperation_ m) (controlword_ m))
  | RxPdoCSP =>
      Some (FrameCSP (targetPositionRaw c) (positionOffsetRaw c) (torqueOffsetRaw c)
              (controlword_ m) (getModeOfOperation c))
  | RxPdoCST =>
      Some (FrameCST (targetTorqueRaw c) (torqueOffsetRaw c)
              (controlword_ m) (getModeOfOperation c))
  | RxPdoCSV =>
      Some (FrameCSV (targetVelocityRaw c) (velocityOffsetRaw c)
              (controlword_ m) (getModeOfOperation c))
  | RxPdoCSTCSP =>
      Some (FrameCSTCSP (controlword_ m) (getModeOfOperation c))
  | RxPdoPVM =>
      Some (FramePVM (controlword_ m) (targetVelocityRaw c) (profileAccelRaw c)
              (profileDeccelRaw c) (motionProfileType c))
  | RxPdoNA => None
  end.

(** [updateWrite]. *)
Definition updateWrite (m : Maxon) : Maxon :=
  if ModeOfOperationEnum_eqb (modeOfOperation_ m) NA then
    let m := set_reading (addError ModeOfOperationError (reading_ m)) m in
    emit ErrModeOfOperationNotSet m
  else
    let m := if conductStateChange_ m && hasRead_ m
             then engagePdoStateMachine m else m in
    match buildRxPdo m with
    | Some rxPdo => writeRxPdo rxPdo m
    | None => addErrorToReading RxPdoTypeError (emit ErrUnsupportedRxPdo m)
    end.

(** The reading after the switch of [updateRead] has stored the fields of
    the variant's frame. *)
Definition storeTxPdo (t : TxPdoTypeEnum) (txPdo : TxPdo) (r : Reading) : Reading :=
  let full :=
    {| statusword := statusword_ txPdo;
       actualCurrent := actualTorque_ txPdo;
       actualVelocity := actualVelocity_ txPdo;
       actualPosition := actualPosition_ txPdo;
       demandVelocity := demandVelocity r;
       readingConfiguration := readingConfiguration r;
       errors := errors r |} in
  match t with
  | TxPdoStandard =>
      {| statusword := statusword_ txPdo;
         actualCurrent := actualCurrent r;
         actualVelocity := actualVelocity r;
         actualPosition := actualPosition r;
         demandVelocity := demandVelocity r;
         readingConfiguration := readingConfiguration r;
         errors := errors r |}
  | TxPdoCSP | TxPdoCST | TxPdoCSV | TxPdoCSTCSP => full
  | TxPdoPVM =>
      {| statusword := statusword_ txPdo;
         actualCurrent := actualCurrent r;
         actualVelocity := actualVelocity r;
         actualPosition := actualPosition r;
         demandVelocity := demandVelocity_ txPdo;
         readingConfiguration := readingConfiguration r;
         errors := errors r |}
  | TxPdoNA => addError TxPdoTypeError r
  end.

(** [updateRead]; [txPdo] is what the bus delivers to [readTxPdo].  The
    error code that [printErrorCode] prints in the fault state is part of
    the [ErrDriveInFault] line. *)
Definition updateRead (txPdo : TxPdo) (m : Maxon) : Maxon :=
  let m := set_reading (storeTxPdo (txPdoTypeEnum (configuration_ m)) txPdo (reading_ m)) m in
  let m := match txPdoTypeEnum (configuration_ m) with
           | TxPdoNA => emit ErrUnsupportedTxPdo m
           | _ => m
           end in
  let m := if negb (hasRead_ m) then set_hasRead true m else m in
  if DriveState_eqb (getDriveState (reading_ m)) Fault
  then emit ErrDriveInFault m
  else m.

(** [stageCommand]. *)
Definition stageCommand (command : Command) (m : Maxon) : Maxon :=
  let cfg := configuration_ m in
  let currentFactorAToInt := (1000 / nominalCurrentA cfg)%float in
  let staged :=
    doUnitConversion
      (setScaling
         (double_of_Z (positionEncoderResolution cfg) / (2 * M_PI))%float
         currentFactorAToInt
         (currentFactorAToInt / motorConstant cfg / gearRatio cfg)%float
         (maxCurrentA cfg)
         (maxCurrentA cfg * motorConstant cfg * gearRatio cfg)%float
         (useRawCommands cfg)
         command) in
  let m := set_stagedCommand staged m in
  if allowModeChange_ m then
    set_modeOfOperation (getModeOfOperation command) m
  else
    if negb (ModeOfOperationEnum_eqb (modeOfOperation_ m) (getModeOfOperation command))
       && negb (ModeOfOperationEnum_eqb (getModeOfOperation command) NA)
    then emit ErrModeChangeNotAllowed m
    else m.

(** [loadConfiguration]. *)
Definition loadConfiguration (configuration : Configuration) : M bool :=
  fun m =>
    let success := true in
    let m := set_reading (configureReading configuration (reading_ m)) m in
    let allow := true in
    let allow := allow && useMultipleModeOfOperations configuration in
    let allow := allow && isRxPdoStandard (rxPdoTypeEnum configuration) in
    let allow := allow && isTxPdoStandard (txPdoTypeEnum configuration) in
    let m := set_allowModeChange allow m in
    let m := set_modeOfOperation (modeOfOperationEnum configuration) m in
    let m := set_configuration configuration m in
    (success, m).

(** The first part of [setDriveStateViaPdo], up to the test of
    [waitForState]: the request is armed. *)
Definition armStateChange (driveState : DriveState) (m : Maxon) : Maxon :=
  let m := set_stateChangeSuccessful false m in
  let m := set_conductStateChange true m in
  let m := set_targetDriveState driveState m in
  let m := set_hasRead false m in
  set_driveStateChangeTimePoint (now m) m.

(** One step of another thread. *)
Definition runAction (a : Action) (m : Maxon) : Maxon :=
  match a with
  | ActTick d => set_clock (clock m + Z.of_N d) m
  | ActUpdateRead txPdo => updateRead txPdo m
  | ActUpdateWrite => updateWrite m
  | ActStageCommand command => stageCommand command m
  | ActSetDriveStateViaPdo driveState => armStateChange driveState m
  end.

Definition runActions (acts : list Action) (m : Maxon) : Maxon :=
  fold_left (fun m a => runAction a m) acts m.

(** One pass through the unlocked part of the waiting loop: the other
    threads run while the caller sleeps for at least one millisecond. *)
Definition sleepUnlocked (acts : list Action) (m : Maxon) : Maxon :=
  let m' := runActions acts m in
  set_clock (Z.max (clock m') (clock m + 1000)) m'.

(** The waiting loop of [setDriveStateViaPdo].  [sleeps] lists what the
    other threads do during each sleep; the loop gives no result when the
    list ends before the loop does. *)
Fixpoint waitForStateChange (sleeps : list (list Action))
    (driveStateChangeStartTimePoint : Z) (m : Maxon) {struct sleeps}
    : option (bool * Maxon) :=
  if stateChangeSuccessful_ m then Some (true, m)
  else if driveStateChangeMaxTimeout (configuration_ m)
            <? now m - driveStateChangeStartTimePoint
  then Some (false, m)
  else match sleeps with
       | [] => None
       | acts :: rest =>
           waitForStateChange rest driveStateChangeStartTimePoint
             (sleepUnlocked acts m)
       end.

(** [setDriveStateViaPdo]. *)
Definition setDriveStateViaPdo (driveState : DriveState) (waitForState : bool)
    (sleeps : list (list Action)) (m : Maxon) : option (bool * Maxon) :=
  let m := armStateChange driveState m in
  let driveStateChangeStartTimePoint := now m in
  if negb waitForState then Some (true, m)
  else waitForStateChange sleeps driveStateChangeStartTimePoint m.

(** The state after the first [k] sleeps of a waiting request. *)
Definition afterSleeps (sleeps : list (list Action)) (k : nat) (m : Maxon) : Maxon :=
  fold_left (fun m acts => sleepUnlocked acts m) (firstn k sleeps) m.

End Device.

(** ** Fixtures for the examples *)

(** A decoding for the examples: the CiA 402 status words of the six states
    with all other bits clear; every other word decodes to [Fault]. *)
Definition exampleDecode (z : Z) : DriveState :=
  match z with
  | 0x40 => SwitchOnDisabled
  | 0x21 => ReadyToSwitchOn
  | 0x23 => SwitchedOn
  | 0x27 => OperationEnabled
  | 0x07 => QuickStopActive
  | _ => Fault
  end.

(** The status word that [exampleDecode] maps to a state. *)
Definition exampleStatusword (s : DriveState) : Z :=
  match s with
  | SwitchOnDisabled => 0x40
  | ReadyToSwitchOn => 0x21
  | SwitchedOn => 0x23
  | OperationEnabled => 0x27
  | QuickStopActive => 0x07
  | Fault => 0x08
  end.

(** A unit conversion for the examples: it leaves the raw values as they
    are. *)
Definition exampleConversion (c : Command) : Command := c.

Definition exampleConfiguration (rx : RxPdoTypeEnum) (tx : TxPdoTypeEnum)
    (mode : ModeOfOperationEnum) (multi : bool) (minReadings maxTimeout : Z)
    : Configuration :=
  {| rxPdoTypeEnum := rx;
     txPdoTypeEnum := tx;
     modeOfOperationEnum := mode;
     useMultipleModeOfOperations := multi;
     useRawCommands := false;
     positionEncoderResolution := 4096;
     nominalCurrentA := 2%float;
     motorConstant := 1%float;
     gearRatio := 1%float;
     maxCurrentA := 4%float;
     configRunSdoVerifyTimeout := 20000;
     driveStateChangeMinTimeout := 1000;
     driveStateChangeMaxTimeout := maxTimeout;
     minNumberOfSuccessfulTargetStateReadings := minReadings |}.

Definition exampleCommand (mode : ModeOfOperationEnum) : Command :=
  {| cmdModeOfOperation := mode;
     positionFactorRadToInteger := 1%float;
     currentFactorAToInteger := 1%float;
     torqueFactorNmToInteger := 1%float;
     maxCurrent := 0%float;
     maxTorque := 0%float;
     cmdUseRawCommands := false;
     targetPositionRaw := 0;
     positionOffsetRaw := 0;
     torqueOffsetRaw := 0;
     targetTorqueRaw := 0;
     targetVelocityRaw := 100;
     velocityOffsetRaw := 0;
     profileAccelRaw := 10;
     profileDeccelRaw := 10;
     motionProfileType := 0 |}.

(** A freshly constructed device whose bus answers every service request
    with success and reports the drive in state [current]. *)
Definition exampleDevice (cfg : Configuration) (current : DriveState) : Maxon :=
  {| configuration_ := cfg;
     reading_ := {| statusword := exampleStatusword current;
                    actualCurrent := 0; actualVelocity := 0; actualPosition := 0;
                    demandVelocity := 0;
                    readingConfiguration := Some cfg;
                    errors := [] |};
     stagedCommand_ := exampleCommand (modeOfOperationEnum cfg);
     controlword_ := AllFalse;
     modeOfOperation_ := modeOfOperationEnum cfg;
     allowModeChange_ := useMultipleModeOfOperations cfg
                         && isRxPdoStandard (rxPdoTypeEnum cfg)
                         && isTxPdoStandard (txPdoTypeEnum cfg);
     conductStateChange_ := false;
     hasRead_ := false;
     stateChangeSuccessful_ := false;
     targetDriveState_ := SwitchOnDisabled;
     numberOfSuccessfulTargetStateReadings_ := 0;
     driveStateChangeTimePoint_ := 0;
     bus_ := {| sdoStatuswordReply := (true, exampleStatusword current);
                sdoWriteReply := fun _ => true;
                sdoWrites := [];
                rxPdoWrites := [] |};
     clock := 0;
     log := [] |}.

(** A read-direction frame that carries the status word of a state. *)
Definition exampleTxPdo (s : DriveState) : TxPdo :=
  {| statusword_ := exampleStatusword s;
     actualTorque_ := 0; actualVelocity_ := 0; actualPosition_ := 0;
     demandVelocity_ := 0 |}.

(** ** Observations on runs *)

Definition isOutEngaged (e : LogEvent) : bool :=
  match e with OutEngaged => true | _ => false end.

(** How often the PDO state machine was entered, by its first output line. *)
Definition countEngaged (l : list LogEvent) : nat :=
  length (filter isOutEngaged l).

Arguments countEngaged : simpl never.

(** The condition under which [updateWrite] reaches the call of
    [engagePdoStateMachine]. *)
Definition engages (m : Maxon) : bool :=
  negb (ModeOfOperationEnum_eqb (modeOfOperation_ m) NA)
  && (conductStateChange_ m && hasRead_ m).

(** One bus cycle of the scheduler: some time passes, then read, then
    write. *)
Definition cycleActions (c : N * TxPdo) : list Action :=
  [ActTick (fst c); ActUpdateRead (snd c); ActUpdateWrite].

Definition runCycles (decodeDriveState : Z -> DriveState)
    (doUnitConversion : Command -> Command)
    (cycles : list (N * TxPdo)) (m : Maxon) : Maxon :=
  fold_left
    (fun m c => runActions decodeDriveState doUnitConversion (cycleActions c) m)
    cycles m.

(** Whether the frame of a cycle decodes to the target state. *)
Definition confirms (decodeDriveState : Z -> DriveState) (target : DriveState)
    (c : N * TxPdo) : bool :=
  DriveState_eqb (decodeDriveState (statusword_ (snd c))) target.

(** The number of cycles whose read confirms the target. *)
Definition confirming (decodeDriveState : Z -> DriveState) (target : DriveState)
    (cycles : list (N * TxPdo)) : Z :=
  Z.of_nat (length (filter (confirms decodeDriveState target) cycles)).

(** The number of consecutive confirming cycles at the end of a run. *)
Fixpoint confirmingSuffix (decodeDriveState : Z -> DriveState) (target : DriveState)
    (reversed : list (N * TxPdo)) : Z :=
  match reversed with
  | [] => 0
  | c :: rest =>
      if confirms decodeDriveState target c
      then 1 + confirmingSuffix decodeDriveState target rest
      else 0
  end.

Definition consecutiveConfirming (decodeDriveState : Z -> DriveState)
    (target : DriveState) (cycles : list (N * TxPdo)) : Z :=
  confirmingSuffix decodeDriveState target (rev cycles).

(** The lifecycle of a pending request whose counter started at zero,
    after [n] confirming reads: still pending with the counter at [n], below
    the configured minimum; or complete, with the pending flag and the
    counter cleared, [n] having reached the minimum. *)
Definition lifecycleAfter (target : DriveState) (n : Z) (m : Maxon) : Prop :=
  modeOfOperation_ m <> NA
  /\ txPdoTypeEnum (configuration_ m) <> TxPdoNA
  /\ targetDriveState_ m = target
  /\ ((stateChangeSuccessful_ m = false
       /\ conductStateChange_ m = true
       /\ numberOfSuccessfulTargetStateReadings_ m = n
       /\ 0 <= n < minNumberOfSuccessfulTargetStateReadings (configuration_ m))
      \/ (stateChangeSuccessful_ m = true
          /\ conductStateChange_ m = false
          /\ numberOfSuccessfulTargetStateReadings_ m = 0
          /\ minNumberOfSuccessfulTargetStateReadings (configuration_ m) <= n)).

(** ** The helper [binstring] *)

(** [s[i] = c] on a string, for an index within the string. *)
Definition setAt (s : list ascii) (i : nat) (c : ascii) : list ascii :=
  firstn i s ++ c :: skipn (S i) s.

(** The loop of both overloads of [binstring]: the string starts as
    [width] zeros, and position [i] becomes a one when the bit
    [width - 1 - i] of [var] is set.  [var] is the argument after its
    promotion to [int]. *)
Definition binstringLoop (width : nat) (var : Z) : list ascii :=
  fold_left
    (fun s i =>
       if Z.land var (Z.shiftl 1 (Z.of_nat (width - 1 - i))) =? 0
       then s
       else setAt s i "1"%char)
    (seq 0 width) (repeat "0"%char width).

(** [binstring(uint16_t)]. *)
Definition binstring_uint16 (var : Z) : list ascii := binstringLoop 16 var.

(** [binstring(int8_t)]. *)
Definition binstring_int8 (var : Z) : list ascii := binstringLoop 8 var.

(** The number that a string of binary digits denotes, most significant
    digit first. *)
Definition binaryValue (s : list ascii) : Z :=
  fold_left (fun acc c => 2 * acc + if Ascii.eqb c "1"%char then 1 else 0) s 0.

Definition isBinaryDigit (c : ascii) : bool :=
  Ascii.eqb c "0"%char || Ascii.eqb c "1"%char.

(** [f] holds for the [n] integers from [z] on. *)
Fixpoint holdsFrom (n : nat) (z : Z) (f : Z -> bool) : bool :=
  match n with
  | O => true
  | S n' => f z && holdsFrom n' (z + 1) f
  end.

(** ** The edges of the transition tables *)

(** The state a drive reaches by one transition, as the branches of
    [setDriveStateViaSdo] that issue a single transition have it: the
    branch for (requested, current) with the one transition [t] is the edge
    from [current] to [requested]. *)
Definition edge (t : StateTransition) (s : DriveState) : option DriveState :=
  match t, s with
  | _2, SwitchOnDisabled => Some ReadyToSwitchOn
  | _3, ReadyToSwitchOn => Some SwitchedOn
  | _4, SwitchedOn => Some OperationEnabled
  | _5, OperationEnabled => Some SwitchedOn
  | _6, SwitchedOn => Some ReadyToSwitchOn
  | _7, ReadyToSwitchOn => Some SwitchOnDisabled
  | _8, OperationEnabled => Some ReadyToSwitchOn
  | _9, OperationEnabled => Some SwitchOnDisabled
  | _10, SwitchedOn => Some SwitchOnDisabled
  | _11, OperationEnabled => Some QuickStopActive
  | _12, QuickStopActive => Some SwitchOnDisabled
  | _15, Fault => Some SwitchOnDisabled
  | _, _ => None
  end.

(** The state reached by a list of transitions, when each is an edge from
    the state reached so far. *)
Fixpoint follow (ts : list StateTransition) (s : DriveState) : option DriveState :=
  match ts with
  | [] => Some s
  | t :: rest =>
      match edge t s with
      | Some s' => follow rest s'
      | None => None
      end
  end.

(** The transitions that the PDO mapping yields hop by hop, on a drive that
    takes each transition before the next is asked for; at most [hops]
    of them. *)
Fixpoint pdoHops (hops : nat) (requested current : DriveState)
    : list StateTransition :=
  match hops with
  | O => []
  | S hops' =>
      match pdoBranch requested current with
      | PdoTransition t =>
          match edge t current with
          | Some next => t :: pdoHops hops' requested next
          | None => [t]
          end
      | _ => []
      end
  end.

(** ** The bus between two service requests *)

(** The bus master answers the next status-word read with [reply]. *)
Definition answerStatusword (reply : bool * Z) (m : Maxon) : Maxon :=
  let b := bus_ m in
  set_bus {| sdoStatuswordReply := reply;
             sdoWriteReply := sdoWriteReply b;
             sdoWrites := sdoWrites b;
             rxPdoWrites := rxPdoWrites b |} m.

(** [preShutdown] on a bus that answers the status-word read of the second
    request with [second]. *)
Definition preShutdownOn (decodeDriveState : Z -> DriveState)
    (second : bool * Z) (m : Maxon) : Maxon :=
  let m := snd (setDriveStateViaSdo decodeDriveState QuickStopActive m) in
  snd (setDriveStateViaSdo decodeDriveState SwitchOnDisabled
         (answerStatusword second m)).

(** ** Runs that never confirm a target *)

(** An action of the scheduler or of a caller that stages commands, whose
    read, if it is one, does not decode to [target]. *)
Definition neverConfirms (decodeDriveState : Z -> DriveState) (target : DriveState)
    (a : Action) : bool :=
  match a with
  | ActTick _ => true
  | ActUpdateRead txPdo =>
      negb (DriveState_eqb (decodeDriveState (statusword_ txPdo)) target)
  | ActUpdateWrite => true
  | ActStageCommand _ => true
  | ActSetDriveStateViaPdo _ => false
  end.

Definition isUpdateWrite (a : Action) : bool :=
  match a with ActUpdateWrite => true | _ => false end.

Definition isSetDriveStateViaPdo (a : Action) : bool :=
  match a with ActSetDriveStateViaPdo _ => true | _ => false end.

(** The mode of the last command staged in a run, or [mode] when the run
    stages none. *)
Definition lastStagedMode (acts : list Action) (mode : ModeOfOperationEnum)
    : ModeOfOperationEnum :=
  fold_left
    (fun mode a =>
       match a with
       | ActStageCommand command => getModeOfOperation command
       | _ => mode
       end)
    acts mode.

(** The variants whose case in [updateWrite] takes the mode byte from the
    staged command. *)
Definition usesStagedMode (t : RxPdoTypeEnum) : bool :=
  match t with
  | RxPdoCSP | RxPdoCST | RxPdoCSV | RxPdoCSTCSP => true
  | _ => false
  end.

(** ** A drive in the loop *)

(** A drive that follows the tables: it takes the transition of the
    control word it receives when that is an edge from its state, and
    stays in its state otherwise. *)
Definition driveReacts (c : Controlword) (s : DriveState) : DriveState :=
  match c with
  | StateTransitionPreset t =>
      match edge t s with
      | Some s' => s'
      | None => s
      end
  | AllFalse => s
  end.

(** The frame by which a drive reports its state; [encode] gives the
    status word of a state. *)
Definition statusFrame (encode : DriveState -> Z) (s : DriveState) : TxPdo :=
  {| statusword_ := encode s;
     actualTorque_ := 0; actualVelocity_ := 0; actualPosition_ := 0;
     demandVelocity_ := 0 |}.

(** The control words of the frames written to the bus, oldest first. *)
Definition controlWordsOnBus (m : Maxon) : list Controlword :=
  map frameControlWord (rxPdoWrites (bus_ m)).

(** The control word of the frame that was written to the bus last. *)
Definition lastControlWord (m : Maxon) : option Controlword :=
  match rev (rxPdoWrites (bus_ m)) with
  | f :: _ => Some (frameControlWord f)
  | [] => None
  end.

(** One bus cycle with such a drive: after [dt] microseconds the device
    reads the state of the drive and writes; the drive reacts to the control
    word of the last frame on the bus. *)
Definition closedLoopCycle (decodeDriveState : Z -> DriveState)
    (doUnitConversion : Command -> Command) (encode : DriveState -> Z)
    (dt : N) (dm : DriveState * Maxon) : DriveState * Maxon :=
  let m' := runActions decodeDriveState doUnitConversion
              (cycleActions (dt, statusFrame encode (fst dm))) (snd dm) in
  (match lastControlWord m' with
   | Some c => driveReacts c (fst dm)
   | None => fst dm
   end, m').

Fixpoint closedLoop (decodeDriveState : Z -> DriveState)
    (doUnitConversion : Command -> Command) (encode : DriveState -> Z)
    (dt : N) (cycles : nat) (dm : DriveState * Maxon) : DriveState * Maxon :=
  match cycles with
  | O => dm
  | S cycles' =>
      closedLoop decodeDriveState doUnitConversion encode dt cycles'
        (closedLoopCycle decodeDriveState doUnitConversion encode dt dm)
  end.

(** * Properties *)

(** ** Equality tests *)

Lemma DriveState_eqb_eq (a b : DriveState) :
  DriveState_eqb a b = true <-> a = b.
Proof. destruct a, b; simpl; split; congruence. Qed.

Lemma DriveState_eqb_neq (a b : DriveState) :
  DriveState_eqb a b = false <-> a <> b.
Proof. destruct a, b; simpl; split; congruence. Qed.

Lemma DriveState_eqb_refl (a : DriveState) : DriveState_eqb a a = true.
Proof. now destruct a. Qed.

Lemma ModeOfOperationEnum_eqb_eq (a b : ModeOfOperationEnum) :
  ModeOfOperationEnum_eqb a b = true <-> a = b.
Proof. destruct a, b; simpl; split; congruence. Qed.

Lemma ModeOfOperationEnum_eqb_neq (a b : ModeOfOperationEnum) :
  ModeOfOperationEnum_eqb a b = false <-> a <> b.
Proof. destruct a, b; simpl; split; congruence. Qed.

Lemma exampleDecode_statusword (s : DriveState) :
  exampleDecode (exampleStatusword s) = s.
Proof. now destruct s. Qed.

(** ** The transition tables *)

(** The SDO writes leave everything but the bus untouched and append one
    control word per transition. *)
Lemma issueViaSdo_writes (ts : list StateTransition) :
  forall (success : bool) (m : Maxon),
    sdoWrites (bus_ (snd (issueViaSdo ts success m)))
    = sdoWrites (bus_ m) ++ map setStateTransition ts.
Proof.
  induction ts as [|t ts IH]; intros success m; simpl.
  - now rewrite app_nil_r.
  - unfold bind, stateTransitionViaSdo, setControlwordViaSdo.
    rewrite IH. simpl. now rewrite <- app_assoc.
Qed.

Lemma issueViaSdo_reading (ts : list StateTransition) :
  forall (success : bool) (m : Maxon),
    reading_ (snd (issueViaSdo ts success m)) = reading_ m
    /\ log (snd (issueViaSdo ts success m)) = log m.
Proof.
  induction ts as [|t ts IH]; intros success m; simpl.
  - now split.
  - unfold bind, stateTransitionViaSdo, setControlwordViaSdo.
    destruct (IH (success && sdoWriteReply (bus_ m) (setStateTransition t))
                 (set_bus {| sdoStatuswordReply := sdoStatuswordReply (bus_ m);
                             sdoWriteReply := sdoWriteReply (bus_ m);
                             sdoWrites := sdoWrites (bus_ m) ++ [setStateTransition t];
                             rxPdoWrites := rxPdoWrites (bus_ m) |} m)) as [Hr Hl].
    now rewrite Hr, Hl.
Qed.

Lemma issueViaSdo_nil (success : bool) (m : Maxon) :
  issueViaSdo [] success m = (success, m).
Proof. reflexivity. Qed.

Lemma setDriveStateViaSdo_writes (decode : Z -> DriveState)
    (driveState : DriveState) (m : Maxon) :
  sdoWrites (bus_ (snd (setDriveStateViaSdo decode driveState m)))
  = sdoWrites (bus_ m)
    ++ map setStateTransition
         (sdoTransitionList driveState (decode (snd (sdoStatuswordReply (bus_ m))))).
Proof.
  unfold setDriveStateViaSdo, sdoTransitionList, bind, getStatuswordViaSdo.
  destruct (sdoStatuswordReply (bus_ m)) as [ok w]; simpl.
  destruct (sdoTransitions driveState (decode w)) as [ts|].
  - apply issueViaSdo_writes.
  - simpl. now rewrite app_nil_r.
Qed.

(** The PDO mapping yields the first transition of the SDO path. *)
Lemma pdo_head_of_sdo (requested current : DriveState) (m : Maxon) :
  transitionOf (fst (getNextStateTransitionControlword requested current m))
  = hd_error (sdoTransitionList requested current).
Proof. destruct requested, current; reflexivity. Qed.

Lemma pdoTransitionList_spec (requested current : DriveState) (m : Maxon) :
  pdoTransitionList requested current
  = match transitionOf (fst (getNextStateTransitionControlword requested current m)) with
    | Some t => [t]
    | None => []
    end.
Proof. destruct requested, current; reflexivity. Qed.

(** C3, as stated, fails: from [Fault] to [QuickStopActive] the SDO channel
    issues the five transitions 15, 2, 3, 4, 11, and a request for [Fault]
    issues none although the drive is in another state. *)
Lemma C3_counterexample :
  let m := exampleDevice (exampleConfiguration RxPdoStandard TxPdoStandard
                            CyclicSynchronousPositionMode false 1 0) Fault in
  Fault <> QuickStopActive
  /\ sdoWrites (bus_ (snd (setDriveStateViaSdo exampleDecode QuickStopActive m)))
     = map setStateTransition [_15; _2; _3; _4; _11]
  /\ sdoTransitionList QuickStopActive Fault = [_15; _2; _3; _4; _11]
  /\ ~ (1 <= length (sdoTransitionList QuickStopActive Fault) <= 2)%nat
  /\ SwitchOnDisabled <> Fault
  /\ sdoTransitionList Fault SwitchOnDisabled = []
  /\ pdoTransitionList Fault SwitchOnDisabled = [].
Proof.
  cbv zeta. repeat split; try discriminate.
  simpl. lia.
Qed.

(** C3, amended: let [current] be the state decoded from the status word
    that the bus reports.  The SDO channel writes exactly the control words
    of one ordered path, and the PDO channel yields the first transition of
    that path.  For distinct states with a requested state other than
    [Fault] the path has one to five transitions; when the two states are
    equal, or [Fault] is requested, the path is empty. *)
Theorem transition_paths (decodeDriveState : Z -> DriveState)
    (m : Maxon) (requested current : DriveState) :
  decodeDriveState (snd (sdoStatuswordReply (bus_ m))) = current ->
  let path := sdoTransitionList requested current in
  sdoWrites (bus_ (snd (setDriveStateViaSdo decodeDriveState requested m)))
  = sdoWrites (bus_ m) ++ map setStateTransition path
  /\ transitionOf (fst (getNextStateTransitionControlword requested current m))
     = hd_error path
  /\ pdoTransitionList requested current = firstn 1 path
  /\ (current <> requested -> requested <> Fault ->
      (1 <= length path <= 5)%nat)
  /\ (current = requested \/ requested = Fault -> path = []).
Proof.
  intros Hcur path.
  split; [| split; [| split; [| split]]].
  - rewrite setDriveStateViaSdo_writes, Hcur. reflexivity.
  - apply pdo_head_of_sdo.
  - subst path. destruct requested, current; reflexivity.
  - intros Hne Hnf. subst path.
    destruct requested, current; simpl; try lia; congruence.
  - intros [Heq | Hf]; subst path.
    + rewrite Heq. destruct requested; reflexivity.
    + rewrite Hf. reflexivity.
Qed.

Lemma transition_paths_witness :
  let m := exampleDevice (exampleConfiguration RxPdoStandard TxPdoStandard
                            CyclicSynchronousPositionMode false 1 0) QuickStopActive in
  sdoWrites (bus_ (snd (setDriveStateViaSdo exampleDecode OperationEnabled m)))
  = sdoWrites (bus_ m) ++ map setStateTransition [_12; _2; _3; _4]
  /\ transitionOf (fst (getNextStateTransitionControlword OperationEnabled
                          QuickStopActive m)) = Some _12.
Proof.
  cbv zeta.
  pose proof (transition_paths exampleDecode
                (exampleDevice (exampleConfiguration RxPdoStandard TxPdoStandard
                                  CyclicSynchronousPositionMode false 1 0) QuickStopActive)
                OperationEnabled QuickStopActive eq_refl) as H.
  cbv zeta in H. destruct H as (Hw & Hp & _).
  split; [exact Hw | exact Hp].
Defined.

(** ** Requests for the state the drive is already in *)

(** C4, as stated, fails: on the SDO channel a request for the state the
    drive is already in succeeds silently, nothing is added to the errors
    of the reading and nothing is written to the error stream; and a cyclic
    request for that state reports nothing either, because the state
    machine finds the target reached before it would ask for a transition.
    Only a direct call of the PDO mapping with equal states reports. *)
Lemma C4_counterexample :
  let m := exampleDevice (exampleConfiguration RxPdoStandard TxPdoStandard
                            CyclicSynchronousPositionMode false 1 0) SwitchedOn in
  let cyclic := updateWrite exampleDecode
                  (updateRead exampleDecode (exampleTxPdo SwitchedOn)
                     (armStateChange SwitchedOn m)) in
  exampleDecode (snd (sdoStatuswordReply (bus_ m))) = SwitchedOn
  /\ fst (setDriveStateViaSdo exampleDecode SwitchedOn m) = true
  /\ errors (reading_ (snd (setDriveStateViaSdo exampleDecode SwitchedOn m))) = []
  /\ log (snd (setDriveStateViaSdo exampleDecode SwitchedOn m)) = []
  /\ errors (reading_ cyclic) = []
  /\ stateChangeSuccessful_ cyclic = true
  /\ errors (reading_ (snd (getNextStateTransitionControlword SwitchedOn SwitchedOn m)))
     = [PdoStateTransitionError].
Proof. cbv zeta. repeat split. Qed.

(** ** The cyclic write *)

(** The PDO state machine touches neither the bus, nor the configuration,
    the staged command or the active mode. *)
Lemma engagePdoStateMachine_frame (decodeDriveState : Z -> DriveState) (m : Maxon) :
  let m' := engagePdoStateMachine decodeDriveState m in
  bus_ m' = bus_ m
  /\ configuration_ m' = configuration_ m
  /\ stagedCommand_ m' = stagedCommand_ m
  /\ modeOfOperation_ m' = modeOfOperation_ m
  /\ allowModeChange_ m' = allowModeChange_ m
  /\ targetDriveState_ m' = targetDriveState_ m
  /\ clock m' = clock m.
Proof.
  unfold engagePdoStateMachine, getDriveState. cbn.
  destruct (DriveState_eqb _ _); cbn.
  - destruct (_ <=? _); cbn; repeat split.
  - destruct (_ <? _); cbn; [| repeat split].
    unfold getNextStateTransitionControlword.
    destruct (pdoBranch _ _); cbn; repeat split.
Qed.

(** C5: when the active mode of operation is [NA], [updateWrite] adds
    [ModeOfOperationError] to the errors of the reading and does nothing
    else but write the error line: no frame and no service request reaches
    the bus, and the PDO state machine is not entered (its output line is
    absent, and the control word, the flags, the counter and the time point
    of the state change are as before). *)
Theorem updateWrite_mode_NA (decodeDriveState : Z -> DriveState) (m : Maxon) :
  modeOfOperation_ m = NA ->
  let m' := updateWrite decodeDriveState m in
  errors (reading_ m') = errors (reading_ m) ++ [ModeOfOperationError]
  /\ bus_ m' = bus_ m
  /\ log m' = log m ++ [ErrModeOfOperationNotSet]
  /\ countEngaged (log m') = countEngaged (log m)
  /\ controlword_ m' = controlword_ m
  /\ conductStateChange_ m' = conductStateChange_ m
  /\ hasRead_ m' = hasRead_ m
  /\ stateChangeSuccessful_ m' = stateChangeSuccessful_ m
  /\ numberOfSuccessfulTargetStateReadings_ m'
     = numberOfSuccessfulTargetStateReadings_ m
  /\ driveStateChangeTimePoint_ m' = driveStateChangeTimePoint_ m.
Proof.
  intros Hna. unfold updateWrite. rewrite Hna. cbn.
  repeat split.
  unfold countEngaged. rewrite filter_app, length_app. cbn. lia.
Qed.

Lemma updateWrite_mode_NA_witness :
  let m := armStateChange OperationEnabled
             (exampleDevice (exampleConfiguration RxPdoStandard TxPdoStandard
                               NA true 1 0) SwitchOnDisabled) in
  let m' := updateWrite exampleDecode
              (updateRead exampleDecode (exampleTxPdo SwitchOnDisabled) m) in
  errors (reading_ m') = [ModeOfOperationError]
  /\ rxPdoWrites (bus_ m') = []
  /\ countEngaged (log m') = 0%nat.
Proof.
  cbv zeta.
  pose proof (updateWrite_mode_NA exampleDecode
                (updateRead exampleDecode (exampleTxPdo SwitchOnDisabled)
                   (armStateChange OperationEnabled
                      (exampleDevice (exampleConfiguration RxPdoStandard TxPdoStandard
                                        NA true 1 0) SwitchOnDisabled)))
                eq_refl) as H.
  cbv zeta in H. destruct H as (He & Hb & _ & Hc & _).
  split; [exact He | split].
  - rewrite Hb. reflexivity.
  - rewrite Hc. reflexivity.
Defined.

(** C7, as stated, fails for the profile-velocity variant: its frame
    carries the control word, the target velocity, the profile acceleration
    and deceleration and the motion profile type, and no mode of
    operation. *)
Lemma C7_counterexample :
  let m := exampleDevice (exampleConfiguration RxPdoPVM TxPdoPVM
                            ProfiledVelocityMode false 1 0) OperationEnabled in
  rxPdoWrites (bus_ (updateWrite exampleDecode m)) = [FramePVM AllFalse 100 10 10 0]
  /\ frameModeOfOperation (FramePVM AllFalse 100 10 10 0) = None.
Proof. cbv zeta. split; reflexivity. Qed.

(** C7, amended: with a resolved mode and a supported variant,
    [updateWrite] emits exactly one frame.  It carries the control word of
    the device (as the PDO state machine left it in this call).  It carries
    a mode-of-operation byte in every variant but the profile-velocity one:
    the active mode in the standard variant, the mode of the staged command
    in the others. *)
Theorem updateWrite_frame (decodeDriveState : Z -> DriveState) (m : Maxon) :
  modeOfOperation_ m <> NA ->
  rxPdoTypeEnum (configuration_ m) <> RxPdoNA ->
  let m' := updateWrite decodeDriveState m in
  exists f : RxPdo,
    rxPdoWrites (bus_ m') = rxPdoWrites (bus_ m) ++ [f]
    /\ sdoWrites (bus_ m') = sdoWrites (bus_ m)
    /\ frameControlWord f = controlword_ m'
    /\ frameModeOfOperation f
       = match rxPdoTypeEnum (configuration_ m) with
         | RxPdoPVM => None
         | RxPdoStandard => Some (modeOfOperation_ m)
         | _ => Some (getModeOfOperation (stagedCommand_ m))
         end.
Proof.
  intros Hmode Hrx m'. subst m'. unfold updateWrite.
  apply ModeOfOperationEnum_eqb_neq in Hmode. rewrite Hmode.
  set (m1 := if conductStateChange_ m && hasRead_ m
             then engagePdoStateMachine decodeDriveState m else m).
  assert (Hframe : bus_ m1 = bus_ m /\ configuration_ m1 = configuration_ m
                   /\ stagedCommand_ m1 = stagedCommand_ m
                   /\ modeOfOperation_ m1 = modeOfOperation_ m).
  { subst m1. destruct (conductStateChange_ m && hasRead_ m).
    - pose proof (engagePdoStateMachine_frame decodeDriveState m) as H.
      cbv zeta in H. tauto.
    - tauto. }
  destruct Hframe as (Hb & Hc & Hs & Hm).
  unfold buildRxPdo. rewrite Hc, Hs, Hm.
  destruct (rxPdoTypeEnum (configuration_ m)); try congruence;
    eexists; cbn; rewrite Hb; repeat split.
Qed.

Lemma updateWrite_frame_witness :
  let m := exampleDevice (exampleConfiguration RxPdoCSV TxPdoCSV
                            CyclicSynchronousVelocityMode false 1 0) OperationEnabled in
  exists f : RxPdo,
    rxPdoWrites (bus_ (updateWrite exampleDecode m)) = [f]
    /\ frameModeOfOperation f = Some CyclicSynchronousVelocityMode.
Proof.
  cbv zeta.
  destruct (updateWrite_frame exampleDecode
              (exampleDevice (exampleConfiguration RxPdoCSV TxPdoCSV
                                CyclicSynchronousVelocityMode false 1 0) OperationEnabled))
    as (f & Hw & _ & _ & Hm).
  - discriminate.
  - discriminate.
  - exists f. split; [exact Hw | exact Hm].
Defined.

(** ** Command staging and the mode of operation *)

(** [loadConfiguration] allows mode changes only with several modes
    enabled and the standard frame variant in both directions. *)
Lemma loadConfiguration_allowModeChange (configuration : Configuration) (m : Maxon) :
  allowModeChange_ (snd (loadConfiguration configuration m))
  = useMultipleModeOfOperations configuration
    && isRxPdoStandard (rxPdoTypeEnum configuration)
    && isTxPdoStandard (txPdoTypeEnum configuration)
  /\ modeOfOperation_ (snd (loadConfiguration configuration m))
     = modeOfOperationEnum configuration.
Proof. split; reflexivity. Qed.

(** C2: with mode changes disallowed, staging a command whose mode differs
    from the active one and is not [NA] writes the error line and keeps the
    active mode; with mode changes allowed, the active mode becomes the mode
    of the staged command. *)
Theorem stageCommand_mode_policy (doUnitConversion : Command -> Command)
    (command : Command) (m : Maxon) :
  let m' := stageCommand doUnitConversion command m in
  (allowModeChange_ m = false ->
   getModeOfOperation command <> modeOfOperation_ m ->
   getModeOfOperation command <> NA ->
   modeOfOperation_ m' = modeOfOperation_ m
   /\ log m' = log m ++ [ErrModeChangeNotAllowed])
  /\ (allowModeChange_ m = true ->
      modeOfOperation_ m' = getModeOfOperation command).
Proof.
  cbv zeta. unfold stageCommand. cbn. split.
  - intros Hallow Hdiff Hna. rewrite Hallow.
    assert (H1 : ModeOfOperationEnum_eqb (modeOfOperation_ m)
                   (getModeOfOperation command) = false)
      by (apply ModeOfOperationEnum_eqb_neq; congruence).
    assert (H2 : ModeOfOperationEnum_eqb (getModeOfOperation command) NA = false)
      by (now apply ModeOfOperationEnum_eqb_neq).
    rewrite H1, H2. cbn. split; reflexivity.
  - intros Hallow. rewrite Hallow. reflexivity.
Qed.

Lemma stageCommand_mode_policy_witness :
  let fixed := snd (loadConfiguration
                      (exampleConfiguration RxPdoCSP TxPdoCSP
                         CyclicSynchronousPositionMode true 1 0)
                      (exampleDevice (exampleConfiguration RxPdoCSP TxPdoCSP
                                        NA false 1 0) SwitchOnDisabled)) in
  let multi := snd (loadConfiguration
                      (exampleConfiguration RxPdoStandard TxPdoStandard
                         CyclicSynchronousPositionMode true 1 0)
                      (exampleDevice (exampleConfiguration RxPdoCSP TxPdoCSP
                                        NA false 1 0) SwitchOnDisabled)) in
  let command := exampleCommand CyclicSynchronousTorqueMode in
  (modeOfOperation_ (stageCommand exampleConversion command fixed)
   = CyclicSynchronousPositionMode
   /\ log (stageCommand exampleConversion command fixed) = [ErrModeChangeNotAllowed])
  /\ modeOfOperation_ (stageCommand exampleConversion command multi)
     = CyclicSynchronousTorqueMode.
Proof.
  cbv zeta. split.
  - apply (stageCommand_mode_policy exampleConversion
             (exampleCommand CyclicSynchronousTorqueMode)
             (snd (loadConfiguration
                     (exampleConfiguration RxPdoCSP TxPdoCSP
                        CyclicSynchronousPositionMode true 1 0)
                     (exampleDevice (exampleConfiguration RxPdoCSP TxPdoCSP
                                       NA false 1 0) SwitchOnDisabled)))).
    + reflexivity.
    + discriminate.
    + discriminate.
  - apply (stageCommand_mode_policy exampleConversion
             (exampleCommand CyclicSynchronousTorqueMode)
             (snd (loadConfiguration
                     (exampleConfiguration RxPdoStandard TxPdoStandard
                        CyclicSynchronousPositionMode true 1 0)
                     (exampleDevice (exampleConfiguration RxPdoCSP TxPdoCSP
                                       NA false 1 0) SwitchOnDisabled)))).
    reflexivity.
Defined.

(** ** The asynchronous state request *)

(** C9: without waiting, [setDriveStateViaPdo] returns [true] for every
    target state, whatever the other threads would do.  The device it
    leaves has the pending flag set, the target recorded, the success flag
    and the fresh-read flag cleared and the time point of the change set to
    the current time; no transition has been applied: the control word, the
    bus, the reading and the counter are as before. *)
Theorem setDriveStateViaPdo_no_wait (decodeDriveState : Z -> DriveState)
    (doUnitConversion : Command -> Command)
    (driveState : DriveState) (sleeps : list (list Action)) (m : Maxon) :
  exists m' : Maxon,
    setDriveStateViaPdo decodeDriveState doUnitConversion driveState false sleeps m
    = Some (true, m')
    /\ conductStateChange_ m' = true
    /\ targetDriveState_ m' = driveState
    /\ stateChangeSuccessful_ m' = false
    /\ hasRead_ m' = false
    /\ driveStateChangeTimePoint_ m' = now m
    /\ controlword_ m' = controlword_ m
    /\ bus_ m' = bus_ m
    /\ reading_ m' = reading_ m
    /\ log m' = log m
    /\ clock m' = clock m
    /\ numberOfSuccessfulTargetStateReadings_ m'
       = numberOfSuccessfulTargetStateReadings_ m.
Proof.
  exists (armStateChange driveState m).
  unfold setDriveStateViaPdo. cbn. repeat split.
Qed.

(** ** One evaluation of the state machine per read *)

Lemma countEngaged_snoc (l : list LogEvent) (e : LogEvent) :
  countEngaged (l ++ [e])
  = (countEngaged l + if isOutEngaged e then 1 else 0)%nat.
Proof.
  unfold countEngaged. rewrite filter_app, length_app. cbn.
  destruct (isOutEngaged e); reflexivity.
Qed.

Lemma getNextStateTransitionControlword_frame (requested current : DriveState)
    (m : Maxon) :
  let m' := snd (getNextStateTransitionControlword requested current m) in
  countEngaged (log m') = countEngaged (log m)
  /\ conductStateChange_ m' = conductStateChange_ m
  /\ hasRead_ m' = hasRead_ m
  /\ stateChangeSuccessful_ m' = stateChangeSuccessful_ m
  /\ numberOfSuccessfulTargetStateReadings_ m'
     = numberOfSuccessfulTargetStateReadings_ m.
Proof.
  unfold getNextStateTransitionControlword.
  destruct (pdoBranch requested current); cbn;
    rewrite ?countEngaged_snoc; cbn; repeat split; lia || reflexivity.
Qed.

(** What one call of the PDO state machine does to the lifecycle flags:
    either the call completes the change (the early return, which leaves
    the fresh-read flag as it is), or it clears the fresh-read flag and
    leaves the pending flag and the success flag as they are. *)
Lemma engagePdoStateMachine_flags (decodeDriveState : Z -> DriveState) (m : Maxon) :
  let m' := engagePdoStateMachine decodeDriveState m in
  countEngaged (log m') = S (countEngaged (log m))
  /\ ((conductStateChange_ m' = false
       /\ stateChangeSuccessful_ m' = true
       /\ numberOfSuccessfulTargetStateReadings_ m' = 0
       /\ hasRead_ m' = hasRead_ m)
      \/ (hasRead_ m' = false
          /\ conductStateChange_ m' = conductStateChange_ m
          /\ stateChangeSuccessful_ m' = stateChangeSuccessful_ m)).
Proof.
  unfold engagePdoStateMachine, getDriveState. cbn.
  destruct (DriveState_eqb _ _); cbn.
  - destruct (_ <=? _); cbn; rewrite !countEngaged_snoc; cbn;
      (split; [lia | tauto]).
  - destruct (_ <? _); cbn.
    + pose proof (getNextStateTransitionControlword_frame
                    (targetDriveState_ m) (decodeDriveState (statusword (reading_ m)))
                    (emit (OutCurrentDriveState
                             (decodeDriveState (statusword (reading_ m))))
                       (emit (OutConductStateChange (conductStateChange_ m))
                          (emit OutEngaged m)))) as H.
      cbv zeta in H.
      destruct (getNextStateTransitionControlword _ _ _) as [cw m1].
      cbn in *. destruct H as (Hc & Hp & _ & Hs & _).
      rewrite Hc, Hp, Hs, !countEngaged_snoc. cbn. split; [lia | tauto].
    + rewrite !countEngaged_snoc; cbn. split; [lia | tauto].
Qed.

(** [updateWrite] enters the state machine exactly when the mode is
    resolved and both flags are set. *)
Lemma updateWrite_engages (decodeDriveState : Z -> DriveState) (m : Maxon) :
  let m' := updateWrite decodeDriveState m in
  countEngaged (log m')
  = (countEngaged (log m) + if engages m then 1 else 0)%nat
  /\ (engages m = true -> conductStateChange_ m' && hasRead_ m' = false)
  /\ (engages m = false ->
      conductStateChange_ m' = conductStateChange_ m
      /\ hasRead_ m' = hasRead_ m).
Proof.
  unfold updateWrite, engages.
  destruct (ModeOfOperationEnum_eqb (modeOfOperation_ m) NA); cbn.
  - rewrite countEngaged_snoc. cbn. repeat split; try lia; discriminate.
  - destruct (conductStateChange_ m && hasRead_ m) eqn:Hflags.
    + pose proof (engagePdoStateMachine_flags decodeDriveState m) as H.
      cbv zeta in H. destruct H as (Hc & Hf).
      set (m1 := engagePdoStateMachine decodeDriveState m) in *.
      assert (Hflags1 : conductStateChange_ m1 && hasRead_ m1 = false).
      { destruct Hf as [(H1 & _) | (H1 & _)]; rewrite H1;
          [reflexivity | apply andb_false_r]. }
      destruct (buildRxPdo m1); cbn; rewrite ?countEngaged_snoc; cbn;
        (split; [lia | split; [intros _; exact Hflags1 | discriminate]]).
    + destruct (buildRxPdo m); cbn; rewrite ?countEngaged_snoc; cbn;
        (split; [lia | split; [discriminate | intros _; split; reflexivity]]).
Qed.

(** Staging a command touches neither the lifecycle flags nor the bus. *)
Lemma stageCommand_frame (doUnitConversion : Command -> Command)
    (command : Command) (m : Maxon) :
  let m' := stageCommand doUnitConversion command m in
  conductStateChange_ m' = conductStateChange_ m
  /\ hasRead_ m' = hasRead_ m
  /\ stateChangeSuccessful_ m' = stateChangeSuccessful_ m
  /\ countEngaged (log m') = countEngaged (log m)
  /\ configuration_ m' = configuration_ m
  /\ clock m' = clock m.
Proof.
  unfold stageCommand. cbn.
  destruct (allowModeChange_ m); cbn; [repeat split |].
  destruct (negb _ && negb _); cbn; rewrite ?countEngaged_snoc; cbn;
    repeat split; lia.
Qed.

(** Only [updateRead] sets the fresh-read flag: every other action leaves
    it clear when it was clear. *)
Lemma hasRead_only_by_updateRead (decodeDriveState : Z -> DriveState)
    (doUnitConversion : Command -> Command) (a : Action) (m : Maxon) :
  isUpdateRead a = false ->
  hasRead_ m = false ->
  hasRead_ (runAction decodeDriveState doUnitConversion a m) = false.
Proof.
  intros Ha Hr. destruct a as [d | f | | c | s]; cbn in *; try discriminate.
  - exact Hr.
  - pose proof (updateWrite_engages decodeDriveState m) as H. cbv zeta in H.
    destruct H as (_ & _ & H).
    assert (He : engages m = false).
    { unfold engages. rewrite Hr, andb_false_r, andb_false_r. reflexivity. }
    destruct (H He) as (_ & H2). now rewrite H2.
  - pose proof (stageCommand_frame doUnitConversion c m) as H. cbv zeta in H.
    destruct H as (_ & H & _). now rewrite H.
  - reflexivity.
Qed.

(** While no read happens, the state machine stays idle once the two flags
    are not both set. *)
Lemma idle_until_read (decodeDriveState : Z -> DriveState)
    (doUnitConversion : Command -> Command) (acts : list Action) :
  forall m : Maxon,
    forallb (fun a => negb (isUpdateRead a)) acts = true ->
    conductStateChange_ m && hasRead_ m = false ->
    let m' := runActions decodeDriveState doUnitConversion acts m in
    countEngaged (log m') = countEngaged (log m)
    /\ conductStateChange_ m' && hasRead_ m' = false.
Proof.
  induction acts as [|a acts IH]; intros m Hacts Hidle; cbn.
  - split; [reflexivity | exact Hidle].
  - cbn in Hacts. apply andb_true_iff in Hacts. destruct Hacts as [Ha Hacts].
    apply negb_true_iff in Ha.
    assert (Hstep :
              countEngaged (log (runAction decodeDriveState doUnitConversion a m))
              = countEngaged (log m)
              /\ conductStateChange_ (runAction decodeDriveState doUnitConversion a m)
                 && hasRead_ (runAction decodeDriveState doUnitConversion a m) = false).
    { destruct a as [d | f | | c | s]; cbn in *; try discriminate.
      - split; [reflexivity | exact Hidle].
      - pose proof (updateWrite_engages decodeDriveState m) as H. cbv zeta in H.
        assert (He : engages m = false).
        { unfold engages. rewrite Hidle. apply andb_false_r. }
        destruct H as (Hc & _ & H). destruct (H He) as (H1 & H2).
        rewrite Hc, He, H1, H2. split; [lia | exact Hidle].
      - pose proof (stageCommand_frame doUnitConversion c m) as H. cbv zeta in H.
        destruct H as (H1 & H2 & _ & H4 & _).
        rewrite H1, H2, H4. split; [reflexivity | exact Hidle].
      - split; reflexivity. }
    destruct Hstep as (Hc & Hi).
    destruct (IH _ Hacts Hi) as (Hc' & Hi').
    unfold runActions in *. cbv zeta in *. rewrite Hc', Hc. split; [reflexivity | exact Hi'].
Qed.

(** C10, as stated, fails: the call of the PDO state machine that completes
    the change returns early and leaves the fresh-read flag set. *)
Lemma C10_counterexample :
  let m := updateRead exampleDecode (exampleTxPdo OperationEnabled)
             (armStateChange OperationEnabled
                (exampleDevice (exampleConfiguration RxPdoStandard TxPdoStandard
                                  CyclicSynchronousPositionMode true 1 0) SwitchedOn)) in
  conductStateChange_ m = true
  /\ hasRead_ m = true
  /\ hasRead_ (engagePdoStateMachine exampleDecode m) = true
  /\ stateChangeSuccessful_ (engagePdoStateMachine exampleDecode m) = true
  /\ conductStateChange_ (engagePdoStateMachine exampleDecode m) = false.
Proof. cbv zeta. repeat split. Qed.

(** C10, amended: a call of the PDO state machine either clears the
    fresh-read flag, or it completes the change, in which case it clears
    the pending flag and leaves the fresh-read flag as it is.  [updateWrite]
    enters the state machine exactly when the mode is resolved and both
    flags are set.  No action but [updateRead] sets the fresh-read flag
    (a new request clears it).  Therefore, after a write that evaluated the
    state machine, no further evaluation happens until a read completes. *)
Theorem lifecycle_once_per_read (decodeDriveState : Z -> DriveState)
    (doUnitConversion : Command -> Command) :
  (forall m : Maxon,
      let e := engagePdoStateMachine decodeDriveState m in
      (hasRead_ e = false /\ conductStateChange_ e = conductStateChange_ m)
      \/ (conductStateChange_ e = false /\ stateChangeSuccessful_ e = true
          /\ hasRead_ e = hasRead_ m))
  /\ (forall m : Maxon,
         countEngaged (log (updateWrite decodeDriveState m))
         = (countEngaged (log m)
            + if negb (ModeOfOperationEnum_eqb (modeOfOperation_ m) NA)
                 && (conductStateChange_ m && hasRead_ m)
              then 1 else 0)%nat)
  /\ (forall (a : Action) (m : Maxon),
         isUpdateRead a = false ->
         hasRead_ m = false ->
         hasRead_ (runAction decodeDriveState doUnitConversion a m) = false)
  /\ (forall (m : Maxon) (acts : list Action),
         engages m = true ->
         forallb (fun a => negb (isUpdateRead a)) acts = true ->
         let w := updateWrite decodeDriveState m in
         let m' := runActions decodeDriveState doUnitConversion acts w in
         countEngaged (log w) = S (countEngaged (log m))
         /\ countEngaged (log m') = countEngaged (log w)
         /\ engages m' = false).
Proof.
  split; [| split; [| split]].
  - intros m e.
    destruct (engagePdoStateMachine_flags decodeDriveState m)
      as (_ & [(H1 & H2 & _ & H4) | (H1 & H2 & _)]).
    + right. subst e. tauto.
    + left. subst e. tauto.
  - intros m.
    destruct (updateWrite_engages decodeDriveState m) as (H & _). exact H.
  - apply hasRead_only_by_updateRead.
  - intros m acts He Hacts w m'.
    destruct (updateWrite_engages decodeDriveState m) as (Hc & Hi & _).
    fold w in Hc, Hi. rewrite He in Hc. specialize (Hi He).
    destruct (idle_until_read decodeDriveState doUnitConversion acts w Hacts Hi)
      as (Hc' & Hi').
    fold m' in Hc', Hi'.
    split; [lia | split; [exact Hc' |]].
    unfold engages. rewrite Hi'. apply andb_false_r.
Qed.

Lemma lifecycle_once_per_read_witness :
  let m := updateRead exampleDecode (exampleTxPdo SwitchOnDisabled)
             (armStateChange OperationEnabled
                (exampleDevice (exampleConfiguration RxPdoStandard TxPdoStandard
                                  CyclicSynchronousPositionMode true 1 0)
                   SwitchOnDisabled)) in
  let w := updateWrite exampleDecode m in
  let m' := runActions exampleDecode exampleConversion
              [ActTick 2000; ActUpdateWrite; ActUpdateWrite] w in
  countEngaged (log w) = 1%nat
  /\ countEngaged (log m') = 1%nat.
Proof.
  cbv zeta.
  destruct (lifecycle_once_per_read exampleDecode exampleConversion)
    as (_ & _ & _ & H).
  destruct (H (updateRead exampleDecode (exampleTxPdo SwitchOnDisabled)
                 (armStateChange OperationEnabled
                    (exampleDevice (exampleConfiguration RxPdoStandard TxPdoStandard
                                      CyclicSynchronousPositionMode true 1 0)
                       SwitchOnDisabled)))
              [ActTick 2000; ActUpdateWrite; ActUpdateWrite]
              eq_refl eq_refl) as (H1 & H2 & _).
  split; [exact H1 | rewrite H2; exact H1].
Defined.

(** ** Completion of an asynchronous request *)

(** The lifecycle flags and the counter after one call of the PDO state
    machine. *)
Lemma engagePdoStateMachine_lifecycle (decodeDriveState : Z -> DriveState) (m : Maxon) :
  let e := engagePdoStateMachine decodeDriveState m in
  let n := numberOfSuccessfulTargetStateReadings_ m in
  if DriveState_eqb (decodeDriveState (statusword (reading_ m))) (targetDriveState_ m)
  then
    if minNumberOfSuccessfulTargetStateReadings (configuration_ m) <=? n + 1
    then stateChangeSuccessful_ e = true
         /\ conductStateChange_ e = false
         /\ numberOfSuccessfulTargetStateReadings_ e = 0
    else stateChangeSuccessful_ e = stateChangeSuccessful_ m
         /\ conductStateChange_ e = conductStateChange_ m
         /\ numberOfSuccessfulTargetStateReadings_ e = n + 1
  else stateChangeSuccessful_ e = stateChangeSuccessful_ m
       /\ conductStateChange_ e = conductStateChange_ m
       /\ numberOfSuccessfulTargetStateReadings_ e = n.
Proof.
  unfold engagePdoStateMachine, getDriveState. cbn.
  destruct (DriveState_eqb _ _); cbn.
  - destruct (_ <=? _); cbn; repeat split.
  - destruct (_ <? _); cbn; [| repeat split].
    pose proof (getNextStateTransitionControlword_frame
                  (targetDriveState_ m) (decodeDriveState (statusword (reading_ m)))
                  (emit (OutCurrentDriveState
                           (decodeDriveState (statusword (reading_ m))))
                     (emit (OutConductStateChange (conductStateChange_ m))
                        (emit OutEngaged m)))) as H.
    cbv zeta in H.
    destruct (getNextStateTransitionControlword _ _ _) as [cw m1].
    cbn in *. destruct H as (_ & Hp & _ & Hs & Hn).
    rewrite Hp, Hs, Hn. repeat split.
Qed.

(** After the state machine has run (or not), the rest of [updateWrite]
    changes neither the lifecycle flags nor the counter. *)
Lemma updateWrite_lifecycle (decodeDriveState : Z -> DriveState) (m : Maxon) :
  modeOfOperation_ m <> NA ->
  let w := updateWrite decodeDriveState m in
  let x := if conductStateChange_ m && hasRead_ m
           then engagePdoStateMachine decodeDriveState m else m in
  stateChangeSuccessful_ w = stateChangeSuccessful_ x
  /\ conductStateChange_ w = conductStateChange_ x
  /\ numberOfSuccessfulTargetStateReadings_ w
     = numberOfSuccessfulTargetStateReadings_ x
  /\ configuration_ w = configuration_ m
  /\ targetDriveState_ w = targetDriveState_ m
  /\ modeOfOperation_ w = modeOfOperation_ m.
Proof.
  intros Hmode. unfold updateWrite.
  apply ModeOfOperationEnum_eqb_neq in Hmode. rewrite Hmode.
  set (x := if conductStateChange_ m && hasRead_ m
            then engagePdoStateMachine decodeDriveState m else m).
  assert (Hx : configuration_ x = configuration_ m
               /\ targetDriveState_ x = targetDriveState_ m
               /\ modeOfOperation_ x = modeOfOperation_ m).
  { subst x. destruct (conductStateChange_ m && hasRead_ m); [| tauto].
    pose proof (engagePdoStateMachine_frame decodeDriveState m) as H.
    cbv zeta in H. tauto. }
  destruct Hx as (Hc & Ht & Hm).
  cbv zeta. destruct (buildRxPdo x); cbn; rewrite Hc, Ht, Hm; repeat split.
Qed.

(** [updateRead] sets the fresh-read flag; with a supported variant it
    stores the status word of the frame. *)
Lemma updateRead_lifecycle (decodeDriveState : Z -> DriveState)
    (txPdo : TxPdo) (m : Maxon) :
  let r := updateRead decodeDriveState txPdo m in
  hasRead_ r = true
  /\ stateChangeSuccessful_ r = stateChangeSuccessful_ m
  /\ conductStateChange_ r = conductStateChange_ m
  /\ numberOfSuccessfulTargetStateReadings_ r
     = numberOfSuccessfulTargetStateReadings_ m
  /\ configuration_ r = configuration_ m
  /\ targetDriveState_ r = targetDriveState_ m
  /\ modeOfOperation_ r = modeOfOperation_ m
  /\ (txPdoTypeEnum (configuration_ m) <> TxPdoNA ->
      statusword (reading_ r) = statusword_ txPdo).
Proof.
  unfold updateRead, getDriveState. cbn.
  destruct (txPdoTypeEnum (configuration_ m)); cbn;
    destruct (hasRead_ m) eqn:Hr; cbn;
    destruct (DriveState_eqb _ Fault); cbn;
    repeat split; intros; reflexivity || congruence.
Qed.

(** One bus cycle advances the lifecycle by the confirmation of its read. *)
Lemma cycle_lifecycle (decodeDriveState : Z -> DriveState)
    (doUnitConversion : Command -> Command)
    (target : DriveState) (n : Z) (c : N * TxPdo) (m : Maxon) :
  lifecycleAfter target n m ->
  lifecycleAfter target
    (n + if confirms decodeDriveState target c then 1 else 0)
    (runActions decodeDriveState doUnitConversion (cycleActions c) m)
  /\ configuration_ (runActions decodeDriveState doUnitConversion (cycleActions c) m)
     = configuration_ m.
Proof.
  intros (Hmode & Htx & Htarget & Hlife).
  unfold cycleActions, runActions. cbn [fold_left runAction].
  set (t := set_clock (clock m + Z.of_N (fst c)) m).
  pose proof (updateRead_lifecycle decodeDriveState (snd c) t) as Hr.
  cbv zeta in Hr.
  set (r := updateRead decodeDriveState (snd c) t) in *.
  destruct Hr as (Hread & Hrs & Hrc & Hrn & Hrcfg & Hrt & Hrm & Hrw).
  cbn in Hrs, Hrc, Hrn, Hrcfg, Hrt, Hrm, Hrw.
  specialize (Hrw Htx).
  assert (Hmode_r : modeOfOperation_ r <> NA) by (rewrite Hrm; exact Hmode).
  pose proof (updateWrite_lifecycle decodeDriveState r Hmode_r) as Hw.
  cbv zeta in Hw.
  set (w := updateWrite decodeDriveState r) in *.
  destruct Hw as (Hws & Hwc & Hwn & Hwcfg & Hwt & Hwm).
  pose proof (engagePdoStateMachine_lifecycle decodeDriveState r) as He.
  cbv zeta in He.
  rewrite Hrw, Hrt, Htarget, Hrcfg, Hrn, Hrs, Hrc in He.
  fold (confirms decodeDriveState target c) in He.
  assert (Hcfg : configuration_ w = configuration_ m) by congruence.
  split; [| exact Hcfg].
  unfold lifecycleAfter. rewrite Hcfg.
  split; [congruence |]. split; [exact Htx |]. split; [congruence |].
  rewrite Hws, Hwc, Hwn, Hread, Hrc.
  destruct Hlife as [(Hs & Hc & Hn & Hlt) | (Hs & Hc & Hn & Hge)].
  - rewrite Hc in *. cbn [andb] in *. rewrite Hs, Hn in He.
    destruct (confirms decodeDriveState target c).
    + destruct (Z.leb_spec
                  (minNumberOfSuccessfulTargetStateReadings (configuration_ m)) (n + 1))
        as [Hle | Hgt];
        destruct He as (He1 & He2 & He3); rewrite He1, He2, He3.
      * right. repeat split; lia.
      * left. repeat split; lia.
    + destruct He as (He1 & He2 & He3). rewrite He1, He2, He3.
      left. repeat split; lia.
  - rewrite Hc. cbn [andb]. rewrite Hrs, Hrc, Hrn, Hs, Hc, Hn.
    right. repeat split; try reflexivity.
    destruct (confirms decodeDriveState target c); lia.
Qed.

Lemma confirming_cons (decodeDriveState : Z -> DriveState) (target : DriveState)
    (c : N * TxPdo) (cycles : list (N * TxPdo)) :
  confirming decodeDriveState target (c :: cycles)
  = (if confirms decodeDriveState target c then 1 else 0)
    + confirming decodeDriveState target cycles.
Proof.
  unfold confirming. cbn [filter].
  destruct (confirms decodeDriveState target c); cbn [length]; lia.
Qed.

Lemma runCycles_lifecycle (decodeDriveState : Z -> DriveState)
    (doUnitConversion : Command -> Command)
    (target : DriveState) (cycles : list (N * TxPdo)) :
  forall (n : Z) (m : Maxon),
    lifecycleAfter target n m ->
    lifecycleAfter target (n + confirming decodeDriveState target cycles)
      (runCycles decodeDriveState doUnitConversion cycles m)
    /\ configuration_ (runCycles decodeDriveState doUnitConversion cycles m)
       = configuration_ m.
Proof.
  induction cycles as [|c cycles IH]; intros n m Hm.
  - unfold confirming. cbn. rewrite Z.add_0_r. split; [exact Hm | reflexivity].
  - destruct (cycle_lifecycle decodeDriveState doUnitConversion target n c m Hm)
      as (Hstep & Hcfg).
    destruct (IH _ _ Hstep) as (Hrest & Hcfg').
    rewrite confirming_cons, Z.add_assoc.
    unfold runCycles in *. cbn [fold_left].
    split; [exact Hrest | congruence].
Qed.

(** C1, as stated, fails: with a minimum of two confirming reads, a request
    for [OperationEnabled] completes in the third cycle of the reads
    [OperationEnabled], [SwitchedOn], [OperationEnabled], although only one
    confirming read precedes the completion without interruption: the
    counter is not reset by the read in between. *)
Lemma C1_counterexample :
  let m := armStateChange OperationEnabled
             (exampleDevice (exampleConfiguration RxPdoStandard TxPdoStandard
                               CyclicSynchronousPositionMode true 2 1000000)
                SwitchedOn) in
  let cycles := [(1000%N, exampleTxPdo OperationEnabled);
                 (1000%N, exampleTxPdo SwitchedOn);
                 (1000%N, exampleTxPdo OperationEnabled)] in
  numberOfSuccessfulTargetStateReadings_ m = 0
  /\ stateChangeSuccessful_
       (runCycles exampleDecode exampleConversion (firstn 2 cycles) m) = false
  /\ stateChangeSuccessful_
       (runCycles exampleDecode exampleConversion cycles m) = true
  /\ consecutiveConfirming exampleDecode OperationEnabled cycles = 1
  /\ minNumberOfSuccessfulTargetStateReadings (configuration_ m) = 2.
Proof. cbv zeta. repeat split. Qed.

(** C1, amended: take a pending request whose confirmation counter is zero,
    with a resolved mode, a supported read variant and a configured minimum
    of at least one.  Each cycle's evaluation compares the state decoded
    from the fresh read with the target and counts the read when they are
    equal.  After any run of cycles the change is complete exactly when the
    number of confirming reads so far, consecutive or not, has reached the
    minimum.  On completion the success flag is set and the pending flag
    and the counter are cleared; before it the request stays pending and
    the counter is the number of confirming reads. *)
Theorem completion_after_min_confirming_reads
    (decodeDriveState : Z -> DriveState) (doUnitConversion : Command -> Command)
    (m : Maxon) (cycles : list (N * TxPdo)) :
  modeOfOperation_ m <> NA ->
  txPdoTypeEnum (configuration_ m) <> TxPdoNA ->
  conductStateChange_ m = true ->
  stateChangeSuccessful_ m = false ->
  numberOfSuccessfulTargetStateReadings_ m = 0 ->
  1 <= minNumberOfSuccessfulTargetStateReadings (configuration_ m) ->
  let m' := runCycles decodeDriveState doUnitConversion cycles m in
  let n := confirming decodeDriveState (targetDriveState_ m) cycles in
  (stateChangeSuccessful_ m' = true
   <-> minNumberOfSuccessfulTargetStateReadings (configuration_ m) <= n)
  /\ (stateChangeSuccessful_ m' = true ->
      conductStateChange_ m' = false
      /\ numberOfSuccessfulTargetStateReadings_ m' = 0)
  /\ (stateChangeSuccessful_ m' = false ->
      conductStateChange_ m' = true
      /\ numberOfSuccessfulTargetStateReadings_ m' = n).
Proof.
  intros Hmode Htx Hc Hs Hn Hmin m' n.
  assert (H0 : lifecycleAfter (targetDriveState_ m) 0 m).
  { unfold lifecycleAfter. repeat split; try assumption. left.
    repeat split; try assumption; lia. }
  destruct (runCycles_lifecycle decodeDriveState doUnitConversion
              (targetDriveState_ m) cycles 0 m H0) as (Hinv & Hcfg).
  fold m' in Hinv, Hcfg. cbn [Z.add] in Hinv. fold n in Hinv.
  destruct Hinv as (_ & _ & _ & Hlife). rewrite Hcfg in Hlife.
  destruct Hlife as [(Hs' & Hc' & Hn' & Hlt) | (Hs' & Hc' & Hn' & Hge)].
  - split; [| split].
    + split; [congruence | lia].
    + congruence.
    + intros _. split; assumption.
  - split; [| split].
    + split; [intros _; exact Hge | intros _; exact Hs'].
    + intros _. split; assumption.
    + congruence.
Qed.

Lemma completion_after_min_confirming_reads_witness :
  let m := armStateChange OperationEnabled
             (exampleDevice (exampleConfiguration RxPdoStandard TxPdoStandard
                               CyclicSynchronousPositionMode true 2 1000000)
                SwitchedOn) in
  let cycles := [(1000%N, exampleTxPdo SwitchedOn);
                 (1000%N, exampleTxPdo OperationEnabled);
                 (1000%N, exampleTxPdo OperationEnabled)] in
  stateChangeSuccessful_ (runCycles exampleDecode exampleConversion cycles m) = true
  /\ conductStateChange_ (runCycles exampleDecode exampleConversion cycles m) = false.
Proof.
  cbv zeta.
  destruct (completion_after_min_confirming_reads exampleDecode exampleConversion
              (armStateChange OperationEnabled
                 (exampleDevice (exampleConfiguration RxPdoStandard TxPdoStandard
                                   CyclicSynchronousPositionMode true 2 1000000)
                    SwitchedOn))
              [(1000%N, exampleTxPdo SwitchedOn);
               (1000%N, exampleTxPdo OperationEnabled);
               (1000%N, exampleTxPdo OperationEnabled)])
    as (Hiff & Hdone & _).
  - discriminate.
  - discriminate.
  - reflexivity.
  - reflexivity.
  - reflexivity.
  - vm_compute. discriminate.
  - assert (Hs : stateChangeSuccessful_
                   (runCycles exampleDecode exampleConversion
                      [(1000%N, exampleTxPdo SwitchedOn);
                       (1000%N, exampleTxPdo OperationEnabled);
                       (1000%N, exampleTxPdo OperationEnabled)]
                      (armStateChange OperationEnabled
                         (exampleDevice
                            (exampleConfiguration RxPdoStandard TxPdoStandard
                               CyclicSynchronousPositionMode true 2 1000000)
                            SwitchedOn))) = true).
    { apply Hiff. vm_compute. discriminate. }
    split; [exact Hs | apply Hdone; exact Hs].
Defined.

(** ** The waiting request and its timeout *)

(** No action changes the configuration; none turns the clock back. *)
Lemma runAction_configuration_clock (decodeDriveState : Z -> DriveState)
    (doUnitConversion : Command -> Command) (a : Action) (m : Maxon) :
  configuration_ (runAction decodeDriveState doUnitConversion a m) = configuration_ m
  /\ clock m <= clock (runAction decodeDriveState doUnitConversion a m).
Proof.
  destruct a as [d | f | | c | s]; cbn.
  - split; [reflexivity | lia].
  - unfold updateRead, getDriveState. cbn.
    destruct (txPdoTypeEnum (configuration_ m)); cbn;
      destruct (negb (hasRead_ m)); cbn;
      destruct (DriveState_eqb _ Fault); cbn; split; reflexivity || lia.
  - unfold updateWrite.
    destruct (ModeOfOperationEnum_eqb (modeOfOperation_ m) NA); cbn.
    + split; [reflexivity | lia].
    + set (x := if conductStateChange_ m && hasRead_ m
                then engagePdoStateMachine decodeDriveState m else m).
      assert (Hx : configuration_ x = configuration_ m /\ clock x = clock m).
      { subst x. destruct (conductStateChange_ m && hasRead_ m); [| tauto].
        pose proof (engagePdoStateMachine_frame decodeDriveState m) as H.
        cbv zeta in H. tauto. }
      destruct Hx as (Hc & Hk).
      destruct (buildRxPdo x); cbn; rewrite Hc, Hk; split; reflexivity || lia.
  - pose proof (stageCommand_frame doUnitConversion c m) as H. cbv zeta in H.
    destruct H as (_ & _ & _ & _ & Hc & Hk). rewrite Hc, Hk.
    split; [reflexivity | lia].
  - split; [reflexivity | lia].
Qed.

Lemma runActions_configuration_clock (decodeDriveState : Z -> DriveState)
    (doUnitConversion : Command -> Command) (acts : list Action) :
  forall m : Maxon,
    configuration_ (runActions decodeDriveState doUnitConversion acts m)
    = configuration_ m
    /\ clock m <= clock (runActions decodeDriveState doUnitConversion acts m).
Proof.
  induction acts as [|a acts IH]; intros m; cbn.
  - split; [reflexivity | lia].
  - destruct (runAction_configuration_clock decodeDriveState doUnitConversion a m)
      as (Hc & Hk).
    destruct (IH (runAction decodeDriveState doUnitConversion a m)) as (Hc' & Hk').
    unfold runActions in *. split; [congruence | lia].
Qed.

(** A sleep of the waiting loop lasts at least one millisecond. *)
Lemma sleepUnlocked_configuration_clock (decodeDriveState : Z -> DriveState)
    (doUnitConversion : Command -> Command) (acts : list Action) (m : Maxon) :
  configuration_ (sleepUnlocked decodeDriveState doUnitConversion acts m)
  = configuration_ m
  /\ clock m + 1000 <= clock (sleepUnlocked decodeDriveState doUnitConversion acts m).
Proof.
  unfold sleepUnlocked. cbn.
  destruct (runActions_configuration_clock decodeDriveState doUnitConversion acts m)
    as (Hc & _).
  split; [exact Hc | lia].
Qed.

Lemma afterSleeps_cons (decodeDriveState : Z -> DriveState)
    (doUnitConversion : Command -> Command)
    (acts : list Action) (rest : list (list Action)) (k : nat) (m : Maxon) :
  afterSleeps decodeDriveState doUnitConversion (acts :: rest) (S k) m
  = afterSleeps decodeDriveState doUnitConversion rest k
      (sleepUnlocked decodeDriveState doUnitConversion acts m).
Proof. reflexivity. Qed.

Lemma afterSleeps_0 (decodeDriveState : Z -> DriveState)
    (doUnitConversion : Command -> Command)
    (sleeps : list (list Action)) (m : Maxon) :
  afterSleeps decodeDriveState doUnitConversion sleeps 0 m = m.
Proof. reflexivity. Qed.

Lemma afterSleeps_configuration (decodeDriveState : Z -> DriveState)
    (doUnitConversion : Command -> Command) (sleeps : list (list Action)) :
  forall (k : nat) (m : Maxon),
    configuration_ (afterSleeps decodeDriveState doUnitConversion sleeps k m)
    = configuration_ m.
Proof.
  induction sleeps as [|acts rest IH]; intros [|k] m; try reflexivity.
  rewrite afterSleeps_cons, IH.
  apply sleepUnlocked_configuration_clock.
Qed.

(** The waiting loop ends once the sleeps cover the timeout. *)
Lemma waitForStateChange_total (decodeDriveState : Z -> DriveState)
    (doUnitConversion : Command -> Command) (sleeps : list (list Action))
    (start : Z) :
  forall m : Maxon,
    driveStateChangeMaxTimeout (configuration_ m)
    < clock m - start + 1000 * Z.of_nat (length sleeps) ->
    waitForStateChange decodeDriveState doUnitConversion sleeps start m <> None.
Proof.
  induction sleeps as [|acts rest IH]; intros m Hlen; cbn [waitForStateChange].
  - destruct (stateChangeSuccessful_ m); [discriminate |].
    unfold now.
    destruct (Z.ltb_spec (driveStateChangeMaxTimeout (configuration_ m))
                (clock m - start)); [discriminate |].
    cbn [length] in Hlen. lia.
  - destruct (stateChangeSuccessful_ m); [discriminate |].
    destruct (_ <? _); [discriminate |].
    apply IH.
    destruct (sleepUnlocked_configuration_clock decodeDriveState doUnitConversion
                acts m) as (Hc & Hk).
    rewrite Hc. cbn [length] in Hlen. lia.
Qed.

(** The waiting loop changes nothing itself: it returns the device as the
    other threads left it after some number of sleeps, and its result is
    the success flag of that device; [false] is returned only after the
    timeout. *)
Lemma waitForStateChange_result (decodeDriveState : Z -> DriveState)
    (doUnitConversion : Command -> Command) (sleeps : list (list Action))
    (start : Z) :
  forall (m : Maxon) (r : bool) (m' : Maxon),
    waitForStateChange decodeDriveState doUnitConversion sleeps start m
    = Some (r, m') ->
    exists k : nat,
      (k <= length sleeps)%nat
      /\ m' = afterSleeps decodeDriveState doUnitConversion sleeps k m
      /\ r = stateChangeSuccessful_ m'
      /\ (r = false ->
          driveStateChangeMaxTimeout (configuration_ m') < clock m' - start).
Proof.
  induction sleeps as [|acts rest IH]; intros m r m' Hwait;
    cbn [waitForStateChange] in Hwait;
    destruct (stateChangeSuccessful_ m) eqn:Hs.
  - inversion Hwait; subst. exists 0%nat. cbn. repeat split; auto. discriminate.
  - unfold now in Hwait.
    destruct (Z.ltb_spec (driveStateChangeMaxTimeout (configuration_ m))
                (clock m - start)); [| discriminate].
    inversion Hwait; subst. exists 0%nat. cbn. repeat split; auto.
  - inversion Hwait; subst. exists 0%nat. cbn [length].
    rewrite afterSleeps_0. repeat split; auto; [lia | discriminate].
  - unfold now in Hwait.
    destruct (Z.ltb_spec (driveStateChangeMaxTimeout (configuration_ m))
                (clock m - start)).
    + inversion Hwait; subst. exists 0%nat. cbn [length].
      rewrite afterSleeps_0. repeat split; auto; lia.
    + destruct (IH _ _ _ Hwait) as (k & Hk & Hm' & Hr & Ht).
      exists (S k). cbn [length]. rewrite afterSleeps_cons.
      repeat split; auto. lia.
Qed.

(** When the timeout has elapsed at some poll and the success flag was
    clear at every poll up to it, the loop returns [false]. *)
Lemma waitForStateChange_timeout (decodeDriveState : Z -> DriveState)
    (doUnitConversion : Command -> Command) (sleeps : list (list Action))
    (start : Z) :
  forall (k : nat) (m : Maxon),
    (k <= length sleeps)%nat ->
    (forall j : nat, (j <= k)%nat ->
       stateChangeSuccessful_
         (afterSleeps decodeDriveState doUnitConversion sleeps j m) = false) ->
    driveStateChangeMaxTimeout (configuration_ m)
    < clock (afterSleeps decodeDriveState doUnitConversion sleeps k m) - start ->
    exists j : nat,
      (j <= k)%nat
      /\ waitForStateChange decodeDriveState doUnitConversion sleeps start m
         = Some (false, afterSleeps decodeDriveState doUnitConversion sleeps j m).
Proof.
  induction sleeps as [|acts rest IH]; intros k m Hk Hflags Hlate;
    cbn [waitForStateChange];
    pose proof (Hflags 0%nat (Nat.le_0_l k)) as Hs0;
    rewrite afterSleeps_0 in Hs0; rewrite Hs0; unfold now.
  - cbn [length] in Hk. assert (k = 0%nat) by lia. subst k.
    rewrite afterSleeps_0 in Hlate.
    apply Z.ltb_lt in Hlate. rewrite Hlate.
    exists 0%nat. split; [lia | reflexivity].
  - destruct (Z.ltb_spec (driveStateChangeMaxTimeout (configuration_ m))
                (clock m - start)) as [Hlt | Hge].
    + exists 0%nat. split; [lia | reflexivity].
    + destruct k as [|k].
      * rewrite afterSleeps_0 in Hlate. lia.
      * destruct (sleepUnlocked_configuration_clock decodeDriveState
                    doUnitConversion acts m) as (Hc & _).
        destruct (IH k (sleepUnlocked decodeDriveState doUnitConversion acts m))
          as (j & Hj & Hres).
        -- cbn [length] in Hk. lia.
        -- intros j Hj. rewrite <- afterSleeps_cons. apply Hflags. lia.
        -- rewrite Hc. rewrite <- afterSleeps_cons. exact Hlate.
        -- exists (S j). split; [lia |]. rewrite afterSleeps_cons. exact Hres.
Qed.

Lemma waitForStateChange_success (decodeDriveState : Z -> DriveState)
    (doUnitConversion : Command -> Command) (sleeps : list (list Action))
    (start : Z) :
  forall (k : nat) (m : Maxon),
    (k <= length sleeps)%nat ->
    stateChangeSuccessful_
      (afterSleeps decodeDriveState doUnitConversion sleeps k m) = true ->
    (forall j : nat, (j < k)%nat ->
       stateChangeSuccessful_
         (afterSleeps decodeDriveState doUnitConversion sleeps j m) = false
       /\ clock (afterSleeps decodeDriveState doUnitConversion sleeps j m) - start
          <= driveStateChangeMaxTimeout (configuration_ m)) ->
    waitForStateChange decodeDriveState doUnitConversion sleeps start m
    = Some (true, afterSleeps decodeDriveState doUnitConversion sleeps k m).
Proof.
  induction sleeps as [|acts rest IH]; intros k m Hk Hdone Hbefore;
    cbn [waitForStateChange].
  - cbn [length] in Hk. assert (k = 0%nat) by lia. subst k.
    rewrite afterSleeps_0 in *. now rewrite Hdone.
  - destruct k as [|k].
    + rewrite afterSleeps_0 in *. now rewrite Hdone.
    + destruct (Hbefore 0%nat) as (Hs0 & Ht0); [lia |].
      rewrite afterSleeps_0 in Hs0, Ht0. rewrite Hs0. unfold now.
      destruct (Z.ltb_spec (driveStateChangeMaxTimeout (configuration_ m))
                  (clock m - start)); [lia |].
      rewrite afterSleeps_cons.
      destruct (sleepUnlocked_configuration_clock decodeDriveState
                  doUnitConversion acts m) as (Hcfg & _).
      apply IH.
      * cbn [length] in Hk. lia.
      * rewrite <- afterSleeps_cons. exact Hdone.
      * intros j Hj. rewrite <- afterSleeps_cons, Hcfg. apply Hbefore. lia.
Qed.

(** C6, as stated, fails: the loop polls only after each sleep of at least
    one millisecond and tests the success flag first.  With a timeout of
    500 microseconds, a request that is still incomplete when the timeout
    has elapsed (at 700 microseconds) and completes then returns [true] at
    the poll that follows. *)
Lemma C6_counterexample :
  let m := exampleDevice (exampleConfiguration RxPdoStandard TxPdoStandard
                            CyclicSynchronousPositionMode true 1 500)
             SwitchedOn in
  let armed := armStateChange OperationEnabled m in
  let late := runActions exampleDecode exampleConversion
                [ActTick 700; ActUpdateRead (exampleTxPdo OperationEnabled)]
                armed in
  driveStateChangeMaxTimeout (configuration_ m) = 500
  /\ clock late - clock armed = 700
  /\ stateChangeSuccessful_ late = false
  /\ option_map fst
       (setDriveStateViaPdo exampleDecode exampleConversion OperationEnabled true
          [[ActTick 700; ActUpdateRead (exampleTxPdo OperationEnabled);
            ActUpdateWrite]] m)
     = Some true.
Proof. cbv zeta. repeat split. Qed.

(** C6, amended: a waiting [setDriveStateViaPdo] polls after each sleep and
    returns once the sleeps cover the configured maximum timeout.  Whatever
    it returns, the device is exactly as the other threads left it after
    the last sleep: the waiting path writes no member, so the pending flag
    is the one the last cycle produced.  The result is the success flag of
    that device, and [false] is returned only after the timeout has
    elapsed.  When at some poll the timeout has elapsed and the change was
    not complete at any poll up to it, the caller receives [false].  When a
    poll finds the change complete, and no earlier poll found the timeout
    elapsed, the caller receives [true], even when the timeout has elapsed
    by then. *)
Theorem setDriveStateViaPdo_timeout (decodeDriveState : Z -> DriveState)
    (doUnitConversion : Command -> Command)
    (driveState : DriveState) (sleeps : list (list Action)) (m : Maxon) :
  let armed := armStateChange driveState m in
  let result := setDriveStateViaPdo decodeDriveState doUnitConversion
                  driveState true sleeps m in
  let timeout := driveStateChangeMaxTimeout (configuration_ m) in
  (timeout < 1000 * Z.of_nat (length sleeps) -> result <> None)
  /\ (forall (r : bool) (m' : Maxon),
         result = Some (r, m') ->
         exists k : nat,
           (k <= length sleeps)%nat
           /\ m' = afterSleeps decodeDriveState doUnitConversion sleeps k armed
           /\ conductStateChange_ m'
              = conductStateChange_
                  (afterSleeps decodeDriveState doUnitConversion sleeps k armed)
           /\ r = stateChangeSuccessful_ m'
           /\ (r = false -> timeout < clock m' - clock armed))
  /\ (forall k : nat,
         (k <= length sleeps)%nat ->
         (forall j : nat, (j <= k)%nat ->
            stateChangeSuccessful_
              (afterSleeps decodeDriveState doUnitConversion sleeps j armed) = false) ->
         timeout
         < clock (afterSleeps decodeDriveState doUnitConversion sleeps k armed)
           - clock armed ->
         exists j : nat,
           (j <= k)%nat
           /\ result
              = Some (false,
                      afterSleeps decodeDriveState doUnitConversion sleeps j armed))
  /\ (forall k : nat,
         (k <= length sleeps)%nat ->
         stateChangeSuccessful_
           (afterSleeps decodeDriveState doUnitConversion sleeps k armed) = true ->
         (forall j : nat, (j < k)%nat ->
            stateChangeSuccessful_
              (afterSleeps decodeDriveState doUnitConversion sleeps j armed) = false
            /\ clock (afterSleeps decodeDriveState doUnitConversion sleeps j armed)
               - clock armed <= timeout) ->
         result
         = Some (true,
                 afterSleeps decodeDriveState doUnitConversion sleeps k armed)).
Proof.
  intros armed result timeout.
  assert (Hres : result
                 = waitForStateChange decodeDriveState doUnitConversion sleeps
                     (clock armed) armed) by reflexivity.
  assert (Hcfg : configuration_ armed = configuration_ m) by reflexivity.
  split; [| split; [| split]].
  - intros Hlen. rewrite Hres. apply waitForStateChange_total.
    rewrite Hcfg. fold timeout. lia.
  - intros r m' Hsome. rewrite Hres in Hsome.
    destruct (waitForStateChange_result decodeDriveState doUnitConversion sleeps
                (clock armed) armed r m' Hsome) as (k & Hk & Hm' & Hr & Ht).
    exists k. repeat split; auto.
    + now rewrite Hm'.
    + intros Hfalse. specialize (Ht Hfalse).
      rewrite Hm', afterSleeps_configuration, Hcfg in Ht.
      rewrite Hm'. exact Ht.
  - intros k Hk Hflags Hlate. rewrite Hres.
    apply (waitForStateChange_timeout decodeDriveState doUnitConversion sleeps
             (clock armed) k armed Hk Hflags).
    rewrite Hcfg. exact Hlate.
  - intros k Hk Hdone Hbefore. rewrite Hres.
    apply waitForStateChange_success; assumption.
Qed.

Lemma setDriveStateViaPdo_timeout_witness :
  let m := exampleDevice (exampleConfiguration RxPdoStandard TxPdoStandard
                            CyclicSynchronousPositionMode true 2 1500)
             SwitchOnDisabled in
  let cycle := [ActUpdateRead (exampleTxPdo SwitchOnDisabled); ActUpdateWrite] in
  exists m' : Maxon,
    setDriveStateViaPdo exampleDecode exampleConversion OperationEnabled true
      [cycle; cycle; cycle] m = Some (false, m')
    /\ conductStateChange_ m' = true.
Proof.
  cbv zeta.
  destruct (setDriveStateViaPdo_timeout exampleDecode exampleConversion
              OperationEnabled
              [[ActUpdateRead (exampleTxPdo SwitchOnDisabled); ActUpdateWrite];
               [ActUpdateRead (exampleTxPdo SwitchOnDisabled); ActUpdateWrite];
               [ActUpdateRead (exampleTxPdo SwitchOnDisabled); ActUpdateWrite]]
              (exampleDevice (exampleConfiguration RxPdoStandard TxPdoStandard
                                CyclicSynchronousPositionMode true 2 1500)
                 SwitchOnDisabled))
    as (_ & _ & Htimeout & _).
  destruct (Htimeout 2%nat) as (j & Hj & Hres).
  - cbn [length]. lia.
  - intros [|[|[|j]]] Hj; [vm_compute; reflexivity .. | lia].
  - vm_compute. reflexivity.
  - eexists. split; [exact Hres |].
    destruct j as [|[|[|j]]]; [vm_compute; reflexivity .. | lia].
Defined.

(** ** Scaling *)

(** The scaling that [stageCommand] sets before the unit conversion: the
    position factor is the encoder resolution over 2 pi, the current factor
    1000 over the nominal current, the torque factor the current factor
    divided by the motor constant and then by the gear ratio. *)
Lemma stageCommand_scaling (doUnitConversion : Command -> Command)
    (command : Command) (m : Maxon) :
  let cfg := configuration_ m in
  stagedCommand_ (stageCommand doUnitConversion command m)
  = doUnitConversion
      (setScaling
         (double_of_Z (positionEncoderResolution cfg) / (2 * M_PI))%float
         (1000 / nominalCurrentA cfg)%float
         (1000 / nominalCurrentA cfg / motorConstant cfg / gearRatio cfg)%float
         (maxCurrentA cfg)
         (maxCurrentA cfg * motorConstant cfg * gearRatio cfg)%float
         (useRawCommands cfg)
         command).
Proof.
  unfold stageCommand. cbn.
  destruct (allowModeChange_ m); cbn; [reflexivity |].
  destruct (negb _ && negb _); reflexivity.
Qed.

(** In binary64 the product of 2 pi and the position factor gives back the
    encoder resolution exactly for a resolution of 4096, and falls just
    short of it for a resolution of 13: whether 2 pi rad become exactly the
    resolution in ticks depends on how the conversion rounds. *)
Lemma position_factor_product_binary64 :
  PrimFloat.eqb (2 * M_PI * (double_of_Z 4096 / (2 * M_PI))) (double_of_Z 4096) = true
  /\ PrimFloat.ltb (2 * M_PI * (double_of_Z 13 / (2 * M_PI))) (double_of_Z 13) = true.
Proof. split; vm_compute; reflexivity. Qed.

(** * Further properties of the code *)

(** ** The result of a synchronous state request *)

Lemma issueViaSdo_result (ts : list StateTransition) :
  forall (success : bool) (m : Maxon),
    fst (issueViaSdo ts success m)
    = success && forallb (sdoWriteReply (bus_ m)) (map setStateTransition ts).
Proof.
  induction ts as [|t ts IH]; intros success m; simpl.
  - now rewrite andb_true_r.
  - unfold bind, stateTransitionViaSdo, setControlwordViaSdo.
    rewrite IH. simpl. now rewrite andb_assoc.
Qed.

(** X1: a synchronous state request succeeds exactly when the requested
    state is not [Fault], the status word could be read and the bus accepted
    every control word of the path from the decoded state.  Whatever the
    bus answers, the request writes the control word of every transition of
    that path, in order: a refused write does not stop the later ones. *)
Theorem setDriveStateViaSdo_result (decodeDriveState : Z -> DriveState)
    (requested : DriveState) (m : Maxon) :
  let current := decodeDriveState (snd (sdoStatuswordReply (bus_ m))) in
  (fst (setDriveStateViaSdo decodeDriveState requested m) = true
   <-> requested <> Fault
       /\ fst (sdoStatuswordReply (bus_ m)) = true
       /\ Forall (fun t => sdoWriteReply (bus_ m) (setStateTransition t) = true)
            (sdoTransitionList requested current))
  /\ sdoWrites (bus_ (snd (setDriveStateViaSdo decodeDriveState requested m)))
     = sdoWrites (bus_ m)
       ++ map setStateTransition (sdoTransitionList requested current).
Proof.
  cbv zeta. split; [| apply setDriveStateViaSdo_writes].
  unfold setDriveStateViaSdo, sdoTransitionList, bind, getStatuswordViaSdo.
  destruct (sdoStatuswordReply (bus_ m)) as [ok w]; cbn [fst snd].
  destruct (sdoTransitions requested (decodeDriveState w)) as [ts|] eqn:Hts.
  - rewrite issueViaSdo_result, andb_true_iff, forallb_forall, Forall_forall.
    assert (Hnf : requested <> Fault)
      by (intros ->; discriminate).
    split.
    + intros [Hok Hall]. repeat split; auto.
      intros t Ht. apply Hall. now apply in_map.
    + intros (_ & Hok & Hall). split; auto.
      intros c Hc. apply in_map_iff in Hc. destruct Hc as (t & <- & Ht).
      now apply Hall.
  - cbn. split; [discriminate |].
    intros (Hnf & _).
    destruct requested; try congruence;
      destruct (decodeDriveState w); discriminate.
Qed.

(** ** The transition tables as a graph *)

Lemma follow_sdoTransitionList (requested current : DriveState) :
  requested <> Fault ->
  follow (sdoTransitionList requested current) current = Some requested.
Proof.
  intros Hnf. destruct requested, current; try reflexivity; congruence.
Qed.

(** X2: the branches of the SDO table fit together.  The branches with a
    single transition are exactly the edges; and for every requested state
    but [Fault], the path of any branch is a chain of such edges that leads
    from the current state to the requested one. *)
Theorem sdo_paths_follow_edges :
  (forall (t : StateTransition) (current requested : DriveState),
      edge t current = Some requested
      <-> sdoTransitions requested current = Some [t])
  /\ (forall requested current : DriveState,
         requested <> Fault ->
         follow (sdoTransitionList requested current) current = Some requested).
Proof.
  split.
  - intros t current requested.
    destruct t, current, requested; cbn; split; congruence.
  - apply follow_sdoTransitionList.
Qed.

Lemma pdoHops_reached (hops : nat) (s : DriveState) : pdoHops hops s s = [].
Proof. destruct hops, s; reflexivity. Qed.

(** X3: on a drive that takes each transition, the PDO mapping, asked hop
    by hop, yields exactly the path that the SDO channel writes at once, for
    every requested state but [Fault]; five hops suffice. *)
Theorem pdo_hops_are_sdo_path (hops : nat) (requested current : DriveState) :
  (5 <= hops)%nat ->
  requested <> Fault ->
  pdoHops hops requested current = sdoTransitionList requested current
  /\ follow (pdoHops hops requested current) current = Some requested.
Proof.
  intros Hhops Hnf.
  assert (Hpath : pdoHops hops requested current
                  = sdoTransitionList requested current).
  { destruct hops as [|[|[|[|[|hops]]]]]; try lia.
    destruct requested, current; cbn; rewrite ?pdoHops_reached;
      try reflexivity; congruence. }
  split; [exact Hpath |].
  rewrite Hpath. now apply follow_sdoTransitionList.
Qed.

Lemma pdo_hops_are_sdo_path_witness :
  pdoHops 5 QuickStopActive Fault = [_15; _2; _3; _4; _11]
  /\ follow (pdoHops 5 QuickStopActive Fault) Fault = Some QuickStopActive.
Proof.
  apply (pdo_hops_are_sdo_path 5 QuickStopActive Fault).
  - lia.
  - discriminate.
Defined.

(** X4: [preShutdown] writes the control words of the path to
    [QuickStopActive] from the state it decodes first, followed by those of
    the path to [SwitchOnDisabled] from the state it decodes second: at
    most six control words.  On a drive that has taken the first path, the
    second path is the single transition 12, and the two paths together
    lead to [SwitchOnDisabled]. *)
Theorem preShutdown_writes (decodeDriveState : Z -> DriveState)
    (second : bool * Z) (m : Maxon) :
  let first := decodeDriveState (snd (sdoStatuswordReply (bus_ m))) in
  let then_ := decodeDriveState (snd second) in
  let paths := sdoTransitionList QuickStopActive first
               ++ sdoTransitionList SwitchOnDisabled then_ in
  sdoWrites (bus_ (preShutdownOn decodeDriveState second m))
  = sdoWrites (bus_ m) ++ map setStateTransition paths
  /\ (length paths <= 6)%nat
  /\ (then_ = QuickStopActive ->
      sdoTransitionList SwitchOnDisabled then_ = [_12]
      /\ follow paths first = Some SwitchOnDisabled).
Proof.
  cbv zeta. unfold preShutdownOn.
  split; [| split].
  - rewrite setDriveStateViaSdo_writes.
    unfold answerStatusword at 2. cbn [bus_ set_bus sdoStatuswordReply snd].
    unfold answerStatusword. cbn [bus_ set_bus sdoWrites].
    rewrite setDriveStateViaSdo_writes, map_app, app_assoc. reflexivity.
  - destruct (decodeDriveState (snd (sdoStatuswordReply (bus_ m))));
      destruct (decodeDriveState (snd second)); cbn; lia.
  - intros ->. split; [reflexivity |].
    destruct (decodeDriveState (snd (sdoStatuswordReply (bus_ m)))); reflexivity.
Qed.

Lemma preShutdown_writes_witness :
  let m := exampleDevice (exampleConfiguration RxPdoStandard TxPdoStandard
                            CyclicSynchronousPositionMode false 1 0)
             OperationEnabled in
  sdoWrites (bus_ (preShutdownOn exampleDecode
                     (true, exampleStatusword QuickStopActive) m))
  = map setStateTransition [_11; _12].
Proof.
  cbv zeta.
  destruct (preShutdown_writes exampleDecode
              (true, exampleStatusword QuickStopActive)
              (exampleDevice (exampleConfiguration RxPdoStandard TxPdoStandard
                                CyclicSynchronousPositionMode false 1 0)
                 OperationEnabled)) as (H & _).
  exact H.
Defined.

(** ** What the cyclic operations keep *)

Lemma engagePdoStateMachine_reading (decodeDriveState : Z -> DriveState) (m : Maxon) :
  let e := engagePdoStateMachine decodeDriveState m in
  statusword (reading_ e) = statusword (reading_ m)
  /\ exists es : list ErrorType,
       errors (reading_ e) = errors (reading_ m) ++ es.
Proof.
  unfold engagePdoStateMachine, getDriveState. cbn.
  destruct (DriveState_eqb _ _); cbn.
  - destruct (_ <=? _); cbn; (split; [reflexivity |]);
      exists []; now rewrite app_nil_r.
  - destruct (_ <? _); cbn.
    + unfold getNextStateTransitionControlword.
      destruct (pdoBranch _ _); cbn; (split; [reflexivity |]).
      * exists []. now rewrite app_nil_r.
      * now exists [PdoStateTransitionError].
      * now exists [PdoStateTransitionError].
    + split; [reflexivity |]. exists []. now rewrite app_nil_r.
Qed.

(** [updateWrite] changes neither the configuration, nor the staged
    command, the active mode, the target, the clock or the status word of
    the reading. *)
Lemma updateWrite_preserves (decodeDriveState : Z -> DriveState) (m : Maxon) :
  let w := updateWrite decodeDriveState m in
  configuration_ w = configuration_ m
  /\ stagedCommand_ w = stagedCommand_ m
  /\ modeOfOperation_ w = modeOfOperation_ m
  /\ allowModeChange_ w = allowModeChange_ m
  /\ targetDriveState_ w = targetDriveState_ m
  /\ clock w = clock m
  /\ statusword (reading_ w) = statusword (reading_ m).
Proof.
  unfold updateWrite.
  destruct (ModeOfOperationEnum_eqb (modeOfOperation_ m) NA); cbn.
  - repeat split.
  - set (x := if conductStateChange_ m && hasRead_ m
              then engagePdoStateMachine decodeDriveState m else m).
    assert (Hx : configuration_ x = configuration_ m
                 /\ stagedCommand_ x = stagedCommand_ m
                 /\ modeOfOperation_ x = modeOfOperation_ m
                 /\ allowModeChange_ x = allowModeChange_ m
                 /\ targetDriveState_ x = targetDriveState_ m
                 /\ clock x = clock m
                 /\ statusword (reading_ x) = statusword (reading_ m)).
    { subst x. destruct (conductStateChange_ m && hasRead_ m); [| tauto].
      pose proof (engagePdoStateMachine_frame decodeDriveState m) as H.
      pose proof (engagePdoStateMachine_reading decodeDriveState m) as H'.
      cbv zeta in H, H'. tauto. }
    destruct (buildRxPdo x); cbn; exact Hx.
Qed.

(** [updateRead] changes nothing of the device but the reading, the
    fresh-read flag and the error stream. *)
Lemma updateRead_preserves (decodeDriveState : Z -> DriveState)
    (txPdo : TxPdo) (m : Maxon) :
  let r := updateRead decodeDriveState txPdo m in
  configuration_ r = configuration_ m
  /\ stagedCommand_ r = stagedCommand_ m
  /\ controlword_ r = controlword_ m
  /\ modeOfOperation_ r = modeOfOperation_ m
  /\ allowModeChange_ r = allowModeChange_ m
  /\ driveStateChangeTimePoint_ r = driveStateChangeTimePoint_ m
  /\ bus_ r = bus_ m
  /\ clock r = clock m.
Proof.
  unfold updateRead, getDriveState. cbn.
  destruct (txPdoTypeEnum (configuration_ m)); cbn;
    destruct (negb (hasRead_ m)); cbn;
    destruct (DriveState_eqb _ Fault); cbn; repeat split.
Qed.

Lemma updateRead_errors (decodeDriveState : Z -> DriveState)
    (txPdo : TxPdo) (m : Maxon) :
  errors (reading_ (updateRead decodeDriveState txPdo m))
  = errors (reading_ m)
    ++ match txPdoTypeEnum (configuration_ m) with
       | TxPdoNA => [TxPdoTypeError]
       | _ => []
       end.
Proof.
  unfold updateRead, getDriveState. cbn.
  destruct (txPdoTypeEnum (configuration_ m)); cbn;
    destruct (negb (hasRead_ m)); cbn;
    destruct (DriveState_eqb _ Fault); cbn; now rewrite ?app_nil_r.
Qed.

(** What one action appends to the errors of the reading and to the frames
    on the bus. *)
Lemma runAction_appends (decodeDriveState : Z -> DriveState)
    (doUnitConversion : Command -> Command) (a : Action) (m : Maxon) :
  let m' := runAction decodeDriveState doUnitConversion a m in
  exists (es : list ErrorType) (fs : list RxPdo),
    errors (reading_ m') = errors (reading_ m) ++ es
    /\ rxPdoWrites (bus_ m') = rxPdoWrites (bus_ m) ++ fs
    /\ (length fs <= if isUpdateWrite a then 1 else 0)%nat.
Proof.
  destruct a as [d | f | | c | s]; cbn.
  - exists [], []. rewrite !app_nil_r. repeat split; try reflexivity; cbn; lia.
  - exists (match txPdoTypeEnum (configuration_ m) with
            | TxPdoNA => [TxPdoTypeError]
            | _ => []
            end), [].
    rewrite updateRead_errors.
    destruct (updateRead_preserves decodeDriveState f m)
      as (_ & _ & _ & _ & _ & _ & Hb & _).
    rewrite Hb, app_nil_r. repeat split; try reflexivity; cbn; lia.
  - unfold updateWrite.
    destruct (ModeOfOperationEnum_eqb (modeOfOperation_ m) NA); cbn.
    + exists [ModeOfOperationError], []. rewrite app_nil_r. repeat split; try reflexivity; cbn; lia.
    + set (x := if conductStateChange_ m && hasRead_ m
                then engagePdoStateMachine decodeDriveState m else m).
      assert (Hx : bus_ x = bus_ m
                   /\ exists es, errors (reading_ x) = errors (reading_ m) ++ es).
      { subst x. destruct (conductStateChange_ m && hasRead_ m).
        - pose proof (engagePdoStateMachine_frame decodeDriveState m) as H.
          pose proof (engagePdoStateMachine_reading decodeDriveState m) as H'.
          cbv zeta in H, H'. tauto.
        - split; [reflexivity |]. exists []. now rewrite app_nil_r. }
      destruct Hx as (Hb & es & He).
      destruct (buildRxPdo x) as [f|]; cbn; rewrite Hb, He.
      * exists es, [f]. repeat split; try reflexivity; cbn; lia.
      * exists (es ++ [RxPdoTypeError]), [].
        rewrite app_assoc, app_nil_r. repeat split; try reflexivity; cbn; lia.
  - exists [], []. rewrite !app_nil_r.
    unfold stageCommand. cbn.
    destruct (allowModeChange_ m); cbn; [repeat split; try reflexivity; cbn; lia |].
    destruct (negb _ && negb _); cbn; repeat split; try reflexivity; cbn; lia.
  - exists [], []. rewrite !app_nil_r. repeat split; try reflexivity; cbn; lia.
Qed.

(** X5: the cyclic operations only ever append.  Over any run of actions
    the errors of the reading keep their earlier entries in place (no
    operation clears or reorders them), and the frames on the bus grow by
    at most one per [updateWrite]. *)
Theorem runActions_append_only (decodeDriveState : Z -> DriveState)
    (doUnitConversion : Command -> Command) (acts : list Action) (m : Maxon) :
  let m' := runActions decodeDriveState doUnitConversion acts m in
  exists (es : list ErrorType) (fs : list RxPdo),
    errors (reading_ m') = errors (reading_ m) ++ es
    /\ rxPdoWrites (bus_ m') = rxPdoWrites (bus_ m) ++ fs
    /\ (length fs <= length (filter isUpdateWrite acts))%nat.
Proof.
  cbv zeta. revert m.
  induction acts as [|a acts IH]; intros m.
  - exists [], []. cbn. now rewrite !app_nil_r.
  - destruct (runAction_appends decodeDriveState doUnitConversion a m)
      as (es1 & fs1 & He1 & Hf1 & Hl1).
    destruct (IH (runAction decodeDriveState doUnitConversion a m))
      as (es2 & fs2 & He2 & Hf2 & Hl2).
    exists (es1 ++ es2), (fs1 ++ fs2).
    unfold runActions in *. cbn [fold_left].
    rewrite He2, He1, Hf2, Hf1, !app_assoc, length_app.
    repeat split. cbn [filter].
    destruct (isUpdateWrite a); cbn [length]; lia.
Qed.

(** ** Staging and the frame *)

Lemma stageCommand_fields (doUnitConversion : Command -> Command)
    (command : Command) (m : Maxon) :
  let m' := stageCommand doUnitConversion command m in
  modeOfOperation_ m'
  = (if allowModeChange_ m then getModeOfOperation command else modeOfOperation_ m)
  /\ allowModeChange_ m' = allowModeChange_ m
  /\ controlword_ m' = controlword_ m
  /\ configuration_ m' = configuration_ m
  /\ bus_ m' = bus_ m
  /\ reading_ m' = reading_ m
  /\ driveStateChangeTimePoint_ m' = driveStateChangeTimePoint_ m
  /\ targetDriveState_ m' = targetDriveState_ m.
Proof.
  unfold stageCommand. cbn.
  destruct (allowModeChange_ m) eqn:Hallow; cbn;
    [repeat split; assumption || reflexivity |].
  destruct (negb _ && negb _); cbn; repeat split; assumption || reflexivity.
Qed.

(** X6: the active mode over a run of actions.  When mode changes are
    allowed it is the mode of the last staged command (of any mode, [NA]
    included); when they are not, it stays what it was, whatever is
    staged. *)
Theorem runActions_modeOfOperation (decodeDriveState : Z -> DriveState)
    (doUnitConversion : Command -> Command) (acts : list Action) (m : Maxon) :
  let m' := runActions decodeDriveState doUnitConversion acts m in
  modeOfOperation_ m'
  = (if allowModeChange_ m
     then lastStagedMode acts (modeOfOperation_ m)
     else modeOfOperation_ m)
  /\ allowModeChange_ m' = allowModeChange_ m.
Proof.
  cbv zeta. revert m.
  induction acts as [|a acts IH]; intros m.
  - cbn. destruct (allowModeChange_ m); split; reflexivity.
  - unfold runActions, lastStagedMode in *. cbn [fold_left].
    destruct (IH (runAction decodeDriveState doUnitConversion a m)) as (Hm & Ha).
    rewrite Hm, Ha. clear IH Hm Ha.
    assert (Hstep :
              allowModeChange_ (runAction decodeDriveState doUnitConversion a m)
              = allowModeChange_ m
              /\ modeOfOperation_ (runAction decodeDriveState doUnitConversion a m)
                 = match a with
                   | ActStageCommand command =>
                       if allowModeChange_ m then getModeOfOperation command
                       else modeOfOperation_ m
                   | _ => modeOfOperation_ m
                   end).
    { destruct a as [d | f | | c | s]; cbn.
      - split; reflexivity.
      - pose proof (updateRead_preserves decodeDriveState f m) as H.
        cbv zeta in H. tauto.
      - pose proof (updateWrite_preserves decodeDriveState m) as H.
        cbv zeta in H. tauto.
      - pose proof (stageCommand_fields doUnitConversion c m) as H.
        cbv zeta in H. tauto.
      - split; reflexivity. }
    destruct Hstep as (Hallow & Hmode). rewrite Hallow, Hmode.
    split; [| reflexivity].
    destruct (allowModeChange_ m); [| destruct a; reflexivity].
    destruct a; reflexivity.
Qed.

(** X7: when mode changes are allowed, staging a command without a mode
    ([NA]) unsets the active mode: the next [updateWrite] emits no frame and
    reports [ModeOfOperationError]. *)
Theorem staging_NA_blocks_the_write (decodeDriveState : Z -> DriveState)
    (doUnitConversion : Command -> Command) (command : Command) (m : Maxon) :
  allowModeChange_ m = true ->
  getModeOfOperation command = NA ->
  let m' := updateWrite decodeDriveState
              (stageCommand doUnitConversion command m) in
  rxPdoWrites (bus_ m') = rxPdoWrites (bus_ m)
  /\ errors (reading_ m') = errors (reading_ m) ++ [ModeOfOperationError]
  /\ countEngaged (log m') = countEngaged (log m).
Proof.
  intros Hallow Hna. cbv zeta.
  unfold stageCommand. cbn. rewrite Hallow.
  unfold updateWrite. cbn. rewrite Hna. cbn.
  rewrite countEngaged_snoc. cbn. repeat split. lia.
Qed.

Lemma staging_NA_blocks_the_write_witness :
  let m := exampleDevice (exampleConfiguration RxPdoStandard TxPdoStandard
                            CyclicSynchronousPositionMode true 1 0)
             OperationEnabled in
  rxPdoWrites (bus_ (updateWrite exampleDecode m)) <> []
  /\ rxPdoWrites (bus_ (updateWrite exampleDecode
                          (stageCommand exampleConversion (exampleCommand NA) m)))
     = [].
Proof.
  cbv zeta. split; [discriminate |].
  apply (staging_NA_blocks_the_write exampleDecode exampleConversion
           (exampleCommand NA)
           (exampleDevice (exampleConfiguration RxPdoStandard TxPdoStandard
                             CyclicSynchronousPositionMode true 1 0)
              OperationEnabled)); reflexivity.
Defined.

(** X8: the latest staged command wins.  After two stagings the staged
    command, the active mode and the frame that the next write would build
    are those after the second staging alone. *)
Theorem stageCommand_latest_wins (doUnitConversion : Command -> Command)
    (first second : Command) (m : Maxon) :
  let both := stageCommand doUnitConversion second
                (stageCommand doUnitConversion first m) in
  let last := stageCommand doUnitConversion second m in
  stagedCommand_ both = stagedCommand_ last
  /\ modeOfOperation_ both = modeOfOperation_ last
  /\ buildRxPdo both = buildRxPdo last.
Proof.
  cbv zeta.
  pose proof (stageCommand_fields doUnitConversion first m) as H1.
  pose proof (stageCommand_fields doUnitConversion second m) as H2.
  pose proof (stageCommand_fields doUnitConversion second
                (stageCommand doUnitConversion first m)) as H12.
  cbv zeta in H1, H2, H12.
  destruct H1 as (Hm1 & Ha1 & Hc1 & Hcfg1 & _).
  destruct H2 as (Hm2 & Ha2 & Hc2 & Hcfg2 & _).
  destruct H12 as (Hm12 & Ha12 & Hc12 & Hcfg12 & _).
  assert (Hs : stagedCommand_ (stageCommand doUnitConversion second
                                 (stageCommand doUnitConversion first m))
               = stagedCommand_ (stageCommand doUnitConversion second m)).
  { rewrite !stageCommand_scaling. cbv zeta. now rewrite Hcfg1. }
  assert (Hm : modeOfOperation_ (stageCommand doUnitConversion second
                                   (stageCommand doUnitConversion first m))
               = modeOfOperation_ (stageCommand doUnitConversion second m)).
  { rewrite Hm12, Hm2, Ha1, Hm1. now destruct (allowModeChange_ m). }
  split; [exact Hs | split; [exact Hm |]].
  unfold buildRxPdo. rewrite Hs, Hm, Hcfg12, Hcfg1, Hcfg2, Hc12, Hc1, Hc2.
  reflexivity.
Qed.

(** X9: in the variants that take the mode byte from the staged command,
    mode changes are never allowed, yet the mode of a staged command still
    reaches the bus.  When the unit conversion keeps the mode of the
    command, the frame of the next [updateWrite] carries the mode of the
    command that was staged last, while the active mode of the device stays
    the configured one. *)
Theorem staged_mode_reaches_the_frame (decodeDriveState : Z -> DriveState)
    (doUnitConversion : Command -> Command)
    (configuration : Configuration) (command : Command) (m0 : Maxon) :
  (forall c : Command,
      getModeOfOperation (doUnitConversion c) = getModeOfOperation c) ->
  usesStagedMode (rxPdoTypeEnum configuration) = true ->
  modeOfOperationEnum configuration <> NA ->
  let m := snd (loadConfiguration configuration m0) in
  let m' := updateWrite decodeDriveState
              (stageCommand doUnitConversion command m) in
  allowModeChange_ m = false
  /\ modeOfOperation_ m' = modeOfOperationEnum configuration
  /\ exists f : RxPdo,
       rxPdoWrites (bus_ m') = rxPdoWrites (bus_ m0) ++ [f]
       /\ frameModeOfOperation f = Some (getModeOfOperation command).
Proof.
  intros Hkeep Hrx Hmode m m'.
  assert (Hallow : allowModeChange_ m = false).
  { subst m. cbn. destruct (rxPdoTypeEnum configuration); try discriminate;
      cbn; now rewrite andb_false_r. }
  pose proof (stageCommand_fields doUnitConversion command m) as Hs.
  cbv zeta in Hs. rewrite Hallow in Hs.
  destruct Hs as (Hsm & _ & _ & Hscfg & Hsbus & _).
  set (s := stageCommand doUnitConversion command m) in *.
  assert (Hstaged : getModeOfOperation (stagedCommand_ s)
                    = getModeOfOperation command).
  { subst s. rewrite stageCommand_scaling. cbv zeta. now rewrite Hkeep. }
  assert (Hmode_s : modeOfOperation_ s = modeOfOperationEnum configuration)
    by (rewrite Hsm; reflexivity).
  split; [exact Hallow |].
  pose proof (updateWrite_preserves decodeDriveState s) as Hw.
  cbv zeta in Hw. destruct Hw as (_ & _ & Hwm & _).
  split; [subst m'; congruence |].
  subst m'. unfold updateWrite.
  assert (Hne : ModeOfOperationEnum_eqb (modeOfOperation_ s) NA = false)
    by (apply ModeOfOperationEnum_eqb_neq; congruence).
  rewrite Hne.
  set (x := if conductStateChange_ s && hasRead_ s
            then engagePdoStateMachine decodeDriveState s else s).
  assert (Hx : bus_ x = bus_ s /\ configuration_ x = configuration_ s
               /\ stagedCommand_ x = stagedCommand_ s).
  { subst x. destruct (conductStateChange_ s && hasRead_ s); [| tauto].
    pose proof (engagePdoStateMachine_frame decodeDriveState s) as H.
    cbv zeta in H. tauto. }
  destruct Hx as (Hxb & Hxc & Hxs).
  assert (Hcfg : rxPdoTypeEnum (configuration_ x) = rxPdoTypeEnum configuration)
    by (rewrite Hxc, Hscfg; reflexivity).
  assert (Hbus : rxPdoWrites (bus_ x) = rxPdoWrites (bus_ m0))
    by (rewrite Hxb, Hsbus; reflexivity).
  unfold buildRxPdo. rewrite Hcfg, Hxs.
  destruct (rxPdoTypeEnum configuration); try discriminate;
    eexists; cbn; rewrite Hbus, Hstaged; split; reflexivity.
Qed.

Lemma staged_mode_reaches_the_frame_witness :
  let m := snd (loadConfiguration
                  (exampleConfiguration RxPdoCSP TxPdoCSP
                     CyclicSynchronousPositionMode true 1 0)
                  (exampleDevice (exampleConfiguration RxPdoCSP TxPdoCSP
                                    NA false 1 0) OperationEnabled)) in
  let m' := updateWrite exampleDecode
              (stageCommand exampleConversion
                 (exampleCommand CyclicSynchronousTorqueMode) m) in
  modeOfOperation_ m' = CyclicSynchronousPositionMode
  /\ exists f : RxPdo,
       rxPdoWrites (bus_ m') = [f]
       /\ frameModeOfOperation f = Some CyclicSynchronousTorqueMode.
Proof.
  cbv zeta.
  destruct (staged_mode_reaches_the_frame exampleDecode exampleConversion
              (exampleConfiguration RxPdoCSP TxPdoCSP
                 CyclicSynchronousPositionMode true 1 0)
              (exampleCommand CyclicSynchronousTorqueMode)
              (exampleDevice (exampleConfiguration RxPdoCSP TxPdoCSP
                                NA false 1 0) OperationEnabled))
    as (_ & Hm & f & Hw & Hf).
  - reflexivity.
  - reflexivity.
  - discriminate.
  - split; [exact Hm |]. exists f. split; [exact Hw | exact Hf].
Defined.

(** X10: the PDO state machine overrides nothing of the frame but the
    control word.  With a resolved mode, what [updateWrite] adds to the bus
    is the frame that the device would have built before the call, with the
    control word replaced by the one the call leaves in the device; with an
    unsupported variant it adds no frame. *)
Theorem updateWrite_overrides_control_word_only
    (decodeDriveState : Z -> DriveState) (m : Maxon) :
  modeOfOperation_ m <> NA ->
  let m' := updateWrite decodeDriveState m in
  rxPdoWrites (bus_ m')
  = rxPdoWrites (bus_ m)
    ++ match buildRxPdo (set_controlword (controlword_ m') m) with
       | Some f => [f]
       | None => []
       end.
Proof.
  intros Hmode. cbv zeta. unfold updateWrite.
  apply ModeOfOperationEnum_eqb_neq in Hmode. rewrite Hmode.
  set (x := if conductStateChange_ m && hasRead_ m
            then engagePdoStateMachine decodeDriveState m else m).
  assert (Hx : bus_ x = bus_ m /\ configuration_ x = configuration_ m
               /\ stagedCommand_ x = stagedCommand_ m
               /\ modeOfOperation_ x = modeOfOperation_ m).
  { subst x. destruct (conductStateChange_ m && hasRead_ m); [| tauto].
    pose proof (engagePdoStateMachine_frame decodeDriveState m) as H.
    cbv zeta in H. tauto. }
  destruct Hx as (Hb & Hc & Hs & Hm).
  assert (Hbuild : forall c : Controlword,
             buildRxPdo (set_controlword c m) = buildRxPdo (set_controlword c x)).
  { intros c. unfold buildRxPdo. cbn. now rewrite Hc, Hs, Hm. }
  assert (Hself : buildRxPdo x = buildRxPdo (set_controlword (controlword_ x) x))
    by reflexivity.
  destruct (buildRxPdo x) as [f|] eqn:Hf; cbn [controlword_ writeRxPdo set_bus
    addErrorToReading set_reading emit set_log bus_ rxPdoWrites];
    rewrite Hbuild, <- Hself, Hb; [reflexivity | now rewrite app_nil_r].
Qed.

Lemma updateWrite_overrides_control_word_only_witness :
  let m := updateRead exampleDecode (exampleTxPdo SwitchedOn)
             (set_clock 5000
                (armStateChange OperationEnabled
                   (exampleDevice (exampleConfiguration RxPdoCSV TxPdoCSV
                                     CyclicSynchronousVelocityMode false 1 0)
                      SwitchedOn))) in
  rxPdoWrites (bus_ (updateWrite exampleDecode m))
  = [FrameCSV 100 0 (StateTransitionPreset _4) CyclicSynchronousVelocityMode].
Proof.
  cbv zeta.
  rewrite (updateWrite_overrides_control_word_only exampleDecode
             (updateRead exampleDecode (exampleTxPdo SwitchedOn)
                (set_clock 5000
                   (armStateChange OperationEnabled
                      (exampleDevice (exampleConfiguration RxPdoCSV TxPdoCSV
                                        CyclicSynchronousVelocityMode false 1 0)
                         SwitchedOn))))).
  - reflexivity.
  - discriminate.
Defined.

(** ** The cyclic read *)

Lemma updateRead_reading (decodeDriveState : Z -> DriveState)
    (txPdo : TxPdo) (m : Maxon) :
  reading_ (updateRead decodeDriveState txPdo m)
  = storeTxPdo (txPdoTypeEnum (configuration_ m)) txPdo (reading_ m).
Proof.
  unfold updateRead, getDriveState. cbn.
  destruct (txPdoTypeEnum (configuration_ m)); cbn;
    repeat match goal with
           | |- context [if ?c then _ else _] => destruct c; cbn
           end;
    reflexivity.
Qed.

(** X11: what a read stores.  With a supported variant the reading takes
    the status word of the frame and gains no error.  The actual current,
    velocity and position are taken from the frame in the four cyclic
    synchronous variants only; in the standard and the profile-velocity
    variant they stay as they were.  The demand velocity is taken in the
    profile-velocity variant only.  A second read replaces all that the
    first one stored: the reading is that after the second read alone. *)
Theorem updateRead_stores (decodeDriveState : Z -> DriveState)
    (first second : TxPdo) (m : Maxon) :
  txPdoTypeEnum (configuration_ m) <> TxPdoNA ->
  let r := reading_ (updateRead decodeDriveState second m) in
  statusword r = statusword_ second
  /\ errors r = errors (reading_ m)
  /\ (actualCurrent r, actualVelocity r, actualPosition r)
     = match txPdoTypeEnum (configuration_ m) with
       | TxPdoCSP | TxPdoCST | TxPdoCSV | TxPdoCSTCSP =>
           (actualTorque_ second, actualVelocity_ second, actualPosition_ second)
       | _ =>
           (actualCurrent (reading_ m), actualVelocity (reading_ m),
            actualPosition (reading_ m))
       end
  /\ demandVelocity r
     = match txPdoTypeEnum (configuration_ m) with
       | TxPdoPVM => demandVelocity_ second
       | _ => demandVelocity (reading_ m)
       end
  /\ reading_ (updateRead decodeDriveState second
                 (updateRead decodeDriveState first m)) = r.
Proof.
  intros Htx. cbv zeta.
  destruct (updateRead_preserves decodeDriveState first m) as (Hcfg & _).
  rewrite !updateRead_reading, Hcfg.
  destruct (txPdoTypeEnum (configuration_ m)); try congruence;
    cbn; repeat split.
Qed.

Lemma updateRead_stores_witness :
  let m := exampleDevice (exampleConfiguration RxPdoPVM TxPdoPVM
                            ProfiledVelocityMode false 1 0) SwitchedOn in
  let frame := {| statusword_ := 0x27; actualTorque_ := 5; actualVelocity_ := 6;
                  actualPosition_ := 7; demandVelocity_ := 8 |} in
  let r := reading_ (updateRead exampleDecode frame m) in
  statusword r = 0x27
  /\ (actualCurrent r, actualVelocity r, actualPosition r) = (0, 0, 0)
  /\ demandVelocity r = 8.
Proof.
  cbv zeta.
  destruct (updateRead_stores exampleDecode
              {| statusword_ := 0x27; actualTorque_ := 5; actualVelocity_ := 6;
                 actualPosition_ := 7; demandVelocity_ := 8 |}
              {| statusword_ := 0x27; actualTorque_ := 5; actualVelocity_ := 6;
                 actualPosition_ := 7; demandVelocity_ := 8 |}
              (exampleDevice (exampleConfiguration RxPdoPVM TxPdoPVM
                                ProfiledVelocityMode false 1 0) SwitchedOn))
    as (Hs & _ & Ha & Hd & _).
  - discriminate.
  - split; [exact Hs | split; [exact Ha | exact Hd]].
Defined.

Lemma updateRead_countEngaged (decodeDriveState : Z -> DriveState)
    (txPdo : TxPdo) (m : Maxon) :
  countEngaged (log (updateRead decodeDriveState txPdo m)) = countEngaged (log m).
Proof.
  unfold updateRead, getDriveState. cbn.
  destruct (txPdoTypeEnum (configuration_ m)); cbn;
    repeat match goal with
           | |- context [if ?c then _ else _] => destruct c; cbn
           end;
    rewrite ?countEngaged_snoc; cbn; lia.
Qed.

(** X12: with an unsupported read variant nothing is read, and the state
    machine runs all the same.  [updateRead] stores no status word and adds
    [TxPdoTypeError], but sets the fresh-read flag; with a pending request
    and a resolved mode the following [updateWrite] evaluates the state
    machine on the status word that the reading held before. *)
Theorem unsupported_read_still_engages (decodeDriveState : Z -> DriveState)
    (txPdo : TxPdo) (m : Maxon) :
  txPdoTypeEnum (configuration_ m) = TxPdoNA ->
  modeOfOperation_ m <> NA ->
  conductStateChange_ m = true ->
  let r := updateRead decodeDriveState txPdo m in
  let w := updateWrite decodeDriveState r in
  statusword (reading_ r) = statusword (reading_ m)
  /\ errors (reading_ r) = errors (reading_ m) ++ [TxPdoTypeError]
  /\ hasRead_ r = true
  /\ countEngaged (log w) = S (countEngaged (log m))
  /\ statusword (reading_ w) = statusword (reading_ m).
Proof.
  intros Htx Hmode Hc. cbv zeta.
  pose proof (updateRead_lifecycle decodeDriveState txPdo m) as Hl.
  pose proof (updateRead_errors decodeDriveState txPdo m) as He.
  pose proof (updateRead_countEngaged decodeDriveState txPdo m) as Hlog.
  pose proof (updateRead_reading decodeDriveState txPdo m) as Hreading.
  pose proof (updateWrite_preserves decodeDriveState
                (updateRead decodeDriveState txPdo m)) as Hp.
  pose proof (updateWrite_engages decodeDriveState
                (updateRead decodeDriveState txPdo m)) as Hw.
  cbv zeta in Hl, Hp, Hw.
  destruct Hl as (Hread & _ & Hrc & _ & _ & _ & Hrm & _).
  destruct Hp as (_ & _ & _ & _ & _ & _ & Hsw).
  destruct Hw as (Hcount & _).
  rewrite Htx in He, Hreading.
  assert (Hstatus : statusword (reading_ (updateRead decodeDriveState txPdo m))
                    = statusword (reading_ m))
    by (rewrite Hreading; reflexivity).
  assert (Heng : engages (updateRead decodeDriveState txPdo m) = true).
  { unfold engages. rewrite Hrm, Hrc, Hc, Hread.
    apply ModeOfOperationEnum_eqb_neq in Hmode. now rewrite Hmode. }
  rewrite Heng, Hlog in Hcount.
  repeat split; try assumption; [lia | congruence].
Qed.

Lemma unsupported_read_still_engages_witness :
  let m := armStateChange OperationEnabled
             (exampleDevice (exampleConfiguration RxPdoStandard TxPdoNA
                               CyclicSynchronousPositionMode false 1 0)
                OperationEnabled) in
  let w := updateWrite exampleDecode
             (updateRead exampleDecode (exampleTxPdo Fault) m) in
  countEngaged (log w) = 1%nat
  /\ statusword (reading_ w) = exampleStatusword OperationEnabled.
Proof.
  cbv zeta.
  destruct (unsupported_read_still_engages exampleDecode (exampleTxPdo Fault)
              (armStateChange OperationEnabled
                 (exampleDevice (exampleConfiguration RxPdoStandard TxPdoNA
                                   CyclicSynchronousPositionMode false 1 0)
                    OperationEnabled)))
    as (_ & _ & _ & Hcount & Hstatus).
  - reflexivity.
  - discriminate.
  - reflexivity.
  - split; [exact Hcount | exact Hstatus].
Defined.

(** ** The dwell between control words *)

Lemma engagePdoStateMachine_dwell (decodeDriveState : Z -> DriveState) (m : Maxon) :
  let e := engagePdoStateMachine decodeDriveState m in
  (clock m - driveStateChangeTimePoint_ m
   <= driveStateChangeMinTimeout (configuration_ m) ->
   controlword_ e = controlword_ m
   /\ driveStateChangeTimePoint_ e = driveStateChangeTimePoint_ m)
  /\ (driveStateChangeTimePoint_ e = driveStateChangeTimePoint_ m
      \/ driveStateChangeTimePoint_ e = clock m).
Proof.
  unfold engagePdoStateMachine, getDriveState, now. cbn.
  destruct (DriveState_eqb _ _); cbn.
  - destruct (_ <=? _); cbn; (split; [intros _; split; reflexivity | now left]).
  - destruct (Z.ltb_spec (driveStateChangeMinTimeout (configuration_ m))
                (clock m - driveStateChangeTimePoint_ m)); cbn.
    + destruct (getNextStateTransitionControlword _ _ _) as [cw m1] eqn:Hnext.
      assert (Hclock : clock m1 = clock m).
      { unfold getNextStateTransitionControlword in Hnext.
        destruct (pdoBranch _ _); inversion Hnext; reflexivity. }
      cbn. split; [lia | right; exact Hclock].
    + split; [intros _; split; reflexivity | now left].
Qed.

Lemma runAction_dwell (decodeDriveState : Z -> DriveState)
    (doUnitConversion : Command -> Command) (a : Action) (m : Maxon) :
  driveStateChangeTimePoint_ m <= clock m ->
  clock m - driveStateChangeTimePoint_ m
  <= driveStateChangeMinTimeout (configuration_ m) ->
  let m' := runAction decodeDriveState doUnitConversion a m in
  controlword_ m' = controlword_ m
  /\ driveStateChangeTimePoint_ m <= driveStateChangeTimePoint_ m'
  /\ driveStateChangeTimePoint_ m' <= clock m'.
Proof.
  intros Hpast Hdwell.
  destruct a as [d | f | | c | s]; cbn.
  - repeat split; lia.
  - destruct (updateRead_preserves decodeDriveState f m)
      as (_ & _ & Hcw & _ & _ & Htp & _ & Hclock).
    rewrite Hcw, Htp, Hclock. repeat split; lia.
  - unfold updateWrite.
    destruct (ModeOfOperationEnum_eqb (modeOfOperation_ m) NA); cbn.
    + repeat split; lia.
    + set (x := if conductStateChange_ m && hasRead_ m
                then engagePdoStateMachine decodeDriveState m else m).
      assert (Hx : controlword_ x = controlword_ m
                   /\ driveStateChangeTimePoint_ x = driveStateChangeTimePoint_ m
                   /\ clock x = clock m).
      { subst x. destruct (conductStateChange_ m && hasRead_ m); [| tauto].
        destruct (engagePdoStateMachine_dwell decodeDriveState m) as (H & _).
        destruct (H Hdwell) as (H1 & H2).
        pose proof (engagePdoStateMachine_frame decodeDriveState m) as Hf.
        cbv zeta in Hf. tauto. }
      destruct Hx as (H1 & H2 & H3).
      destruct (buildRxPdo x); cbn; rewrite H1, H2, H3; repeat split; lia.
  - pose proof (stageCommand_fields doUnitConversion c m) as H.
    pose proof (stageCommand_frame doUnitConversion c m) as H'.
    cbv zeta in H, H'.
    destruct H as (_ & _ & Hcw & _ & _ & _ & Htp & _).
    destruct H' as (_ & _ & _ & _ & _ & Hclock).
    rewrite Hcw, Htp, Hclock. repeat split; lia.
  - unfold now. repeat split; lia.
Qed.

(** X13: the minimum dwell.  From a time point of the last change that is
    not in the future, as long as no more than the configured minimum
    timeout has elapsed since, no operation changes the control word:
    whatever is read, staged, written or requested in between. *)
Theorem control_word_dwell (decodeDriveState : Z -> DriveState)
    (doUnitConversion : Command -> Command) (acts : list Action) :
  forall m : Maxon,
    driveStateChangeTimePoint_ m <= clock m ->
    clock (runActions decodeDriveState doUnitConversion acts m)
    - driveStateChangeTimePoint_ m
    <= driveStateChangeMinTimeout (configuration_ m) ->
    controlword_ (runActions decodeDriveState doUnitConversion acts m)
    = controlword_ m.
Proof.
  induction acts as [|a acts IH]; intros m Hpast Hdwell.
  - reflexivity.
  - unfold runActions in *. cbn [fold_left] in *.
    set (m1 := runAction decodeDriveState doUnitConversion a m) in *.
    destruct (runAction_configuration_clock decodeDriveState doUnitConversion a m)
      as (Hcfg & Hclock). fold m1 in Hcfg, Hclock.
    destruct (runActions_configuration_clock decodeDriveState doUnitConversion
                acts m1) as (_ & Hclock').
    unfold runActions in Hclock'.
    destruct (runAction_dwell decodeDriveState doUnitConversion a m Hpast)
      as (Hcw & Htp & Hpast1); [lia |]. fold m1 in Hcw, Htp, Hpast1.
    rewrite IH; [exact Hcw | exact Hpast1 |].
    rewrite Hcfg. lia.
Qed.

Lemma control_word_dwell_witness :
  let m := armStateChange OperationEnabled
             (exampleDevice (exampleConfiguration RxPdoStandard TxPdoStandard
                               CyclicSynchronousPositionMode true 1 0)
                SwitchedOn) in
  controlword_
    (runActions exampleDecode exampleConversion
       [ActTick 400; ActUpdateRead (exampleTxPdo SwitchedOn); ActUpdateWrite;
        ActTick 400; ActUpdateRead (exampleTxPdo SwitchedOn); ActUpdateWrite] m)
  = AllFalse.
Proof.
  cbv zeta.
  apply (control_word_dwell exampleDecode exampleConversion
           [ActTick 400; ActUpdateRead (exampleTxPdo SwitchedOn); ActUpdateWrite;
            ActTick 400; ActUpdateRead (exampleTxPdo SwitchedOn); ActUpdateWrite]
           (armStateChange OperationEnabled
              (exampleDevice (exampleConfiguration RxPdoStandard TxPdoStandard
                                CyclicSynchronousPositionMode true 1 0)
                 SwitchedOn))).
  - vm_compute. discriminate.
  - vm_compute. discriminate.
Defined.

(** ** A request that the drive never confirms *)

(** The success flag after a write that did not see the target. *)
Lemma updateWrite_unconfirmed (decodeDriveState : Z -> DriveState) (m : Maxon) :
  hasRead_ m = false
  \/ decodeDriveState (statusword (reading_ m)) <> targetDriveState_ m ->
  let w := updateWrite decodeDriveState m in
  stateChangeSuccessful_ w = stateChangeSuccessful_ m
  /\ conductStateChange_ w = conductStateChange_ m
  /\ (hasRead_ w = false \/ hasRead_ w = hasRead_ m).
Proof.
  intros Hun. unfold updateWrite.
  destruct (ModeOfOperationEnum_eqb (modeOfOperation_ m) NA); cbn.
  - repeat split. now right.
  - set (x := if conductStateChange_ m && hasRead_ m
              then engagePdoStateMachine decodeDriveState m else m).
    assert (Hx : stateChangeSuccessful_ x = stateChangeSuccessful_ m
                 /\ conductStateChange_ x = conductStateChange_ m
                 /\ (hasRead_ x = false \/ hasRead_ x = hasRead_ m)).
    { subst x. destruct (conductStateChange_ m && hasRead_ m) eqn:Hflags.
      - apply andb_true_iff in Hflags. destruct Hflags as (_ & Hread).
        destruct Hun as [Hun | Hun]; [congruence |].
        apply DriveState_eqb_neq in Hun.
        pose proof (engagePdoStateMachine_lifecycle decodeDriveState m) as He.
        pose proof (engagePdoStateMachine_flags decodeDriveState m) as Hf.
        cbv zeta in He, Hf. rewrite Hun in He.
        destruct He as (He1 & He2 & _).
        destruct Hf as (_ & [(_ & _ & _ & Hr) | (Hr & _)]).
        + split; [exact He1 | split; [exact He2 | right; exact Hr]].
        + split; [exact He1 | split; [exact He2 | left; exact Hr]].
      - repeat split. now right. }
    destruct (buildRxPdo x); cbn; exact Hx.
Qed.

(** A pending request stays pending and unconfirmed under actions that
    never confirm its target. *)
Lemma runAction_unconfirmed (decodeDriveState : Z -> DriveState)
    (doUnitConversion : Command -> Command) (target : DriveState)
    (a : Action) (m : Maxon) :
  neverConfirms decodeDriveState target a = true ->
  txPdoTypeEnum (configuration_ m) <> TxPdoNA ->
  targetDriveState_ m = target ->
  stateChangeSuccessful_ m = false ->
  conductStateChange_ m = true ->
  hasRead_ m = false
  \/ decodeDriveState (statusword (reading_ m)) <> target ->
  let m' := runAction decodeDriveState doUnitConversion a m in
  targetDriveState_ m' = target
  /\ stateChangeSuccessful_ m' = false
  /\ conductStateChange_ m' = true
  /\ (hasRead_ m' = false
      \/ decodeDriveState (statusword (reading_ m')) <> target).
Proof.
  intros Ha Htx Ht Hs Hc Hun.
  destruct a as [d | f | | c | s]; cbn in *; try discriminate.
  - repeat split; assumption.
  - pose proof (updateRead_lifecycle decodeDriveState f m) as H.
    cbv zeta in H.
    destruct H as (_ & Hrs & Hrc & _ & _ & Hrt & _ & Hrw).
    rewrite Hrs, Hrc, Hrt, (Hrw Htx).
    repeat split; try assumption. right.
    apply negb_true_iff in Ha. now apply DriveState_eqb_neq.
  - pose proof (updateWrite_preserves decodeDriveState m) as Hp.
    cbv zeta in Hp. destruct Hp as (_ & _ & _ & _ & Hwt & _ & Hsw).
    destruct (updateWrite_unconfirmed decodeDriveState m) as (Hws & Hwc & Hwr).
    { rewrite Ht. exact Hun. }
    rewrite Hwt, Hws, Hwc, Hsw. repeat split; try assumption.
    destruct Hwr as [Hwr | Hwr]; [now left |].
    rewrite Hwr. exact Hun.
  - pose proof (stageCommand_fields doUnitConversion c m) as H.
    pose proof (stageCommand_frame doUnitConversion c m) as H'.
    cbv zeta in H, H'.
    destruct H as (_ & _ & _ & _ & _ & Hr & _ & Htarget).
    destruct H' as (Hc' & Hread & Hs' & _).
    rewrite Htarget, Hs', Hc', Hread, Hr. repeat split; assumption.
Qed.

Lemma runActions_unconfirmed (decodeDriveState : Z -> DriveState)
    (doUnitConversion : Command -> Command) (target : DriveState)
    (acts : list Action) :
  forall m : Maxon,
    forallb (neverConfirms decodeDriveState target) acts = true ->
    txPdoTypeEnum (configuration_ m) <> TxPdoNA ->
    targetDriveState_ m = target ->
    stateChangeSuccessful_ m = false ->
    conductStateChange_ m = true ->
    hasRead_ m = false
    \/ decodeDriveState (statusword (reading_ m)) <> target ->
    let m' := runActions decodeDriveState doUnitConversion acts m in
    targetDriveState_ m' = target
    /\ stateChangeSuccessful_ m' = false
    /\ conductStateChange_ m' = true
    /\ (hasRead_ m' = false
        \/ decodeDriveState (statusword (reading_ m')) <> target).
Proof.
  induction acts as [|a acts IH]; intros m Hacts Htx Ht Hs Hc Hun.
  - cbn. repeat split; assumption.
  - cbn in Hacts. apply andb_true_iff in Hacts. destruct Hacts as (Ha & Hacts).
    destruct (runAction_unconfirmed decodeDriveState doUnitConversion target a m
                Ha Htx Ht Hs Hc Hun) as (Ht1 & Hs1 & Hc1 & Hun1).
    destruct (runAction_configuration_clock decodeDriveState doUnitConversion a m)
      as (Hcfg & _).
    unfold runActions in *. cbn [fold_left].
    apply IH; try assumption. now rewrite Hcfg.
Qed.

Lemma afterSleeps_unconfirmed (decodeDriveState : Z -> DriveState)
    (doUnitConversion : Command -> Command) (target : DriveState)
    (sleeps : list (list Action)) :
  forall (k : nat) (m : Maxon),
    forallb (forallb (neverConfirms decodeDriveState target)) sleeps = true ->
    txPdoTypeEnum (configuration_ m) <> TxPdoNA ->
    targetDriveState_ m = target ->
    stateChangeSuccessful_ m = false ->
    conductStateChange_ m = true ->
    hasRead_ m = false
    \/ decodeDriveState (statusword (reading_ m)) <> target ->
    let m' := afterSleeps decodeDriveState doUnitConversion sleeps k m in
    stateChangeSuccessful_ m' = false /\ conductStateChange_ m' = true.
Proof.
  induction sleeps as [|acts rest IH]; intros [|k] m Hall Htx Ht Hs Hc Hun;
    try (cbn; split; assumption).
  cbn in Hall. apply andb_true_iff in Hall. destruct Hall as (Hacts & Hall).
  rewrite afterSleeps_cons.
  destruct (runActions_unconfirmed decodeDriveState doUnitConversion target acts m
              Hacts Htx Ht Hs Hc Hun) as (Ht1 & Hs1 & Hc1 & Hun1).
  destruct (sleepUnlocked_configuration_clock decodeDriveState doUnitConversion
              acts m) as (Hcfg & _).
  apply IH; try assumption. now rewrite Hcfg.
Qed.

Lemma afterSleeps_clock (decodeDriveState : Z -> DriveState)
    (doUnitConversion : Command -> Command) (sleeps : list (list Action)) :
  forall (k : nat) (m : Maxon),
    (k <= length sleeps)%nat ->
    clock m + 1000 * Z.of_nat k
    <= clock (afterSleeps decodeDriveState doUnitConversion sleeps k m).
Proof.
  induction sleeps as [|acts rest IH]; intros [|k] m Hk;
    try (cbn in *; lia).
  rewrite afterSleeps_cons.
  destruct (sleepUnlocked_configuration_clock decodeDriveState doUnitConversion
              acts m) as (_ & Hclock).
  cbn [length] in Hk.
  specialize (IH k (sleepUnlocked decodeDriveState doUnitConversion acts m)).
  lia.
Qed.

(** X14: a waiting request that the drive never confirms fails at the
    timeout.  With a supported read variant, when no read during the wait
    decodes to the target and no other request intervenes, and the sleeps
    cover the configured maximum timeout, the caller receives [false] after
    more than the timeout, and the request is left pending. *)
Theorem unconfirmed_request_times_out (decodeDriveState : Z -> DriveState)
    (doUnitConversion : Command -> Command)
    (driveState : DriveState) (sleeps : list (list Action)) (m : Maxon) :
  txPdoTypeEnum (configuration_ m) <> TxPdoNA ->
  forallb (forallb (neverConfirms decodeDriveState driveState)) sleeps = true ->
  driveStateChangeMaxTimeout (configuration_ m)
  < 1000 * Z.of_nat (length sleeps) ->
  exists m' : Maxon,
    setDriveStateViaPdo decodeDriveState doUnitConversion driveState true sleeps m
    = Some (false, m')
    /\ conductStateChange_ m' = true
    /\ stateChangeSuccessful_ m' = false
    /\ driveStateChangeMaxTimeout (configuration_ m) < clock m' - clock m.
Proof.
  intros Htx Hall Hcover.
  set (armed := armStateChange driveState m).
  assert (Hflags : forall j : nat,
             stateChangeSuccessful_
               (afterSleeps decodeDriveState doUnitConversion sleeps j armed) = false
             /\ conductStateChange_
                  (afterSleeps decodeDriveState doUnitConversion sleeps j armed)
                = true).
  { intros j.
    apply (afterSleeps_unconfirmed decodeDriveState doUnitConversion driveState);
      try reflexivity; try assumption. now left. }
  pose proof (afterSleeps_clock decodeDriveState doUnitConversion sleeps
                (length sleeps) armed (Nat.le_refl _)) as Hclock.
  destruct (waitForStateChange_timeout decodeDriveState doUnitConversion sleeps
              (clock armed) (length sleeps) armed (Nat.le_refl _))
    as (j & Hj & Hres).
  - intros j _. apply Hflags.
  - change (configuration_ armed) with (configuration_ m). lia.
  - exists (afterSleeps decodeDriveState doUnitConversion sleeps j armed).
    destruct (waitForStateChange_result decodeDriveState doUnitConversion sleeps
                (clock armed) armed _ _ Hres) as (k & _ & _ & _ & Hlate).
    specialize (Hlate eq_refl).
    rewrite afterSleeps_configuration in Hlate.
    destruct (Hflags j) as (Hs & Hc).
    repeat split; try assumption.
Qed.

Lemma unconfirmed_request_times_out_witness :
  let m := exampleDevice (exampleConfiguration RxPdoStandard TxPdoStandard
                            CyclicSynchronousPositionMode true 2 1500)
             Fault in
  let cycle := [ActUpdateRead (exampleTxPdo Fault); ActUpdateWrite] in
  exists m' : Maxon,
    setDriveStateViaPdo exampleDecode exampleConversion OperationEnabled true
      [cycle; cycle] m = Some (false, m')
    /\ conductStateChange_ m' = true.
Proof.
  cbv zeta.
  destruct (unconfirmed_request_times_out exampleDecode exampleConversion
              OperationEnabled
              [[ActUpdateRead (exampleTxPdo Fault); ActUpdateWrite];
               [ActUpdateRead (exampleTxPdo Fault); ActUpdateWrite]]
              (exampleDevice (exampleConfiguration RxPdoStandard TxPdoStandard
                                CyclicSynchronousPositionMode true 2 1500)
                 Fault))
    as (m' & Hres & Hc & _).
  - discriminate.
  - reflexivity.
  - vm_compute. reflexivity.
  - exists m'. split; [exact Hres | exact Hc].
Defined.

(** ** Confirmations left over from an earlier request *)

(** X15: a new request does not reset the confirmation counter.  When a
    request is armed while the counter stands at [c] (below the configured
    minimum), it completes exactly when [c] plus the number of its own
    confirming reads reaches the minimum, that is after fewer confirming
    reads than configured when [c] is positive. *)
Theorem rearmed_request_inherits_confirmations
    (decodeDriveState : Z -> DriveState) (doUnitConversion : Command -> Command)
    (driveState : DriveState) (m : Maxon) (cycles : list (N * TxPdo)) :
  modeOfOperation_ m <> NA ->
  txPdoTypeEnum (configuration_ m) <> TxPdoNA ->
  0 <= numberOfSuccessfulTargetStateReadings_ m
    < minNumberOfSuccessfulTargetStateReadings (configuration_ m) ->
  let armed := armStateChange driveState m in
  let m' := runCycles decodeDriveState doUnitConversion cycles armed in
  numberOfSuccessfulTargetStateReadings_ armed
  = numberOfSuccessfulTargetStateReadings_ m
  /\ (stateChangeSuccessful_ m' = true
      <-> minNumberOfSuccessfulTargetStateReadings (configuration_ m)
          <= numberOfSuccessfulTargetStateReadings_ m
             + confirming decodeDriveState driveState cycles).
Proof.
  intros Hmode Htx Hc armed m'.
  split; [reflexivity |].
  assert (H0 : lifecycleAfter driveState
                 (numberOfSuccessfulTargetStateReadings_ m) armed).
  { unfold lifecycleAfter, armed. cbn. repeat split; try assumption.
    left. repeat split; lia. }
  destruct (runCycles_lifecycle decodeDriveState doUnitConversion driveState
              cycles _ armed H0) as (Hinv & Hcfg).
  fold m' in Hinv, Hcfg.
  destruct Hinv as (_ & _ & _ & Hlife). rewrite Hcfg in Hlife.
  change (configuration_ armed) with (configuration_ m) in Hlife.
  destruct Hlife as [(Hs & _ & _ & Hlt) | (Hs & _ & _ & Hge)].
  - split; [congruence | lia].
  - split; [intros _; exact Hge | intros _; exact Hs].
Qed.

Lemma rearmed_request_inherits_confirmations_witness :
  let cfg := exampleConfiguration RxPdoStandard TxPdoStandard
               CyclicSynchronousPositionMode true 3 1000000 in
  let unfinished :=
    runCycles exampleDecode exampleConversion
      [(1000%N, exampleTxPdo SwitchedOn); (1000%N, exampleTxPdo SwitchedOn)]
      (armStateChange SwitchedOn (exampleDevice cfg SwitchedOn)) in
  numberOfSuccessfulTargetStateReadings_ unfinished = 2
  /\ stateChangeSuccessful_
       (runCycles exampleDecode exampleConversion
          [(1000%N, exampleTxPdo OperationEnabled)]
          (armStateChange OperationEnabled unfinished)) = true.
Proof.
  cbv zeta. split; [reflexivity |].
  apply (rearmed_request_inherits_confirmations exampleDecode exampleConversion
           OperationEnabled
           (runCycles exampleDecode exampleConversion
              [(1000%N, exampleTxPdo SwitchedOn); (1000%N, exampleTxPdo SwitchedOn)]
              (armStateChange SwitchedOn
                 (exampleDevice
                    (exampleConfiguration RxPdoStandard TxPdoStandard
                       CyclicSynchronousPositionMode true 3 1000000)
                    SwitchedOn)))
           [(1000%N, exampleTxPdo OperationEnabled)]).
  - vm_compute. discriminate.
  - vm_compute. discriminate.
  - vm_compute. split; [discriminate | reflexivity].
  - vm_compute. discriminate.
Defined.

(** ** The helper [binstring] *)

(** The test of one bit in the loop of [binstring]. *)
Lemma land_shiftl_bit (v : Z) (k : nat) :
  (Z.land v (Z.shiftl 1 (Z.of_nat k)) =? 0) = negb (Z.testbit v (Z.of_nat k)).
Proof.
  rewrite Z.shiftl_1_l.
  destruct (Z.testbit v (Z.of_nat k)) eqn:Hbit; cbn.
  - apply Z.eqb_neq. intros Hzero.
    assert (H : Z.testbit (Z.land v (2 ^ Z.of_nat k)) (Z.of_nat k) = true).
    { rewrite Z.land_spec, Hbit, Z.pow2_bits_true by lia. reflexivity. }
    rewrite Hzero, Z.bits_0 in H. discriminate.
  - apply Z.eqb_eq. apply Z.bits_inj'. intros n Hn.
    rewrite Z.land_spec, Z.bits_0.
    destruct (Z.eq_dec (Z.of_nat k) n) as [<- | Hne].
    + now rewrite Hbit.
    + rewrite (Z.pow2_bits_false _ _ Hne). apply andb_false_r.
Qed.

Lemma setAt_middle (a b : list ascii) (x c : ascii) (i : nat) :
  i = length a ->
  setAt (a ++ x :: b) i c = a ++ c :: b.
Proof.
  intros ->. unfold setAt.
  rewrite firstn_app, firstn_all, Nat.sub_diag. cbn [firstn].
  rewrite app_nil_r, skipn_app, skipn_all2 by lia.
  replace (S (length a) - length a)%nat with 1%nat by lia. reflexivity.
Qed.

(** The loop writes, at each position, the digit of the bit it tests. *)
Lemma binstringLoop_bits (width : nat) (var : Z) :
  binstringLoop width var
  = map (fun i => if Z.testbit var (Z.of_nat (width - 1 - i))
                  then "1"%char else "0"%char)
      (seq 0 width).
Proof.
  unfold binstringLoop.
  set (step := fun (s : list ascii) (i : nat) =>
                 if Z.land var (Z.shiftl 1 (Z.of_nat (width - 1 - i))) =? 0
                 then s else setAt s i "1"%char).
  set (digit := fun i : nat =>
                  if Z.testbit var (Z.of_nat (width - 1 - i))
                  then "1"%char else "0"%char).
  assert (Hinv : forall k : nat,
             (k <= width)%nat ->
             fold_left step (seq 0 k) (repeat "0"%char width)
             = map digit (seq 0 k) ++ repeat "0"%char (width - k)).
  { induction k as [|k IH]; intros Hk.
    - cbn. now rewrite Nat.sub_0_r.
    - rewrite seq_S, fold_left_app, IH, map_app by lia. cbn [fold_left map Nat.add].
      replace (width - k)%nat with (S (width - S k)) by lia. cbn [repeat].
      assert (Hlen : length (map digit (seq 0 k)) = k)
        by now rewrite length_map, length_seq.
      assert (Hdigit : digit k
                       = if Z.testbit var (Z.of_nat (width - 1 - k))
                         then "1"%char else "0"%char) by reflexivity.
      unfold step at 1. rewrite land_shiftl_bit, Hdigit.
      destruct (Z.testbit var (Z.of_nat (width - 1 - k))); cbn [negb].
      + rewrite setAt_middle by (symmetry; exact Hlen).
        rewrite <- app_assoc. reflexivity.
      + rewrite <- app_assoc. reflexivity. }
  rewrite (Hinv width (Nat.le_refl _)), Nat.sub_diag. cbn. apply app_nil_r.
Qed.

Lemma binaryValue_snoc (s : list ascii) (c : ascii) :
  binaryValue (s ++ [c])
  = 2 * binaryValue s + if Ascii.eqb c "1"%char then 1 else 0.
Proof. unfold binaryValue. now rewrite fold_left_app. Qed.

(** The digits of the [width] low bits denote the argument modulo
    [2 ^ width]. *)
Lemma binaryValue_bits (width : nat) :
  forall var : Z,
    binaryValue
      (map (fun i => if Z.testbit var (Z.of_nat (width - 1 - i))
                     then "1"%char else "0"%char)
         (seq 0 width))
    = var mod 2 ^ Z.of_nat width.
Proof.
  induction width as [|width IH]; intros var.
  - cbn. now rewrite Z.mod_1_r.
  - rewrite seq_S, map_app. cbn [map Nat.add]. rewrite binaryValue_snoc.
    rewrite (map_ext_in _
               (fun i => if Z.testbit (var / 2) (Z.of_nat (width - 1 - i))
                         then "1"%char else "0"%char)).
    + rewrite IH.
      replace (S width - 1 - width)%nat with 0%nat by lia.
      change (Z.of_nat 0) with 0.
      pose proof (Z.bit0_mod var) as Hbit.
      rewrite Nat2Z.inj_succ, Z.pow_succ_r by lia.
      rewrite (Z.rem_mul_r var 2 (2 ^ Z.of_nat width)) by lia.
      destruct (Z.testbit var 0); cbn in Hbit |- *; lia.
    + intros i Hi. apply in_seq in Hi.
      rewrite Z.div2_bits by lia.
      replace (Z.of_nat (S width - 1 - i)) with (Z.succ (Z.of_nat (width - 1 - i)))
        by lia.
      reflexivity.
Qed.

Lemma binstringLoop_digits (width : nat) (var : Z) :
  length (binstringLoop width var) = width
  /\ forallb isBinaryDigit (binstringLoop width var) = true.
Proof.
  rewrite binstringLoop_bits. split.
  - now rewrite length_map, length_seq.
  - apply forallb_forall. intros c Hc. apply in_map_iff in Hc.
    destruct Hc as (i & <- & _).
    destruct (Z.testbit var _); reflexivity.
Qed.

(** X16: [binstring] of a 16-bit unsigned value is a string of sixteen
    binary digits, most significant first, that denotes the value: the
    value can be read back from the string, so that distinct values give
    distinct strings. *)
Theorem binstring_uint16_round_trip (var : Z) :
  0 <= var < 65536 ->
  length (binstring_uint16 var) = 16%nat
  /\ forallb isBinaryDigit (binstring_uint16 var) = true
  /\ binaryValue (binstring_uint16 var) = var.
Proof.
  intros Hrange. unfold binstring_uint16.
  destruct (binstringLoop_digits 16 var) as (Hlen & Hdigits).
  split; [exact Hlen | split; [exact Hdigits |]].
  rewrite binstringLoop_bits, binaryValue_bits.
  apply Z.mod_small. cbn. lia.
Qed.

Lemma binstring_uint16_round_trip_witness :
  binaryValue (binstring_uint16 0x0237) = 0x0237.
Proof.
  apply (binstring_uint16_round_trip 0x0237). lia.
Defined.

(** X17: [binstring] of a signed 8-bit value is the string of the eight
    binary digits of its two's complement: it denotes the value itself when
    that is not negative, and the value plus 256 when it is. *)
Theorem binstring_int8_twos_complement (var : Z) :
  -128 <= var < 128 ->
  length (binstring_int8 var) = 8%nat
  /\ forallb isBinaryDigit (binstring_int8 var) = true
  /\ binaryValue (binstring_int8 var) = if var <? 0 then var + 256 else var.
Proof.
  intros Hrange. unfold binstring_int8.
  destruct (binstringLoop_digits 8 var) as (Hlen & Hdigits).
  split; [exact Hlen | split; [exact Hdigits |]].
  rewrite binstringLoop_bits, binaryValue_bits.
  change (2 ^ Z.of_nat 8) with 256.
  destruct (Z.ltb_spec var 0).
  - rewrite <- (Z.mod_small (var + 256) 256) by lia.
    replace (var + 256) with (var + 1 * 256) by lia.
    now rewrite Z.mod_add by lia.
  - apply Z.mod_small. lia.
Qed.

Lemma binstring_int8_twos_complement_witness :
  binaryValue (binstring_int8 (-3)) = 253.
Proof.
  apply (binstring_int8_twos_complement (-3)). lia.
Defined.

(** ** A request on a drive that follows the tables *)

(** The first hop of a path is an edge, and the rest of the path is the
    path from where that edge leads. *)
Lemma path_first_hop (requested current : DriveState) :
  requested <> Fault ->
  current <> requested ->
  exists (t : StateTransition) (next : DriveState),
    pdoBranch requested current = PdoTransition t
    /\ edge t current = Some next
    /\ sdoTransitionList requested current
       = t :: sdoTransitionList requested next.
Proof.
  intros Hnf Hne.
  destruct requested, current; try congruence;
    eexists; eexists; repeat split.
Qed.

(** No transition is an edge from the state it leads to. *)
Lemma edge_not_repeated (t : StateTransition) (s s' : DriveState) :
  edge t s = Some s' -> edge t s' = None.
Proof. destruct t, s; cbn; intros H; inversion H; reflexivity. Qed.

(** What a write does that evaluates a read other than the target after
    the dwell: it issues the next transition and stamps the time. *)
Lemma engagePdoStateMachine_issues (decodeDriveState : Z -> DriveState)
    (t : StateTransition) (m : Maxon) :
  pdoBranch (targetDriveState_ m) (decodeDriveState (statusword (reading_ m)))
  = PdoTransition t ->
  decodeDriveState (statusword (reading_ m)) <> targetDriveState_ m ->
  driveStateChangeMinTimeout (configuration_ m)
  < clock m - driveStateChangeTimePoint_ m ->
  let e := engagePdoStateMachine decodeDriveState m in
  controlword_ e = StateTransitionPreset t
  /\ driveStateChangeTimePoint_ e = clock m.
Proof.
  intros Hbranch Hne Hdwell.
  apply DriveState_eqb_neq in Hne. apply Z.ltb_lt in Hdwell.
  unfold engagePdoStateMachine, getDriveState, now. cbn.
  rewrite Hne, Hdwell. cbn.
  unfold getNextStateTransitionControlword. rewrite Hbranch. cbn.
  split; reflexivity.
Qed.

(** A write that evaluates a read of the target leaves the control word
    and the time point as they are. *)
Lemma engagePdoStateMachine_confirming (decodeDriveState : Z -> DriveState)
    (m : Maxon) :
  decodeDriveState (statusword (reading_ m)) = targetDriveState_ m ->
  controlword_ (engagePdoStateMachine decodeDriveState m) = controlword_ m.
Proof.
  intros Heq. apply DriveState_eqb_eq in Heq.
  unfold engagePdoStateMachine, getDriveState. cbn. rewrite Heq. cbn.
  destruct (_ <=? _); reflexivity.
Qed.

Lemma updateWrite_controlword (decodeDriveState : Z -> DriveState) (m : Maxon) :
  controlword_ (updateWrite decodeDriveState m)
  = controlword_ (if engages m
                  then engagePdoStateMachine decodeDriveState m else m)
  /\ driveStateChangeTimePoint_ (updateWrite decodeDriveState m)
     = driveStateChangeTimePoint_
         (if engages m then engagePdoStateMachine decodeDriveState m else m).
Proof.
  unfold updateWrite, engages.
  destruct (ModeOfOperationEnum_eqb (modeOfOperation_ m) NA); cbn.
  - split; reflexivity.
  - destruct (buildRxPdo _); cbn; split; reflexivity.
Qed.

(** With a resolved mode and a supported variant, the last frame on the
    bus after a write carries the control word that the device holds. *)
Lemma updateWrite_lastControlWord (decodeDriveState : Z -> DriveState) (m : Maxon) :
  modeOfOperation_ m <> NA ->
  rxPdoTypeEnum (configuration_ m) <> RxPdoNA ->
  lastControlWord (updateWrite decodeDriveState m)
  = Some (controlword_ (updateWrite decodeDriveState m)).
Proof.
  intros Hmode Hrx. unfold updateWrite.
  apply ModeOfOperationEnum_eqb_neq in Hmode. rewrite Hmode.
  set (x := if conductStateChange_ m && hasRead_ m
            then engagePdoStateMachine decodeDriveState m else m).
  assert (Hcfg : configuration_ x = configuration_ m).
  { subst x. destruct (conductStateChange_ m && hasRead_ m); [| reflexivity].
    pose proof (engagePdoStateMachine_frame decodeDriveState m) as H.
    cbv zeta in H. tauto. }
  unfold buildRxPdo. rewrite Hcfg.
  destruct (rxPdoTypeEnum (configuration_ m)); try congruence;
    unfold lastControlWord; cbn; rewrite rev_unit; reflexivity.
Qed.

(** With a resolved mode and a supported variant, a bus cycle puts one
    frame on the bus, with the control word that the device then holds. *)
Lemma cycle_controlWordsOnBus (decodeDriveState : Z -> DriveState)
    (doUnitConversion : Command -> Command) (c : N * TxPdo) (m : Maxon) :
  modeOfOperation_ m <> NA ->
  rxPdoTypeEnum (configuration_ m) <> RxPdoNA ->
  controlWordsOnBus
    (runActions decodeDriveState doUnitConversion (cycleActions c) m)
  = controlWordsOnBus m
    ++ [controlword_
          (runActions decodeDriveState doUnitConversion (cycleActions c) m)].
Proof.
  intros Hmode Hrx.
  unfold cycleActions, runActions. cbn [fold_left runAction].
  destruct (updateRead_preserves decodeDriveState (snd c)
              (set_clock (clock m + Z.of_N (fst c)) m))
    as (Hcfg & _ & _ & Hm & _ & _ & Hbus & _).
  set (r := updateRead decodeDriveState (snd c)
              (set_clock (clock m + Z.of_N (fst c)) m)) in *.
  cbn in Hcfg, Hm, Hbus.
  assert (Hbus' : controlWordsOnBus m = controlWordsOnBus r)
    by (unfold controlWordsOnBus; now rewrite Hbus).
  rewrite Hbus'.
  assert (Hmode_r : ModeOfOperationEnum_eqb (modeOfOperation_ r) NA = false)
    by (apply ModeOfOperationEnum_eqb_neq; congruence).
  unfold updateWrite. rewrite Hmode_r.
  set (x := if conductStateChange_ r && hasRead_ r
            then engagePdoStateMachine decodeDriveState r else r).
  assert (Hx : configuration_ x = configuration_ r /\ bus_ x = bus_ r).
  { subst x. destruct (conductStateChange_ r && hasRead_ r); [| tauto].
    pose proof (engagePdoStateMachine_frame decodeDriveState r) as H.
    cbv zeta in H. tauto. }
  destruct Hx as (Hxcfg & Hxbus).
  unfold buildRxPdo. rewrite Hxcfg, Hcfg.
  destruct (rxPdoTypeEnum (configuration_ m)); try congruence;
    unfold controlWordsOnBus; cbn; rewrite Hxbus, map_app; reflexivity.
Qed.

Lemma cycle_lastControlWord (decodeDriveState : Z -> DriveState)
    (doUnitConversion : Command -> Command) (c : N * TxPdo) (m : Maxon) :
  modeOfOperation_ m <> NA ->
  rxPdoTypeEnum (configuration_ m) <> RxPdoNA ->
  lastControlWord (runActions decodeDriveState doUnitConversion (cycleActions c) m)
  = Some (controlword_
            (runActions decodeDriveState doUnitConversion (cycleActions c) m)).
Proof.
  intros Hmode Hrx.
  unfold cycleActions, runActions. cbn [fold_left runAction].
  destruct (updateRead_preserves decodeDriveState (snd c)
              (set_clock (clock m + Z.of_N (fst c)) m))
    as (Hcfg & _ & _ & Hm & _).
  apply updateWrite_lastControlWord.
  - rewrite Hm. exact Hmode.
  - rewrite Hcfg. exact Hrx.
Qed.

Section ClosedLoop.

Variable decodeDriveState : Z -> DriveState.
Variable doUnitConversion : Command -> Command.
Variable encode : DriveState -> Z.
Variable dt : N.
Variable target : DriveState.

Hypothesis decode_encode : forall s : DriveState, decodeDriveState (encode s) = s.
Hypothesis target_not_fault : target <> Fault.

Local Abbreviation cycle :=
  (closedLoopCycle decodeDriveState doUnitConversion encode dt).
Local Abbreviation loop :=
  (closedLoop decodeDriveState doUnitConversion encode dt).

Lemma closedLoop_add (a b : nat) :
  forall dm : DriveState * Maxon, loop (a + b) dm = loop b (loop a dm).
Proof.
  induction a as [|a IH]; intros dm; cbn; [reflexivity | apply IH].
Qed.

(** One cycle on a drive that has not reached the target: the device
    issues the first transition of the path, the drive takes it, and the
    request stays pending. *)
Lemma hop_cycle (d : DriveState) (m : Maxon) :
  d <> target ->
  modeOfOperation_ m <> NA ->
  txPdoTypeEnum (configuration_ m) <> TxPdoNA ->
  rxPdoTypeEnum (configuration_ m) <> RxPdoNA ->
  targetDriveState_ m = target ->
  stateChangeSuccessful_ m = false ->
  conductStateChange_ m = true ->
  driveStateChangeTimePoint_ m <= clock m ->
  driveStateChangeMinTimeout (configuration_ m) < Z.of_N dt ->
  let d' := fst (cycle (d, m)) in
  let m' := snd (cycle (d, m)) in
  (exists t : StateTransition,
      controlword_ m' = StateTransitionPreset t
      /\ sdoTransitionList target d = t :: sdoTransitionList target d')
  /\ controlWordsOnBus m' = controlWordsOnBus m ++ [controlword_ m']
  /\ driveReacts (controlword_ m') d' = d'
  /\ modeOfOperation_ m' = modeOfOperation_ m
  /\ configuration_ m' = configuration_ m
  /\ targetDriveState_ m' = target
  /\ stateChangeSuccessful_ m' = false
  /\ conductStateChange_ m' = true
  /\ numberOfSuccessfulTargetStateReadings_ m'
     = numberOfSuccessfulTargetStateReadings_ m
  /\ driveStateChangeTimePoint_ m' <= clock m'.
Proof.
  intros Hne Hmode Htx Hrx Ht Hs Hc Hpast Hdt.
  pose proof (cycle_lastControlWord decodeDriveState doUnitConversion
                (dt, statusFrame encode d) m Hmode Hrx) as Hlast.
  pose proof (cycle_controlWordsOnBus decodeDriveState doUnitConversion
                (dt, statusFrame encode d) m Hmode Hrx) as Hbus.
  unfold closedLoopCycle. cbn [fst snd]. rewrite Hlast, Hbus. clear Hlast Hbus.
  unfold cycleActions, runActions.
  cbn [fold_left runAction fst snd].
  set (t0 := set_clock (clock m + Z.of_N dt) m).
  pose proof (updateRead_lifecycle decodeDriveState (statusFrame encode d) t0) as Hr.
  pose proof (updateRead_preserves decodeDriveState (statusFrame encode d) t0) as Hp.
  cbv zeta in Hr, Hp.
  set (r := updateRead decodeDriveState (statusFrame encode d) t0) in *.
  destruct Hr as (Hread & Hrs & Hrc & Hrn & Hrcfg & Hrt & Hrm & Hrw).
  destruct Hp as (_ & _ & Hrcw & _ & _ & Hrtp & _ & Hrclock).
  cbn in Hrs, Hrc, Hrn, Hrcfg, Hrt, Hrm, Hrw, Hrcw, Hrtp, Hrclock.
  specialize (Hrw Htx). cbn in Hrw.
  assert (Hcur : decodeDriveState (statusword (reading_ r)) = d)
    by (rewrite Hrw; apply decode_encode).
  assert (Hmode_r : modeOfOperation_ r <> NA) by congruence.
  assert (Heng : engages r = true).
  { unfold engages. rewrite Hrc, Hc, Hread.
    apply ModeOfOperationEnum_eqb_neq in Hmode_r. now rewrite Hmode_r. }
  destruct (path_first_hop target d target_not_fault Hne)
    as (t & next & Hbranch & Hedge & Hpath).
  destruct (engagePdoStateMachine_issues decodeDriveState t r) as (Hecw & Hetp).
  { rewrite Hcur, Hrt, Ht. exact Hbranch. }
  { rewrite Hcur, Hrt, Ht. exact Hne. }
  { rewrite Hrcfg, Hrclock, Hrtp. lia. }
  destruct (updateWrite_controlword decodeDriveState r) as (Hwcw & Hwtp).
  rewrite Heng in Hwcw, Hwtp. rewrite Hecw in Hwcw. rewrite Hetp in Hwtp.
  pose proof (updateWrite_lifecycle decodeDriveState r Hmode_r) as Hw.
  pose proof (updateWrite_preserves decodeDriveState r) as Hwp.
  pose proof (engagePdoStateMachine_lifecycle decodeDriveState r) as He.
  cbv zeta in Hw, Hwp, He.
  rewrite Hrc, Hc, Hread in Hw. cbn [andb] in Hw.
  assert (Hneq : DriveState_eqb (decodeDriveState (statusword (reading_ r)))
                   (targetDriveState_ r) = false).
  { apply DriveState_eqb_neq. rewrite Hcur, Hrt, Ht. exact Hne. }
  rewrite Hneq in He.
  destruct He as (He1 & He2 & He3).
  destruct Hw as (Hws & Hwc & Hwn & Hwcfg & Hwt & Hwm).
  destruct Hwp as (_ & _ & _ & _ & _ & Hwclock & _).
  set (w := updateWrite decodeDriveState r) in *.
  rewrite Hwcw. cbn [driveReacts]. rewrite Hedge.
  rewrite (edge_not_repeated _ _ _ Hedge).
  split; [exists t; split; [reflexivity | exact Hpath] |].
  repeat split; try congruence.
  rewrite Hwtp, Hwclock. lia.
Qed.

(** One cycle on a drive that rests in the target: the read confirms, the
    control word and the drive stay as they are. *)
Lemma confirm_cycle (n : Z) (m : Maxon) :
  lifecycleAfter target n m ->
  rxPdoTypeEnum (configuration_ m) <> RxPdoNA ->
  driveReacts (controlword_ m) target = target ->
  let m' := snd (cycle (target, m)) in
  fst (cycle (target, m)) = target
  /\ lifecycleAfter target (n + 1) m'
  /\ controlword_ m' = controlword_ m
  /\ configuration_ m' = configuration_ m.
Proof.
  intros Hlife Hrx Hrest.
  pose proof (cycle_lastControlWord decodeDriveState doUnitConversion
                (dt, statusFrame encode target) m
                (proj1 Hlife) Hrx) as Hlast.
  destruct (cycle_lifecycle decodeDriveState doUnitConversion target n
              (dt, statusFrame encode target) m Hlife) as (Hlife' & Hcfg).
  assert (Hconfirms : confirms decodeDriveState target
                        (dt, statusFrame encode target) = true).
  { unfold confirms. cbn. rewrite decode_encode. apply DriveState_eqb_refl. }
  rewrite Hconfirms in Hlife'.
  assert (Hcw : controlword_
                  (runActions decodeDriveState doUnitConversion
                     (cycleActions (dt, statusFrame encode target)) m)
                = controlword_ m).
  { unfold cycleActions, runActions. cbn [fold_left runAction fst snd].
    set (t0 := set_clock (clock m + Z.of_N dt) m).
    pose proof (updateRead_lifecycle decodeDriveState
                  (statusFrame encode target) t0) as Hr.
    pose proof (updateRead_preserves decodeDriveState
                  (statusFrame encode target) t0) as Hp.
    cbv zeta in Hr, Hp.
    set (r := updateRead decodeDriveState (statusFrame encode target) t0) in *.
    destruct Hr as (_ & _ & _ & _ & _ & Hrt & _ & Hrw).
    destruct Hp as (_ & _ & Hrcw & _).
    destruct Hlife as (_ & Htx & Ht & _).
    specialize (Hrw Htx). cbn in Hrw, Hrt, Hrcw.
    destruct (updateWrite_controlword decodeDriveState r) as (Hwcw & _).
    rewrite Hwcw. destruct (engages r); [| exact Hrcw].
    rewrite engagePdoStateMachine_confirming; [exact Hrcw |].
    rewrite Hrw, Hrt, Ht. apply decode_encode. }
  cbv zeta. unfold closedLoopCycle. cbn [fst snd].
  rewrite Hlast, Hcw, Hrest.
  split; [reflexivity | split; [exact Hlife' | split; [reflexivity | exact Hcfg]]].
Qed.

Lemma confirm_cycles (k : nat) :
  forall (n : Z) (m : Maxon),
    lifecycleAfter target n m ->
    rxPdoTypeEnum (configuration_ m) <> RxPdoNA ->
    driveReacts (controlword_ m) target = target ->
    fst (loop k (target, m)) = target
    /\ lifecycleAfter target (n + Z.of_nat k) (snd (loop k (target, m)))
    /\ configuration_ (snd (loop k (target, m))) = configuration_ m.
Proof.
  induction k as [|k IH]; intros n m Hlife Hrx Hrest.
  - cbn. rewrite Z.add_0_r. split; [reflexivity | split; [exact Hlife | reflexivity]].
  - destruct (confirm_cycle n m Hlife Hrx Hrest) as (Hd & Hlife' & Hcw & Hcfg).
    cbn [closedLoop].
    rewrite (surjective_pairing (cycle (target, m))), Hd.
    destruct (IH (n + 1) (snd (cycle (target, m))) Hlife')
      as (Hd' & Hlife'' & Hcfg').
    { rewrite Hcfg. exact Hrx. }
    { rewrite Hcw. exact Hrest. }
    split; [exact Hd' | split; [| congruence]].
    replace (n + Z.of_nat (S k)) with (n + 1 + Z.of_nat k) by lia.
    exact Hlife''.
Qed.

Lemma hop_cycles (hops : nat) :
  forall (d : DriveState) (m : Maxon),
    length (sdoTransitionList target d) = hops ->
    driveReacts (controlword_ m) d = d ->
    modeOfOperation_ m <> NA ->
    txPdoTypeEnum (configuration_ m) <> TxPdoNA ->
    rxPdoTypeEnum (configuration_ m) <> RxPdoNA ->
    targetDriveState_ m = target ->
    stateChangeSuccessful_ m = false ->
    conductStateChange_ m = true ->
    driveStateChangeTimePoint_ m <= clock m ->
    driveStateChangeMinTimeout (configuration_ m) < Z.of_N dt ->
    let m' := snd (loop hops (d, m)) in
    fst (loop hops (d, m)) = target
    /\ controlWordsOnBus m'
       = controlWordsOnBus m
         ++ map setStateTransition (sdoTransitionList target d)
    /\ driveReacts (controlword_ m') target = target
    /\ modeOfOperation_ m' = modeOfOperation_ m
    /\ configuration_ m' = configuration_ m
    /\ targetDriveState_ m' = target
    /\ stateChangeSuccessful_ m' = false
    /\ conductStateChange_ m' = true
    /\ numberOfSuccessfulTargetStateReadings_ m'
       = numberOfSuccessfulTargetStateReadings_ m.
Proof.
  induction hops as [|hops IH];
    intros d m Hlen Hrest Hmode Htx Hrx Ht Hs Hc Hpast Hdt.
  - assert (Hd : d = target).
    { destruct (DriveState_eqb d target) eqn:Heq;
        [now apply DriveState_eqb_eq |].
      apply DriveState_eqb_neq in Heq.
      destruct (path_first_hop target d target_not_fault Heq)
        as (t & next & _ & _ & Hpath).
      rewrite Hpath in Hlen. discriminate. }
    subst d. cbn.
    assert (Hnil : sdoTransitionList target target = [])
      by (destruct target; try reflexivity; congruence).
    rewrite Hnil. cbn. rewrite app_nil_r. repeat split; assumption.
  - assert (Hne : d <> target).
    { intros ->. destruct target; cbn in Hlen; congruence. }
    destruct (hop_cycle d m Hne Hmode Htx Hrx Ht Hs Hc Hpast Hdt)
      as ((t & Hcw & Hpath) & Hbus & Hrest' & Hm' & Hcfg' & Ht' & Hs' & Hc'
          & Hn' & Hpast').
    cbn [closedLoop].
    rewrite (surjective_pairing (cycle (d, m))).
    destruct (IH (fst (cycle (d, m))) (snd (cycle (d, m)))) as
      (Hd'' & Hbus'' & Hrest'' & Hm'' & Hcfg'' & Ht'' & Hs'' & Hc'' & Hn'');
      try assumption; try congruence.
    + rewrite Hpath in Hlen. cbn in Hlen. now injection Hlen.
    + rewrite Hbus'', Hbus, Hcw, Hpath. cbn [map].
      rewrite <- app_assoc. cbn [app].
      repeat split; try assumption; congruence.
Qed.

End ClosedLoop.

(** X18: a request on a drive that follows the tables completes.  Take a
    drive at rest under the control word the device holds, a resolved mode,
    supported frame variants, a confirmation counter of zero, a target
    other than [Fault] and bus cycles longer than the minimum dwell.  After
    arming, the drive reaches the target in as many cycles as the path has
    transitions, the frames of these cycles carrying the transitions of the
    path in order, one per cycle; after as many further cycles
    as the configured minimum of confirming reads (at least one) the change
    is complete, with the drive in the target state. *)
Theorem request_reaches_target (decodeDriveState : Z -> DriveState)
    (doUnitConversion : Command -> Command) (encode : DriveState -> Z)
    (dt : N) (target d : DriveState) (m : Maxon) :
  (forall s : DriveState, decodeDriveState (encode s) = s) ->
  target <> Fault ->
  driveReacts (controlword_ m) d = d ->
  modeOfOperation_ m <> NA ->
  txPdoTypeEnum (configuration_ m) <> TxPdoNA ->
  rxPdoTypeEnum (configuration_ m) <> RxPdoNA ->
  numberOfSuccessfulTargetStateReadings_ m = 0 ->
  1 <= minNumberOfSuccessfulTargetStateReadings (configuration_ m) ->
  driveStateChangeMinTimeout (configuration_ m) < Z.of_N dt ->
  let hops := length (sdoTransitionList target d) in
  let confirmations :=
    Z.to_nat (minNumberOfSuccessfulTargetStateReadings (configuration_ m)) in
  let armed := armStateChange target m in
  let reached := closedLoop decodeDriveState doUnitConversion encode dt
                   hops (d, armed) in
  let final := closedLoop decodeDriveState doUnitConversion encode dt
                 (hops + confirmations) (d, armed) in
  fst reached = target
  /\ controlWordsOnBus (snd reached)
     = controlWordsOnBus m
       ++ map setStateTransition (sdoTransitionList target d)
  /\ stateChangeSuccessful_ (snd reached) = false
  /\ fst final = target
  /\ stateChangeSuccessful_ (snd final) = true
  /\ conductStateChange_ (snd final) = false.
Proof.
  intros Hdecode Hnf Hrest Hmode Htx Hrx Hn Hmin Hdt hops confirmations armed
    reached final.
  destruct (hop_cycles decodeDriveState doUnitConversion encode dt target
              Hdecode Hnf hops d armed)
    as (Hd & Hbus & Hrest' & Hm' & Hcfg' & Ht' & Hs' & Hc' & Hn');
    try assumption; try reflexivity;
    try (unfold armed, armStateChange, now; cbn; first [assumption | lia]).
  fold reached in Hd, Hbus, Hrest', Hm', Hcfg', Ht', Hs', Hc', Hn'.
  change (controlWordsOnBus armed) with (controlWordsOnBus m) in Hbus.
  change (configuration_ armed) with (configuration_ m) in Hcfg'.
  change (modeOfOperation_ armed) with (modeOfOperation_ m) in Hm'.
  change (numberOfSuccessfulTargetStateReadings_ armed)
    with (numberOfSuccessfulTargetStateReadings_ m) in Hn'.
  assert (Hlife : lifecycleAfter target 0 (snd reached)).
  { unfold lifecycleAfter. rewrite Hm', Hcfg', Ht', Hs', Hc', Hn', Hn.
    repeat split; try assumption. left. repeat split; lia. }
  assert (Hrx' : rxPdoTypeEnum (configuration_ (snd reached)) <> RxPdoNA)
    by (rewrite Hcfg'; exact Hrx).
  destruct (confirm_cycles decodeDriveState doUnitConversion encode dt target
              Hdecode confirmations 0 (snd reached) Hlife Hrx' Hrest')
    as (Hfinal & Hlife' & Hcfg).
  assert (Hsplit : final
                   = closedLoop decodeDriveState doUnitConversion encode dt
                       confirmations (target, snd reached)).
  { unfold final. rewrite closedLoop_add. fold reached.
    now rewrite (surjective_pairing reached), Hd. }
  rewrite <- Hsplit in Hfinal, Hlife', Hcfg.
  destruct Hlife' as (_ & _ & _ & Hend).
  rewrite Hcfg' in Hcfg.
  rewrite Hcfg in Hend.
  split; [exact Hd | split; [exact Hbus | split; [exact Hs' | split;
    [exact Hfinal |]]]].
  destruct Hend as [(_ & _ & _ & Hlt) | (Hs & Hc & _)]; [| now split].
  unfold confirmations in Hlt. lia.
Qed.

Lemma request_reaches_target_witness :
  let m := exampleDevice (exampleConfiguration RxPdoStandard TxPdoStandard
                            CyclicSynchronousPositionMode true 2 1000000)
             SwitchOnDisabled in
  let final := closedLoop exampleDecode exampleConversion exampleStatusword
                 2000 (3 + 2) (SwitchOnDisabled,
                               armStateChange OperationEnabled m) in
  fst final = OperationEnabled
  /\ stateChangeSuccessful_ (snd final) = true
  /\ controlWordsOnBus
       (snd (closedLoop exampleDecode exampleConversion exampleStatusword
               2000 3 (SwitchOnDisabled, armStateChange OperationEnabled m)))
     = map setStateTransition [_2; _3; _4].
Proof.
  cbv zeta.
  destruct (request_reaches_target exampleDecode exampleConversion
              exampleStatusword 2000 OperationEnabled SwitchOnDisabled
              (exampleDevice (exampleConfiguration RxPdoStandard TxPdoStandard
                                CyclicSynchronousPositionMode true 2 1000000)
                 SwitchOnDisabled))
    as (_ & Hbus & _ & Hd & Hs & _).
  - apply exampleDecode_statusword.
  - discriminate.
  - reflexivity.
  - discriminate.
  - discriminate.
  - discriminate.
  - reflexivity.
  - vm_compute. discriminate.
  - vm_compute. reflexivity.
  - split; [exact Hd | split; [exact Hs | exact Hbus]].
Defined.

(** ** A waiting request that completes *)

(** X19: a waiting request returns [true] at the first poll that finds the
    success flag set, provided the timeout had not elapsed at an earlier
    poll; the success flag is tested first, so the caller receives [true]
    even when the timeout has elapsed at that same poll.  The device is
    returned as the other threads left it. *)
Theorem setDriveStateViaPdo_success (decodeDriveState : Z -> DriveState)
    (doUnitConversion : Command -> Command)
    (driveState : DriveState) (sleeps : list (list Action)) (k : nat)
    (m : Maxon) :
  let armed := armStateChange driveState m in
  (k <= length sleeps)%nat ->
  stateChangeSuccessful_
    (afterSleeps decodeDriveState doUnitConversion sleeps k armed) = true ->
  (forall j : nat, (j < k)%nat ->
     stateChangeSuccessful_
       (afterSleeps decodeDriveState doUnitConversion sleeps j armed) = false
     /\ clock (afterSleeps decodeDriveState doUnitConversion sleeps j armed)
        - clock m
        <= driveStateChangeMaxTimeout (configuration_ m)) ->
  setDriveStateViaPdo decodeDriveState doUnitConversion driveState true sleeps m
  = Some (true, afterSleeps decodeDriveState doUnitConversion sleeps k armed).
Proof.
  intros armed Hk Hdone Hbefore.
  unfold setDriveStateViaPdo. cbn [negb]. fold armed.
  apply waitForStateChange_success; assumption.
Qed.

Lemma setDriveStateViaPdo_success_witness :
  let m := exampleDevice (exampleConfiguration RxPdoStandard TxPdoStandard
                            CyclicSynchronousPositionMode true 1 500)
             OperationEnabled in
  exists m' : Maxon,
    setDriveStateViaPdo exampleDecode exampleConversion OperationEnabled true
      [[ActUpdateRead (exampleTxPdo OperationEnabled); ActUpdateWrite]] m
    = Some (true, m')
    /\ 500 < clock m' - clock m.
Proof.
  cbv zeta. eexists. split.
  - apply (setDriveStateViaPdo_success exampleDecode exampleConversion
             OperationEnabled
             [[ActUpdateRead (exampleTxPdo OperationEnabled); ActUpdateWrite]]
             1
             (exampleDevice (exampleConfiguration RxPdoStandard TxPdoStandard
                               CyclicSynchronousPositionMode true 1 500)
                OperationEnabled)).
    + cbn [length]. lia.
    + vm_compute. reflexivity.
    + intros [|j] Hj; [| lia]. vm_compute. split; [reflexivity | discriminate].
  - vm_compute. reflexivity.
Defined.

(** ** A write with an unsupported variant *)

(** X20: with a resolved mode and an unsupported write variant,
    [updateWrite] puts no frame on the bus and ends by adding
    [RxPdoTypeError]; the PDO state machine is evaluated before that all the
    same, exactly when a request is pending and a read is fresh. *)
Theorem unsupported_write_variant (decodeDriveState : Z -> DriveState) (m : Maxon) :
  modeOfOperation_ m <> NA ->
  rxPdoTypeEnum (configuration_ m) = RxPdoNA ->
  let w := updateWrite decodeDriveState m in
  bus_ w = bus_ m
  /\ (exists es : list ErrorType,
         errors (reading_ w) = errors (reading_ m) ++ es ++ [RxPdoTypeError])
  /\ countEngaged (log w)
     = (countEngaged (log m)
        + if conductStateChange_ m && hasRead_ m then 1 else 0)%nat.
Proof.
  intros Hmode Hrx. cbv zeta.
  pose proof (updateWrite_engages decodeDriveState m) as He.
  cbv zeta in He. destruct He as (Hcount & _).
  unfold engages in Hcount.
  apply ModeOfOperationEnum_eqb_neq in Hmode. rewrite Hmode in Hcount.
  cbn [negb andb] in Hcount.
  split; [| split; [| exact Hcount]].
  - unfold updateWrite. rewrite Hmode.
    set (x := if conductStateChange_ m && hasRead_ m
              then engagePdoStateMachine decodeDriveState m else m).
    assert (Hx : configuration_ x = configuration_ m /\ bus_ x = bus_ m).
    { subst x. destruct (conductStateChange_ m && hasRead_ m); [| tauto].
      pose proof (engagePdoStateMachine_frame decodeDriveState m) as H.
      cbv zeta in H. tauto. }
    destruct Hx as (Hcfg & Hbus).
    unfold buildRxPdo. rewrite Hcfg, Hrx. cbn. exact Hbus.
  - unfold updateWrite. rewrite Hmode.
    set (x := if conductStateChange_ m && hasRead_ m
              then engagePdoStateMachine decodeDriveState m else m).
    assert (Hx : configuration_ x = configuration_ m
                 /\ exists es, errors (reading_ x) = errors (reading_ m) ++ es).
    { subst x. destruct (conductStateChange_ m && hasRead_ m).
      - pose proof (engagePdoStateMachine_frame decodeDriveState m) as H.
        pose proof (engagePdoStateMachine_reading decodeDriveState m) as H'.
        cbv zeta in H, H'. tauto.
      - split; [reflexivity |]. exists []. now rewrite app_nil_r. }
    destruct Hx as (Hcfg & es & Herr).
    unfold buildRxPdo. rewrite Hcfg, Hrx. cbn. rewrite Herr.
    exists es. now rewrite app_assoc.
Qed.

Lemma unsupported_write_variant_witness :
  let m := exampleDevice (exampleConfiguration RxPdoNA TxPdoStandard
                            CyclicSynchronousPositionMode false 1 0)
             OperationEnabled in
  bus_ (updateWrite exampleDecode m) = bus_ m
  /\ errors (reading_ (updateWrite exampleDecode m)) = [RxPdoTypeError].
Proof.
  cbv zeta.
  destruct (unsupported_write_variant exampleDecode
              (exampleDevice (exampleConfiguration RxPdoNA TxPdoStandard
                                CyclicSynchronousPositionMode false 1 0)
                 OperationEnabled)) as (Hbus & _ & _).
  - discriminate.
  - reflexivity.
  - split; [exact Hbus | reflexivity].
Defined.

(** ** Requests for the state the drive is already in, on both channels *)

(** The state machine on a read of the target: it asks for no transition,
    reports nothing and leaves the reading and the control word alone. *)
Lemma engagePdoStateMachine_reached (decodeDriveState : Z -> DriveState) (m : Maxon) :
  decodeDriveState (statusword (reading_ m)) = targetDriveState_ m ->
  let e := engagePdoStateMachine decodeDriveState m in
  reading_ e = reading_ m
  /\ controlword_ e = controlword_ m
  /\ log e
     = log m ++ [OutEngaged; OutConductStateChange (conductStateChange_ m);
                 OutCurrentDriveState (targetDriveState_ m); OutTargetReached].
Proof.
  intros Heq. unfold engagePdoStateMachine, getDriveState. cbn.
  rewrite Heq, DriveState_eqb_refl. cbn.
  destruct (_ <=? _); cbn; rewrite <- !app_assoc; repeat split.
Qed.

(** With a resolved mode and a supported variant, the part of [updateWrite]
    after the state machine only puts the frame on the bus. *)
Lemma updateWrite_supported (decodeDriveState : Z -> DriveState) (m : Maxon) :
  modeOfOperation_ m <> NA ->
  rxPdoTypeEnum (configuration_ m) <> RxPdoNA ->
  let x := if conductStateChange_ m && hasRead_ m
           then engagePdoStateMachine decodeDriveState m else m in
  let w := updateWrite decodeDriveState m in
  reading_ w = reading_ x
  /\ log w = log x
  /\ controlword_ w = controlword_ x
  /\ controlWordsOnBus w = controlWordsOnBus m ++ [controlword_ x].
Proof.
  intros Hmode Hrx. cbv zeta. unfold updateWrite.
  apply ModeOfOperationEnum_eqb_neq in Hmode. rewrite Hmode.
  set (x := if conductStateChange_ m && hasRead_ m
            then engagePdoStateMachine decodeDriveState m else m).
  assert (Hx : configuration_ x = configuration_ m /\ bus_ x = bus_ m).
  { subst x. destruct (conductStateChange_ m && hasRead_ m); [| tauto].
    pose proof (engagePdoStateMachine_frame decodeDriveState m) as H.
    cbv zeta in H. tauto. }
  destruct Hx as (Hcfg & Hbus).
  unfold buildRxPdo. rewrite Hcfg.
  destruct (rxPdoTypeEnum (configuration_ m)); try congruence;
    unfold controlWordsOnBus; cbn; rewrite Hbus, map_app; repeat split.
Qed.

(** C4, amended: when the requested state is the current one, neither
    channel yields a state-transition control word.  The PDO mapping
    [getNextStateTransitionControlword], called with equal states, returns
    the all-false control word and adds [PdoStateTransitionError], with the
    line "already reached" unless the state is [Fault].  The cyclic channel
    never calls it so: a cyclic request for the state that the next read
    shows finds the target reached, reports nothing, adds no error and
    sends the control word the device held before.  The SDO channel
    reports nothing either and leaves the device as it is, unless the state
    is [Fault], which it reports as [SdoStateTransitionError] and answers
    with failure. *)
Theorem already_reached (decodeDriveState : Z -> DriveState)
    (m : Maxon) (s : DriveState) (txPdo : TxPdo) :
  decodeDriveState (snd (sdoStatuswordReply (bus_ m))) = s ->
  let pdo := getNextStateTransitionControlword s s m in
  let sdo := setDriveStateViaSdo decodeDriveState s m in
  let read := updateRead decodeDriveState txPdo (armStateChange s m) in
  let cyclic := updateWrite decodeDriveState read in
  fst pdo = AllFalse
  /\ errors (reading_ (snd pdo)) = errors (reading_ m) ++ [PdoStateTransitionError]
  /\ (s <> Fault -> log (snd pdo) = log m ++ [ErrPdoAlreadyReached])
  /\ sdoWrites (bus_ (snd sdo)) = sdoWrites (bus_ m)
  /\ (s <> Fault -> sdo = (fst (sdoStatuswordReply (bus_ m)), m))
  /\ (s = Fault ->
      fst sdo = false
      /\ errors (reading_ (snd sdo)) = errors (reading_ m) ++ [SdoStateTransitionError])
  /\ (decodeDriveState (statusword_ txPdo) = s ->
      modeOfOperation_ m <> NA ->
      txPdoTypeEnum (configuration_ m) <> TxPdoNA ->
      rxPdoTypeEnum (configuration_ m) <> RxPdoNA ->
      errors (reading_ cyclic) = errors (reading_ m)
      /\ controlword_ cyclic = controlword_ m
      /\ controlWordsOnBus cyclic = controlWordsOnBus m ++ [controlword_ m]
      /\ log cyclic
         = log read ++ [OutEngaged; OutConductStateChange true;
                        OutCurrentDriveState s; OutTargetReached]).
Proof.
  intros Hs pdo sdo read cyclic.
  assert (Hsdo : sdo = match sdoTransitions s s with
                       | Some ts => issueViaSdo ts (fst (sdoStatuswordReply (bus_ m))) m
                       | None =>
                           (false,
                            addErrorToReading SdoStateTransitionError
                              (emit ErrSdoTransitionNotImplemented m))
                       end).
  { subst sdo. unfold setDriveStateViaSdo, bind, getStatuswordViaSdo.
    destruct (sdoStatuswordReply (bus_ m)) as [ok w] eqn:Hreply.
    simpl in Hs. simpl. rewrite Hs.
    destruct (sdoTransitions s s); reflexivity. }
  split; [subst pdo; destruct s; reflexivity |].
  split; [subst pdo; destruct s; reflexivity |].
  split; [intros Hnf; subst pdo; destruct s; try reflexivity; congruence |].
  split; [rewrite Hsdo; destruct s; simpl; reflexivity |].
  split; [intros Hnf; rewrite Hsdo; destruct s; simpl; try reflexivity; congruence |].
  split; [intros ->; rewrite Hsdo; split; reflexivity |].
  intros Hframe Hmode Htx Hrx.
  pose proof (updateRead_lifecycle decodeDriveState txPdo (armStateChange s m)) as Hl.
  pose proof (updateRead_preserves decodeDriveState txPdo (armStateChange s m)) as Hp.
  pose proof (updateRead_errors decodeDriveState txPdo (armStateChange s m)) as He.
  cbv zeta in Hl, Hp. fold read in Hl, Hp, He.
  destruct Hl as (Hread & _ & Hc & _ & Hcfg & Ht & Hm & Hw).
  destruct Hp as (_ & _ & Hcw & _ & _ & _ & Hbus & _).
  cbn in Hc, Hcfg, Ht, Hm, Hw, Hcw, Hbus, He.
  specialize (Hw Htx).
  assert (Herr : errors (reading_ read) = errors (reading_ m)).
  { rewrite He. destruct (txPdoTypeEnum (configuration_ m));
      try congruence; apply app_nil_r. }
  assert (Hreached : decodeDriveState (statusword (reading_ read))
                     = targetDriveState_ read) by congruence.
  destruct (engagePdoStateMachine_reached decodeDriveState read Hreached)
    as (Her & Hecw & Helog).
  destruct (updateWrite_supported decodeDriveState read) as (Hwr & Hwlog & Hwcw & Hwbus).
  { congruence. }
  { congruence. }
  fold cyclic in Hwr, Hwlog, Hwcw, Hwbus.
  rewrite Hc, Hread in Hwr, Hwlog, Hwcw, Hwbus. cbn [andb] in Hwr, Hwlog, Hwcw, Hwbus.
  rewrite Hwr, Hwlog, Hwcw, Hwbus, Her, Hecw, Helog, Herr, Hcw, Hc, Ht.
  unfold controlWordsOnBus. rewrite Hbus. repeat split.
Qed.

Lemma already_reached_witness :
  let m := exampleDevice (exampleConfiguration RxPdoStandard TxPdoStandard
                            CyclicSynchronousPositionMode false 1 0) OperationEnabled in
  let cyclic := updateWrite exampleDecode
                  (updateRead exampleDecode (exampleTxPdo OperationEnabled)
                     (armStateChange OperationEnabled m)) in
  fst (getNextStateTransitionControlword OperationEnabled OperationEnabled m) = AllFalse
  /\ errors (reading_ (snd (getNextStateTransitionControlword
                              OperationEnabled OperationEnabled m)))
     = [PdoStateTransitionError]
  /\ setDriveStateViaSdo exampleDecode OperationEnabled m = (true, m)
  /\ errors (reading_ cyclic) = []
  /\ controlWordsOnBus cyclic = [AllFalse].
Proof.
  cbv zeta.
  pose proof (already_reached exampleDecode
                (exampleDevice (exampleConfiguration RxPdoStandard TxPdoStandard
                                  CyclicSynchronousPositionMode false 1 0) OperationEnabled)
                OperationEnabled (exampleTxPdo OperationEnabled) eq_refl) as H.
  cbv zeta in H. destruct H as (H1 & H2 & _ & _ & H5 & _ & H7).
  destruct H7 as (H71 & _ & H73 & _);
    [reflexivity | discriminate | discriminate | discriminate |].
  split; [exact H1 | split; [exact H2 | split; [| split; [exact H71 | exact H73]]]].
  apply H5. discriminate.
Defined.
